(** * The TD3 training driver: a shallow embedding of [src/main.py]

    The driver is an orchestrator: almost everything it does is a call to a
    collaborator (the Gym environment, the policy object, the replay buffer,
    NumPy's random generator, the wall clock, the disk).  The
    embedding keeps the control flow of [main], [eval_policy],
    [write_eval_to_csv] and [parse_args] as written and threads an explicit
    [World] through a small state-and-exception monad.  The collaborators
    are interfaces (type classes); every call on them is also recorded in a
    chronological [trace], so that statements such as "no train call before
    step [start_timesteps]" can be phrased and proved.

    Conventions.  Python's [int] is [Z].  Python's [float] is an abstract
    type with the operations the driver applies to it; no law of arithmetic
    is assumed unless a statement says so.  The argument dictionary is a
    [gmap] from attribute names to dynamically typed values, and reading a
    missing attribute raises [AttributeError].  Environment instances live
    in a store and are addressed by handle, so that the training
    environment and an evaluation environment are different objects.  The
    disk is an interface like the others: a call on it may raise, and a
    statement about a whole run says what it needs from the disk.
    [while not done] in [eval_policy] is the only loop that need not end; it
    runs on fuel, and the statements about whole runs ask for environments
    whose episodes end. *)

From Stdlib Require Import ZArith List Lia Ascii.
From stdpp Require Import base tactics option list gmap strings pretty.

Local Open Scope Z_scope.

(** ** Python values and exceptions *)

(** The values an argument dictionary ([dict[str, Any]]) holds. *)
Inductive pyval (F : Type) : Type :=
| VInt (z : Z)
| VFloat (x : F)
| VStr (s : string)
| VBool (b : bool).
Arguments VInt {F} z.
Arguments VFloat {F} x.
Arguments VStr {F} s.
Arguments VBool {F} b.

(** The exceptions that can leave [main].  [OutOfFuel] is not a Python
    exception: it marks an evaluation episode ([while not done]) that did
    not end within the fuel given to the model.  [Unmodelled] marks a path
    argument that is not a string. *)
Inductive exn : Type :=
| AttributeError (name : string)
| UnboundLocalError (var : string)
| TypeError (op : string)
| ValueError (op : string)
| ZeroDivisionError
| FileExistsError (path : string)
| IsADirectoryError (path : string)
| NotADirectoryError (path : string)
| FileNotFoundError (path : string)
| GymError
| SystemExit
| Unmodelled (what : string)
| OutOfFuel.

(** Python's [float] and the conversions the driver applies.  The driver
    never looks inside a float, so the operations are an interface. *)
Class PyNum (F : Type) : Type := {
  float_dec : Z → Z → F;            (* the float written m * 10^e *)
  fadd : F → F → F;
  fsub : F → F → F;
  fmul : F → F → F;
  fdiv : F → F → F;
  fneg : F → F;
  fmaximum : F → F → F;             (* np.maximum on one component *)
  fminimum : F → F → F;             (* np.minimum on one component *)
  float_nonzero : F → bool;         (* bool(x) *)
  int_lt_float : Z → F → bool;      (* n < x *)
  int_ge_float : Z → F → bool;      (* n >= x *)
  int_mod_float : Z → F → option F; (* n % x, None when x == 0 *)
  float_to_int : F → option Z;      (* int(x), None for inf and nan *)
  float_repr : F → string;          (* str(x) *)
  float_fmt3 : F → string;          (* format(x, ".3f") *)
  py_int : string → option Z;       (* int(s), None when it raises *)
}.

(** A line of a text file: free text, or a row written by [csv.writer]. *)
Inductive fline (F : Type) : Type :=
| Text (s : string)
| Row (cells : list (pyval F)).
Arguments Text {F} s.
Arguments Row {F} cells.

(** A transition as handed to [replay_buffer.add]. *)
Record transition (F Obs : Type) : Type := mkTransition {
  tr_state : Obs;
  tr_action : list F;
  tr_next_state : Obs;
  tr_reward : F;
  tr_done : F;
}.
Arguments mkTransition {F Obs}.
Arguments tr_state {F Obs}.
Arguments tr_action {F Obs}.
Arguments tr_next_state {F Obs}.
Arguments tr_reward {F Obs}.
Arguments tr_done {F Obs}.

Inductive policy_kind : Type := TD3 | OurDDPG | DDPG.

(** The Gym environment collaborator. *)
Class Gym (F Obs EnvSt : Type) : Type := {
  gym_make : pyval F → option EnvSt;          (* gym.make(name) *)
  env_seed : EnvSt → pyval F → EnvSt;         (* env.seed(s) *)
  env_reset : EnvSt → Obs * EnvSt;            (* env.reset() *)
  env_step : EnvSt → list F → (Obs * F * bool) * EnvSt;
  action_sample : EnvSt → list F * EnvSt;     (* env.action_space.sample() *)
  obs_dim : EnvSt → Z;                        (* observation_space.shape[0] *)
  act_dim : EnvSt → Z;                        (* action_space.shape[0] *)
  act_high0 : EnvSt → F;                      (* float(action_space.high[0]) *)
  max_episode_steps : EnvSt → Z;              (* env._max_episode_steps *)
}.

(** Modelled from the spec: the policy classes and the replay buffer of the
    [TD3] package and [set_seeds] of [src.utils] are not part of
    [src/main.py]; they are taken as an interface with the contract the
    specification gives them.  [select_action] is a function of the policy
    state and has no side effect (spec 4.2); [train] may change the policy
    and draws from the generator; the buffer is changed by [add] only.
    NumPy's global generator and the performance counter are on the same
    side: [perf_clock n] is what the [n]-th call of [perf_counter]
    returns. *)
Class Learner (F Obs EnvSt PolSt Buf RngSt : Type) : Type := {
  policy_new : policy_kind → gmap string (pyval F) → PolSt;
  select_action : PolSt → Obs → list F;
  policy_train : PolSt → Buf → pyval F → RngSt → PolSt * RngSt;
  buffer_new : Z → Z → Buf;
  buffer_add : Buf → transition F Obs → Buf;
  set_seeds : pyval F → EnvSt → RngSt → EnvSt * RngSt;
  np_random_normal : RngSt → F → Z → list F * RngSt;
  perf_clock : nat → F;                       (* the n-th reading *)
}.

(** The disk, as [os.path.exists], [os.makedirs] and [open] see it.  A
    call takes the state of the disk and gives the state it leaves, with
    the exception if it raised one; which calls succeed, and what they
    change, is the disk's business and not fixed here.  [fs_read] is not a
    call the driver makes: it is the content of the text file at a path, if
    there is one, and lets a statement speak about what a file holds.

    Modelled from the spec: [save] and [load] of the policy classes are not
    part of [src/main.py]; they persist and restore the policy as a bundle
    keyed by a path prefix (spec 4.2), so they are calls on the disk too:
    [save] may write any files, both may raise. *)
Class Disk (F PolSt FsSt : Type) : Type := {
  fs_exists : FsSt → string → bool;                  (* os.path.exists(p) *)
  fs_makedirs : FsSt → string → FsSt * option exn;   (* os.makedirs(p) *)
  fs_create : FsSt → string → FsSt * option exn;     (* open(p, "x") *)
  fs_write : FsSt → string → list (fline F) → FsSt * option exn;
                                   (* f.write(...) on the file opened at p *)
  fs_append : FsSt → string → list (fline F) → FsSt * option exn;
                                   (* open(p, "a") and the rows written *)
  fs_read : FsSt → string → option (list (fline F));
  policy_save : FsSt → PolSt → string → FsSt * option exn;  (* policy.save(p) *)
  policy_load : FsSt → PolSt → string → exn + PolSt;        (* policy.load(p) *)
}.

Section Driver.
Context {F Obs EnvSt PolSt Buf RngSt FsSt : Type}.
Context {num : PyNum F} {gym : Gym F Obs EnvSt}.
Context {learner : Learner F Obs EnvSt PolSt Buf RngSt}.
Context {disk : Disk F PolSt FsSt}.

Local Abbreviation value := (pyval F).
Local Abbreviation dict := (gmap string (pyval F)).

(** *** Calls on collaborators, as they appear in the trace *)
Inductive event : Type :=
| EPrint (s : string)
| EGymMake (name : value) (id : nat)
| ESetSeeds (seed : value) (id : nat)
| EEnvSeed (id : nat) (seed : value)
| EReset (id : nat) (o : Obs)
| EStep (id : nat) (a : list F) (o : Obs) (r : F) (d : bool)
| ESample (id : nat) (a : list F)
| ESelectAction (o : Obs) (a : list F)
| ENormal (scale : F) (size : Z) (noise : list F)
| EPolicyNew (k : policy_kind) (kwargs : dict)
| EPolicyLoad (path : string)
| EPolicySave (path : string)
| EBufferNew (state_dim action_dim : Z)
| EBufferAdd (tr : transition F Obs)
| ETrain (batch_size : value)
| EPerfCounter (x : F).

(** *** The world the driver runs in *)
Record World : Type := mkWorld {
  fs : FsSt;                      (* the disk *)
  envs : list EnvSt;              (* environment instances, by handle *)
  policy : option PolSt;          (* the object bound to [policy] *)
  replay_buffer : option Buf;     (* the object bound to [replay_buffer] *)
  rng : RngSt;
  clk : nat;                      (* perf_counter readings taken so far *)
  trace : list event;
}.

Definition set_fs (st : FsSt) (w : World) :=
  mkWorld st (envs w) (policy w) (replay_buffer w) (rng w) (clk w) (trace w).
Definition set_envs (f : list EnvSt → list EnvSt) (w : World) :=
  mkWorld (fs w) (f (envs w)) (policy w) (replay_buffer w) (rng w) (clk w) (trace w).
Definition set_policy (p : option PolSt) (w : World) :=
  mkWorld (fs w) (envs w) p (replay_buffer w) (rng w) (clk w) (trace w).
Definition set_replay_buffer (b : option Buf) (w : World) :=
  mkWorld (fs w) (envs w) (policy w) b (rng w) (clk w) (trace w).
Definition set_rng (r : RngSt) (w : World) :=
  mkWorld (fs w) (envs w) (policy w) (replay_buffer w) r (clk w) (trace w).
Definition set_clk (n : nat) (w : World) :=
  mkWorld (fs w) (envs w) (policy w) (replay_buffer w) (rng w) n (trace w).
Definition log (e : event) (w : World) :=
  mkWorld (fs w) (envs w) (policy w) (replay_buffer w) (rng w) (clk w) (trace w ++ [e]).

(** *** State and exceptions *)
Definition M (A : Type) : Type := World → World * (exn + A).

Definition ret {A} (a : A) : M A := λ w, (w, inr a).
Definition raise {A} (e : exn) : M A := λ w, (w, inl e).
Definition bind {A B} (m : M A) (k : A → M B) : M B :=
  λ w, match m w with
       | (w', inr a) => k a w'
       | (w', inl e) => (w', inl e)
       end.
Definition lift {A} (r : exn + A) : M A := λ w, (w, r).
Definition emit (e : event) : M unit := λ w, (log e w, inr tt).

Notation "x <~ m ;; k" := (bind m (λ x, k))
  (at level 100, m at next level, right associativity).
Notation "m ;;; k" := (bind m (λ _, k))
  (at level 100, right associativity).

(** *** Python operators on argument values *)
Definition float_of_Z (z : Z) : F := float_dec z 0.
Definition float_of_bool (b : bool) : F := float_of_Z (Z.b2z b).

Definition py_str (v : value) : string :=
  match v with
  | VInt z => pretty z
  | VFloat x => float_repr x
  | VStr s => s
  | VBool true => "True"
  | VBool false => "False"
  end.

Definition truthy (v : value) : bool :=
  match v with
  | VInt z => negb (z =? 0)
  | VFloat x => float_nonzero x
  | VStr s => negb (String.eqb s "")
  | VBool b => b
  end.

(** [v == s] for a string literal [s]. *)
Definition py_eq_str (v : value) (s : string) : bool :=
  match v with
  | VStr s' => String.eqb s' s
  | _ => false
  end.

(** [t < v] *)
Definition py_int_lt (t : Z) (v : value) : exn + bool :=
  match v with
  | VInt z => inr (t <? z)
  | VBool b => inr (t <? Z.b2z b)
  | VFloat x => inr (int_lt_float t x)
  | VStr _ => inl (TypeError "<")
  end.

(** [t >= v] *)
Definition py_int_ge (t : Z) (v : value) : exn + bool :=
  match v with
  | VInt z => inr (t >=? z)
  | VBool b => inr (t >=? Z.b2z b)
  | VFloat x => inr (int_ge_float t x)
  | VStr _ => inl (TypeError ">=")
  end.

(** [n % v == 0] *)
Definition py_int_mod_is_zero (n : Z) (v : value) : exn + bool :=
  match v with
  | VInt z => if z =? 0 then inl ZeroDivisionError else inr (n mod z =? 0)
  | VBool b => if b then inr (n mod 1 =? 0) else inl ZeroDivisionError
  | VFloat x =>
      match int_mod_float n x with
      | Some r => inr (negb (float_nonzero r))
      | None => inl ZeroDivisionError
      end
  | VStr _ => inl (TypeError "%")
  end.

(** [int(v)] *)
Definition py_to_int (v : value) : exn + Z :=
  match v with
  | VInt z => inr z
  | VBool b => inr (Z.b2z b)
  | VFloat x =>
      match float_to_int x with Some z => inr z | None => inl (ValueError "int") end
  | VStr s =>
      match py_int s with Some z => inr z | None => inl (ValueError "int") end
  end.

(** The float a number stands for in float arithmetic; strings have none. *)
Definition py_as_float (op : string) (v : value) : exn + F :=
  match v with
  | VInt z => inr (float_of_Z z)
  | VBool b => inr (float_of_bool b)
  | VFloat x => inr x
  | VStr _ => inl (TypeError op)
  end.

(** [v * x] for a float [x] *)
Definition py_mul_float (v : value) (x : F) : exn + value :=
  match py_as_float "*" v with
  | inr y => inr (VFloat (fmul y x))
  | inl e => inl e
  end.

(** [x * v] for a float [x] *)
Definition py_float_mul (x : F) (v : value) : exn + F :=
  match py_as_float "*" v with
  | inr y => inr (fmul x y)
  | inl e => inl e
  end.

(** [v + n] for an int literal [n] *)
Definition py_add_int (v : value) (n : Z) : exn + value :=
  match v with
  | VInt z => inr (VInt (z + n))
  | VBool b => inr (VInt (Z.b2z b + n))
  | VFloat x => inr (VFloat (fadd x (float_of_Z n)))
  | VStr _ => inl (TypeError "+")
  end.

(** [x / n] for a float [x] and an int [n] *)
Definition py_float_div_int (x : F) (n : Z) : exn + F :=
  if n =? 0 then inl ZeroDivisionError else inr (fdiv x (float_of_Z n)).

(** A path argument of [os.path.exists], [os.makedirs] or [open]. *)
Definition as_path (v : value) : exn + string :=
  match v with
  | VStr s => inr s
  | _ => inl (Unmodelled "path")
  end.

(** [a + b] on one-dimensional arrays, with NumPy's broadcasting. *)
Definition np_add (a b : list F) : exn + list F :=
  if (length a =? length b)%nat then inr (zip_with fadd a b)
  else match a, b with
       | [x], _ => inr (map (fadd x) b)
       | _, [y] => inr (map (λ x, fadd x y) a)
       | _, _ => inl (ValueError "broadcast")
       end.

(** [a.clip(lo, hi)], which is [np.minimum(hi, np.maximum(a, lo))]. *)
Definition np_clip (lo hi : F) (a : list F) : list F :=
  map (λ x, fminimum hi (fmaximum x lo)) a.

(** [range(n)] *)
Definition py_range (n : Z) : list Z := map Z.of_nat (seq 0 (Z.to_nat n)).

(** *** Primitive effects *)
Definition getattr (args : dict) (name : string) : M value :=
  lift (match args !! name with
        | Some v => inr v
        | None => inl (AttributeError name)
        end).

Definition print (s : string) : M unit := emit (EPrint s).

Definition path_exists (p : string) : M bool :=
  λ w, (w, inr (fs_exists (fs w) p)).

(** A call on the disk.  The state it leaves is kept also when it raises. *)
Definition fs_call (f : FsSt → FsSt * option exn) : M unit :=
  λ w, let r := f (fs w) in
       (set_fs r.1 w, match r.2 with None => inr tt | Some e => inl e end).

Definition makedirs (p : string) : M unit := fs_call (λ st, fs_makedirs st p).

(** [open(p, "x")]: exclusive creation. *)
Definition open_x (p : string) : M unit := fs_call (λ st, fs_create st p).

(** [f.write(...)] of the lines [ls] on the file opened at [p]. *)
Definition write_lines (p : string) (ls : list (fline F)) : M unit :=
  fs_call (λ st, fs_write st p ls).

(** [open(p, "a")] followed by writes of [ls]. *)
Definition append_lines (p : string) (ls : list (fline F)) : M unit :=
  fs_call (λ st, fs_append st p ls).

Definition perf_counter : M F :=
  λ w, let x := perf_clock (clk w) in
       (log (EPerfCounter x) (set_clk (S (clk w)) w), inr x).

Definition the_policy : M PolSt :=
  λ w, match policy w with
       | Some p => (w, inr p)
       | None => (w, inl (UnboundLocalError "policy"))
       end.

Definition the_buffer : M Buf :=
  λ w, match replay_buffer w with
       | Some b => (w, inr b)
       | None => (w, inl (UnboundLocalError "replay_buffer"))
       end.

Definition the_env (id : nat) : M EnvSt :=
  λ w, match envs w !! id with
       | Some e => (w, inr e)
       | None => (w, inl (Unmodelled "environment handle"))
       end.

Definition put_env (id : nat) (e : EnvSt) : M unit :=
  λ w, (set_envs (λ l, <[id:=e]> l) w, inr tt).

Definition gym_make_m (name : value) : M nat :=
  λ w, match gym_make name with
       | Some e =>
           let id := length (envs w) in
           (log (EGymMake name id) (set_envs (λ l, l ++ [e]) w), inr id)
       | None => (w, inl GymError)
       end.

Definition env_seed_m (id : nat) (s : value) : M unit :=
  e <~ the_env id ;;
  put_env id (env_seed e s) ;;;
  emit (EEnvSeed id s).

Definition env_reset_m (id : nat) : M Obs :=
  e <~ the_env id ;;
  let '(o, e') := env_reset e in
  put_env id e' ;;;
  emit (EReset id o) ;;;
  ret o.

Definition env_step_m (id : nat) (a : list F) : M (Obs * F * bool) :=
  e <~ the_env id ;;
  let '(o, r, d, e') := env_step e a in
  put_env id e' ;;;
  emit (EStep id a o r d) ;;;
  ret (o, r, d).

Definition action_sample_m (id : nat) : M (list F) :=
  e <~ the_env id ;;
  let '(a, e') := action_sample e in
  put_env id e' ;;;
  emit (ESample id a) ;;;
  ret a.

Definition select_action_m (o : Obs) : M (list F) :=
  p <~ the_policy ;;
  let a := select_action p o in
  emit (ESelectAction o a) ;;;
  ret a.

Definition np_random_normal_m (scale : F) (size : Z) : M (list F) :=
  λ w, let '(noise, r) := np_random_normal (rng w) scale size in
       (log (ENormal scale size noise) (set_rng r w), inr noise).

Definition policy_train_m (args : dict) : M unit :=
  p <~ the_policy ;;
  b <~ the_buffer ;;
  batch_size <~ getattr args "batch_size" ;;
  λ w, let '(p', r) := policy_train p b batch_size (rng w) in
       (log (ETrain batch_size) (set_rng r (set_policy (Some p') w)), inr tt).

(** [policy.load(path)]; the call is logged when it returns. *)
Definition policy_load_m (path : string) : M unit :=
  p <~ the_policy ;;
  λ w, match policy_load (fs w) p path with
       | inr p' => (log (EPolicyLoad path) (set_policy (Some p') w), inr tt)
       | inl e => (w, inl e)
       end.

(** [policy.save(path)]; the call is logged when it returns. *)
Definition policy_save_m (path : string) : M unit :=
  p <~ the_policy ;;
  λ w, let r := policy_save (fs w) p path in
       match r.2 with
       | None => (log (EPolicySave path) (set_fs r.1 w), inr tt)
       | Some e => (set_fs r.1 w, inl e)
       end.

Definition buffer_add_m (tr : transition F Obs) : M unit :=
  b <~ the_buffer ;;
  λ w, (log (EBufferAdd tr) (set_replay_buffer (Some (buffer_add b tr)) w), inr tt).

(** *** [write_eval_to_csv] (lines 17-22) *)
Definition write_eval_to_csv (res_file : string)
    (avg_reward time env_steps grad_steps seed : value) : M unit :=
  append_lines res_file [Row [avg_reward; time; env_steps; grad_steps; seed]].

(** *** [eval_policy] (lines 27-44) *)

(** The body of [while not done], entered with [done = False]. *)
Fixpoint eval_episode (fuel : nat) (eval_env : nat) (state : Obs) (avg_reward : F)
    : M F :=
  match fuel with
  | O => raise OutOfFuel
  | S fuel' =>
      action <~ select_action_m state ;;
      r <~ env_step_m eval_env action ;;
      let '(state', reward, done) := r in
      let avg_reward' := fadd avg_reward reward in
      if done : bool then ret avg_reward'
      else eval_episode fuel' eval_env state' avg_reward'
  end.

(** [for _ in range(eval_episodes)] *)
Fixpoint eval_episodes_loop (fuel : nat) (eval_env : nat) (n : nat) (avg_reward : F)
    : M F :=
  match n with
  | O => ret avg_reward
  | S n' =>
      state <~ env_reset_m eval_env ;;
      avg_reward' <~ eval_episode fuel eval_env state avg_reward ;;
      eval_episodes_loop fuel eval_env n' avg_reward'
  end.

Definition rule : string := "---------------------------------------".

Definition eval_policy (fuel : nat) (env_name seed : value) (eval_episodes : Z)
    : M F :=
  eval_env <~ gym_make_m env_name ;;
  s <~ lift (py_add_int seed 100) ;;
  env_seed_m eval_env s ;;;
  avg_reward <~ eval_episodes_loop fuel eval_env (Z.to_nat eval_episodes)
                  (float_of_Z 0) ;;
  avg_reward <~ lift (py_float_div_int avg_reward eval_episodes) ;;
  print rule ;;;
  print ("Evaluation over " +:+ pretty eval_episodes +:+ " episodes: "
         +:+ float_fmt3 avg_reward) ;;;
  print rule ;;;
  ret avg_reward.

(** The default of the [eval_episodes] parameter. *)
Definition default_eval_episodes : Z := 10.

(** *** [parse_args] (lines 47-77)

    The command line is taken after [argparse] has split it into items and
    matched every option string with the options declared: an item is an
    option with its text or a flag, and [dest] is the name of the option
    the string stands for (the string itself, or the option it abbreviates)
    or, if it stands for none, a name that is not declared.  An option
    declared with [type=int] is converted with [int]; the others keep the
    text.  Defaults that are not strings are kept as written ([25e3] is a
    float). *)
Inductive cli_item : Type :=
| CliOpt (dest raw : string)
| CliFlag (dest : string).

Definition int_options : list string :=
  ["seed"; "start_timesteps"; "eval_freq"; "max_timesteps"; "batch_size";
   "policy_freq"].

Definition text_options : list string :=
  ["policy"; "env"; "expl_noise"; "discount"; "tau"; "policy_noise";
   "noise_clip"; "load_model"; "dest_model_path"; "dest_res_path"].

Definition defaults : dict :=
  list_to_map
    [("policy", VStr "TD3"); ("env", VStr "HalfCheetah-v2"); ("seed", VInt 0);
     ("start_timesteps", VFloat (float_dec 25 3));
     ("eval_freq", VFloat (float_dec 5 3));
     ("max_timesteps", VFloat (float_dec 1 6));
     ("expl_noise", VFloat (float_dec 1 (-1)));
     ("batch_size", VInt 256);
     ("discount", VFloat (float_dec 99 (-2)));
     ("tau", VFloat (float_dec 5 (-3)));
     ("policy_noise", VFloat (float_dec 2 (-1)));
     ("noise_clip", VFloat (float_dec 5 (-1)));
     ("policy_freq", VInt 2);
     ("save_model", VBool false);
     ("load_model", VStr "");
     ("dest_model_path", VStr "./models");
     ("dest_res_path", VStr "./results")].

Definition parse_item (ns : dict) (it : cli_item) : exn + dict :=
  match it with
  | CliOpt dest raw =>
      if bool_decide (dest ∈ int_options) then
        match py_int raw with
        | Some z => inr (<[dest:=VInt z]> ns)
        | None => inl SystemExit
        end
      else if bool_decide (dest ∈ text_options) then inr (<[dest:=VStr raw]> ns)
      else inl SystemExit
  | CliFlag dest =>
      if String.eqb dest "save_model" then inr (<[dest:=VBool true]> ns)
      else inl SystemExit
  end.

Fixpoint parse_items (ns : dict) (argv : list cli_item) : exn + dict :=
  match argv with
  | [] => inr ns
  | it :: argv' =>
      match parse_item ns it with
      | inr ns' => parse_items ns' argv'
      | inl e => inl e
      end
  end.

Definition parse_args (argv : list cli_item) : exn + dict :=
  parse_items defaults argv.

(** *** [main] (lines 80-244) *)

(** The local variables of [main] that live across loop iterations. *)
Record Locals : Type := mkLocals {
  res_file : string;
  env : nat;                 (* handle of the training environment *)
  max_action : F;
  action_dim : Z;
  state : Obs;
  episode_reward : F;
  episode_timesteps : Z;
  episode_num : Z;
  grad_steps : Z;
  start_time : F;
}.

(** Lines 101-114: the hyperparameter block, one [fline] per line. *)
Definition hyperpars (args : dict) : M (list (fline F)) :=
  e <~ getattr args "env" ;;
  s <~ getattr args "seed" ;;
  ef <~ getattr args "eval_freq" ;;
  st <~ getattr args "start_timesteps" ;;
  mt <~ getattr args "max_timesteps" ;;
  bs <~ getattr args "batch_size" ;;
  di <~ getattr args "discount" ;;
  ta <~ getattr args "tau" ;;
  pn <~ getattr args "policy_noise" ;;
  nc <~ getattr args "noise_clip" ;;
  pf <~ getattr args "policy_freq" ;;
  ret [Text "Hyperparameters";
       Text ("Env: " +:+ py_str e);
       Text ("Seed: " +:+ py_str s);
       Text ("Eval frequency: " +:+ py_str ef);
       Text ("Number of initial exploration steps: " +:+ py_str st);
       Text ("Max env steps: " +:+ py_str mt);
       Text ("Batch size: " +:+ py_str bs);
       Text ("Discount factor: " +:+ py_str di);
       Text ("Target network update rate: " +:+ py_str ta);
       Text ("Policy noise: " +:+ py_str pn);
       Text ("Noise clip: " +:+ py_str nc);
       Text ("Frequency of delayed policy updates: " +:+ py_str pf);
       Text ""].

Definition csv_header : fline F := Text "avg_reward,time,env_steps,grad_steps,seed".

(** [if not os.path.exists(p): os.makedirs(p)] for the attribute [name]. *)
Definition ensure_dir (args : dict) (name : string) : M unit :=
  v <~ getattr args name ;;
  p <~ lift (as_path v) ;;
  ex <~ path_exists p ;;
  if ex : bool then ret tt
  else
    v' <~ getattr args name ;;
    p' <~ lift (as_path v') ;;
    makedirs p'.

(** Lines 87-116: banner, output directories, result file. *)
Definition prepare_results (args : dict) : M string :=
  print rule ;;;
  p <~ getattr args "policy" ;;
  e <~ getattr args "env" ;;
  s <~ getattr args "seed" ;;
  print ("Policy: " +:+ py_str p +:+ ", Env: " +:+ py_str e +:+ ", Seed: "
         +:+ py_str s) ;;;
  print rule ;;;
  ensure_dir args "dest_res_path" ;;;
  sm <~ getattr args "save_model" ;;
  (if truthy sm then ensure_dir args "dest_model_path" else ret tt) ;;;
  rp <~ getattr args "dest_res_path" ;;
  fn <~ getattr args "file_name" ;;
  let res_file := py_str rp +:+ "/" +:+ py_str fn +:+ ".csv" in
  ex <~ path_exists res_file ;;
  (if ex : bool then ret tt
   else
     open_x res_file ;;;
     hp <~ hyperpars args ;;
     write_lines res_file hp ;;;
     write_lines res_file [csv_header]) ;;;
  ret res_file.

Definition set_seeds_m (seed : value) (id : nat) : M unit :=
  e <~ the_env id ;;
  λ w, let '(e', r) := set_seeds seed e (rng w) in
       (log (ESetSeeds seed id) (set_rng r (set_envs (λ l, <[id:=e']> l) w)), inr tt).

(** Lines 132-138 *)
Definition base_kwargs (state_dim action_dim : Z) (max_action : F)
    (discount tau : value) : dict :=
  <["tau":=tau]> (<["discount":=discount]> (<["max_action":=VFloat max_action]>
    (<["action_dim":=VInt action_dim]> (<["state_dim":=VInt state_dim]> ∅)))).

Definition construct (k : policy_kind) (kwargs : dict) : M unit :=
  λ w, (log (EPolicyNew k kwargs) (set_policy (Some (policy_new k kwargs)) w), inr tt).

(** Lines 141-150: the [if]/[elif] chain has no [else]. *)
Definition init_policy (args : dict) (kwargs : dict) (max_action : F) : M unit :=
  p <~ getattr args "policy" ;;
  if py_eq_str p "TD3" then
    pn <~ getattr args "policy_noise" ;;
    pn' <~ lift (py_mul_float pn max_action) ;;
    let kwargs := <["policy_noise":=pn']> kwargs in
    nc <~ getattr args "noise_clip" ;;
    nc' <~ lift (py_mul_float nc max_action) ;;
    let kwargs := <["noise_clip":=nc']> kwargs in
    pf <~ getattr args "policy_freq" ;;
    let kwargs := <["policy_freq":=pf]> kwargs in
    construct TD3 kwargs
  else
    p <~ getattr args "policy" ;;
    if py_eq_str p "OurDDPG" then construct OurDDPG kwargs
    else
      p <~ getattr args "policy" ;;
      if py_eq_str p "DDPG" then construct DDPG kwargs
      else ret tt.

(** Lines 152-154 *)
Definition maybe_load (args : dict) : M unit :=
  lm <~ getattr args "load_model" ;;
  if negb (py_eq_str lm "") then
    lm' <~ getattr args "load_model" ;;
    policy_file <~ (if py_eq_str lm' "default" then getattr args "file_name"
                    else getattr args "load_model") ;;
    policy_load_m ("./models/" +:+ py_str policy_file)
  else ret tt.

Definition buffer_new_m (state_dim action_dim : Z) : M unit :=
  λ w, (log (EBufferNew state_dim action_dim)
          (set_replay_buffer (Some (buffer_new state_dim action_dim)) w), inr tt).

(** [policy.save(f"{args.dest_model_path}/{args.file_name}")] *)
Definition save_checkpoint (args : dict) : M unit :=
  _ <~ the_policy ;;
  mp <~ getattr args "dest_model_path" ;;
  fn <~ getattr args "file_name" ;;
  policy_save_m (py_str mp +:+ "/" +:+ py_str fn).

(** [eval_policy(policy, args.env, args.seed)] *)
Definition run_eval (fuel : nat) (args : dict) : M F :=
  _ <~ the_policy ;;
  e <~ getattr args "env" ;;
  s <~ getattr args "seed" ;;
  eval_policy fuel e s default_eval_episodes.

(** Lines 119-126 *)
Definition make_env (args : dict) : M nat :=
  name <~ getattr args "env" ;;
  env <~ gym_make_m name ;;
  seed <~ getattr args "seed" ;;
  set_seeds_m seed env ;;;
  ret env.

(** Lines 128-150: dimensions, keyword arguments, policy object. *)
Definition build_policy (args : dict) (env : nat) : M (Z * Z * F) :=
  e <~ the_env env ;;
  let state_dim := obs_dim e in
  let action_dim := act_dim e in
  let max_action := act_high0 e in
  discount <~ getattr args "discount" ;;
  tau <~ getattr args "tau" ;;
  let kwargs := base_kwargs state_dim action_dim max_action discount tau in
  init_policy args kwargs max_action ;;;
  ret (state_dim, action_dim, max_action).

(** Lines 119-168: everything between the result file and the loop. *)
Definition setup (fuel : nat) (args : dict) (res_file : string) : M Locals :=
  env <~ make_env args ;;
  dims <~ build_policy args env ;;
  let '(state_dim, action_dim, max_action) := dims in
  maybe_load args ;;;
  buffer_new_m state_dim action_dim ;;;
  avg_reward <~ run_eval fuel args ;;
  seed <~ getattr args "seed" ;;
  write_eval_to_csv res_file (VFloat avg_reward) (VInt 0) (VInt 0) (VInt 0) seed ;;;
  state <~ env_reset_m env ;;
  start_time <~ perf_counter ;;
  ret (mkLocals res_file env max_action action_dim state (float_of_Z 0) 0 0 0
         start_time).

(** Lines 173-180 *)
Definition choose_action (args : dict) (ls : Locals) (t : Z) : M (list F) :=
  st <~ getattr args "start_timesteps" ;;
  warm_up <~ lift (py_int_lt t st) ;;
  if warm_up : bool then action_sample_m (env ls)
  else
    a <~ select_action_m (state ls) ;;
    en <~ getattr args "expl_noise" ;;
    scale <~ lift (py_float_mul (max_action ls) en) ;;
    noise <~ np_random_normal_m scale (action_dim ls) ;;
    noisy <~ lift (np_add a noise) ;;
    ret (np_clip (fneg (max_action ls)) (max_action ls) noisy).

(** Line 184 *)
Definition done_bool (episode_timesteps cap : Z) (done : bool) : F :=
  if episode_timesteps <? cap then float_of_bool done else float_of_Z 0.

(** Lines 183-190: perform the action, store the transition. *)
Definition step_and_store (ls : Locals) (action : list F) : M (Locals * bool) :=
  let episode_timesteps := episode_timesteps ls + 1 in
  r <~ env_step_m (env ls) action ;;
  let '(next_state, reward, done) := r in
  e <~ the_env (env ls) ;;
  let db := done_bool episode_timesteps (max_episode_steps e) done in
  buffer_add_m (mkTransition (state ls) action next_state reward db) ;;;
  ret (mkLocals (res_file ls) (env ls) (max_action ls) (action_dim ls) next_state
         (fadd (episode_reward ls) reward) episode_timesteps (episode_num ls)
         (grad_steps ls) (start_time ls), done).

(** Lines 171-190: act, observe, store. *)
Definition interact (args : dict) (t : Z) (ls : Locals) : M (Locals * bool) :=
  action <~ choose_action args ls t ;;
  step_and_store ls action.

(** Lines 193-195 *)
Definition train_phase (args : dict) (t : Z) (ls : Locals) : M Locals :=
  st <~ getattr args "start_timesteps" ;;
  c <~ lift (py_int_ge t st) ;;
  if c : bool then
    policy_train_m args ;;;
    ret (mkLocals (res_file ls) (env ls) (max_action ls) (action_dim ls) (state ls)
           (episode_reward ls) (episode_timesteps ls) (episode_num ls)
           (grad_steps ls + 1) (start_time ls))
  else ret ls.

(** Lines 197-206 *)
Definition episode_end (t : Z) (ls : Locals) : M Locals :=
  print ("Total T: " +:+ pretty (t + 1) +:+ " Episode Num: "
         +:+ pretty (episode_num ls + 1) +:+ " Episode T: "
         +:+ pretty (episode_timesteps ls) +:+ " Reward: "
         +:+ float_fmt3 (episode_reward ls)) ;;;
  state <~ env_reset_m (env ls) ;;
  ret (mkLocals (res_file ls) (env ls) (max_action ls) (action_dim ls) state
         (float_of_Z 0) 0 (episode_num ls + 1) (grad_steps ls) (start_time ls)).

(** Lines 209-228 *)
Definition eval_phase (fuel : nat) (args : dict) (t : Z) (ls : Locals) : M Locals :=
  ef <~ getattr args "eval_freq" ;;
  c <~ lift (py_int_mod_is_zero (t + 1) ef) ;;
  if c : bool then
    now <~ perf_counter ;;
    let elapsed_time := fsub now (start_time ls) in
    start_time_eval <~ perf_counter ;;
    avg_reward <~ run_eval fuel args ;;
    seed <~ getattr args "seed" ;;
    write_eval_to_csv (res_file ls) (VFloat avg_reward) (VFloat elapsed_time)
      (VInt (t + 1)) (VInt (grad_steps ls)) seed ;;;
    sm <~ getattr args "save_model" ;;
    (if truthy sm then save_checkpoint args else ret tt) ;;;
    now' <~ perf_counter ;;
    ret (mkLocals (res_file ls) (env ls) (max_action ls) (action_dim ls) (state ls)
           (episode_reward ls) (episode_timesteps ls) (episode_num ls)
           (grad_steps ls) (fadd (start_time ls) (fsub now' start_time_eval)))
  else ret ls.

(** One iteration of [for t in range(int(args.max_timesteps))]. *)
Definition loop_body (fuel : nat) (args : dict) (t : Z) (ls : Locals) : M Locals :=
  r <~ interact args t ls ;;
  let '(ls, done) := r in
  ls <~ train_phase args t ls ;;
  ls <~ (if done : bool then episode_end t ls else ret ls) ;;
  eval_phase fuel args t ls.

Fixpoint for_loop (body : Z → Locals → M Locals) (ts : list Z) (ls : Locals)
    : M Locals :=
  match ts with
  | [] => ret ls
  | t :: ts' => ls' <~ body t ls ;; for_loop body ts' ls'
  end.

Definition training_loop (fuel : nat) (args : dict) (ls : Locals) : M Locals :=
  mt <~ getattr args "max_timesteps" ;;
  n <~ lift (py_to_int mt) ;;
  for_loop (loop_body fuel args) (py_range n) ls.

Definition final_checkpoint (args : dict) : M unit :=
  sm <~ getattr args "save_model" ;;
  if truthy sm then save_checkpoint args else ret tt.

(** On entry no local variable of [main] is bound. *)
Definition enter_main : M unit :=
  λ w, (set_replay_buffer None (set_policy None w), inr tt).

Definition main (fuel : nat) (dargs : dict) : M unit :=
  enter_main ;;;
  let args := dargs in
  res_file <~ prepare_results args ;;
  ls <~ setup fuel args res_file ;;
  _ <~ training_loop fuel args ls ;;
  final_checkpoint args.

(** *** Rollouts: what an evaluation is expected to do

    A step is what [env.step] returned: observation, reward, done flag.  An
    episode is the observation [reset] returned and the steps taken. *)

(** [steps] is a complete episode of policy [p] from environment state [e]
    and observation [o]: every action is [select_action p] of the current
    observation, only the last step returns [done], and the environment is
    left in [e_end]. *)
Fixpoint is_episode (p : PolSt) (e : EnvSt) (o : Obs) (steps : list (Obs * F * bool))
    (e_end : EnvSt) : Prop :=
  match steps with
  | [] => False
  | (o', r, d) :: rest =>
      (env_step e (select_action p o)).1 = (o', r, d) ∧
      let e' := (env_step e (select_action p o)).2 in
      if d then rest = [] ∧ e_end = e' else is_episode p e' o' rest e_end
  end.

Fixpoint are_episodes (p : PolSt) (e : EnvSt) (eps : list (Obs * list (Obs * F * bool)))
    (e_end : EnvSt) : Prop :=
  match eps with
  | [] => e_end = e
  | (o, steps) :: rest =>
      (env_reset e).1 = o ∧
      ∃ e', is_episode p (env_reset e).2 o steps e' ∧ are_episodes p e' rest e_end
  end.

Fixpoint episode_events (p : PolSt) (id : nat) (o : Obs) (steps : list (Obs * F * bool))
    : list event :=
  match steps with
  | [] => []
  | (o', r, d) :: rest =>
      ESelectAction o (select_action p o) :: EStep id (select_action p o) o' r d
      :: episode_events p id o' rest
  end.

Fixpoint episodes_events (p : PolSt) (id : nat) (eps : list (Obs * list (Obs * F * bool)))
    : list event :=
  match eps with
  | [] => []
  | (o, steps) :: rest =>
      EReset id o :: episode_events p id o steps ++ episodes_events p id rest
  end.

Definition rewards (steps : list (Obs * F * bool)) : list F := map (λ s, s.1.2) steps.

(** The rewards of all episodes, in the order they were received. *)
Definition all_rewards (eps : list (Obs * list (Obs * F * bool))) : list F :=
  concat (map (λ ep, rewards ep.2) eps).

(** The sum of the rewards of one episode. *)
Definition episode_return (steps : list (Obs * F * bool)) : F :=
  fold_left fadd (rewards steps) (float_of_Z 0).

(** The mean over the episodes of the per-episode reward sums. *)
Definition mean_return (eps : list (Obs * list (Obs * F * bool))) (n : Z) : F :=
  fdiv (fold_left fadd (map (λ ep, episode_return ep.2) eps) (float_of_Z 0))
       (float_of_Z n).

Definition eval_prints (n : Z) (avg : F) : list event :=
  [EPrint rule;
   EPrint ("Evaluation over " +:+ pretty n +:+ " episodes: " +:+ float_fmt3 avg);
   EPrint rule].

(** Under every policy and from every state of the environment, the episode
    that follows a reset ends within [fuel] steps. *)
Definition episodes_end (fuel : nat) : Prop :=
  ∀ (p : PolSt) (e : EnvSt), ∃ steps e_end,
    is_episode p (env_reset e).2 (env_reset e).1 steps e_end ∧
    (length steps ≤ fuel)%nat.

(** The events of one call of [eval_policy] on the fresh handle [id]. *)
Definition eval_events (name s : value) (id : nat) (p : PolSt)
    (eps : list (Obs * list (Obs * F * bool))) (n : Z) (avg : F) : list event :=
  EGymMake name id :: EEnvSeed id s :: episodes_events p id eps ++ eval_prints n avg.

(** *** Startup: what may happen before the policy object exists *)
Definition startup_event (e : event) : Prop :=
  match e with
  | EPrint _ | EGymMake _ _ | ESetSeeds _ _ | EBufferNew _ _ => True
  | _ => False
  end.

(** From [w] to [w'] the policy stayed unbound and only startup events
    were added. *)
Definition quiet (w w' : World) : Prop :=
  policy w' = None ∧ ∃ evs, trace w' = trace w ++ evs ∧ Forall startup_event evs.

Definition stays_unbound {A} (m : M A) : Prop :=
  ∀ w w' r, policy w = None → m w = (w', r) → quiet w w'.

Definition aborts {A} (m : M A) : Prop :=
  ∀ w w' r, policy w = None → m w = (w', r) → (∃ e, r = inl e) ∧ quiet w w'.

(** *** What [parse_args] guarantees about its result *)
Definition parsed (d : dict) : Prop :=
  d !! "file_name" = None ∧
  is_Some (d !! "policy") ∧ is_Some (d !! "env") ∧ is_Some (d !! "seed") ∧
  (∃ s, d !! "dest_res_path" = Some (VStr s)) ∧
  (∃ b, d !! "save_model" = Some (VBool b)) ∧
  (∃ s, d !! "dest_model_path" = Some (VStr s)).

(** *** A typed view of the argument dictionary *)
Record Config : Type := mkConfig {
  cfg_policy : string;
  cfg_env : value;
  cfg_seed : value;
  cfg_start_timesteps : Z;
  cfg_eval_freq : Z;
  cfg_max_timesteps : Z;
  cfg_expl_noise : value;
  cfg_batch_size : value;
  cfg_discount : value;
  cfg_tau : value;
  cfg_policy_noise : value;
  cfg_noise_clip : value;
  cfg_policy_freq : value;
  cfg_save_model : value;
  cfg_load_model : value;
  cfg_dest_model_path : string;
  cfg_dest_res_path : string;
  cfg_file_name : value;
}.

(** The dictionary [d] holds the values of [c] under the attribute names
    [main] reads.  It may hold more. *)
Record reads (d : dict) (c : Config) : Prop := {
  rd_policy : d !! "policy" = Some (VStr (cfg_policy c));
  rd_env : d !! "env" = Some (cfg_env c);
  rd_seed : d !! "seed" = Some (cfg_seed c);
  rd_start_timesteps : d !! "start_timesteps" = Some (VInt (cfg_start_timesteps c));
  rd_eval_freq : d !! "eval_freq" = Some (VInt (cfg_eval_freq c));
  rd_max_timesteps : d !! "max_timesteps" = Some (VInt (cfg_max_timesteps c));
  rd_expl_noise : d !! "expl_noise" = Some (cfg_expl_noise c);
  rd_batch_size : d !! "batch_size" = Some (cfg_batch_size c);
  rd_discount : d !! "discount" = Some (cfg_discount c);
  rd_tau : d !! "tau" = Some (cfg_tau c);
  rd_policy_noise : d !! "policy_noise" = Some (cfg_policy_noise c);
  rd_noise_clip : d !! "noise_clip" = Some (cfg_noise_clip c);
  rd_policy_freq : d !! "policy_freq" = Some (cfg_policy_freq c);
  rd_save_model : d !! "save_model" = Some (cfg_save_model c);
  rd_load_model : d !! "load_model" = Some (cfg_load_model c);
  rd_dest_model_path : d !! "dest_model_path" = Some (VStr (cfg_dest_model_path c));
  rd_dest_res_path : d !! "dest_res_path" = Some (VStr (cfg_dest_res_path c));
  rd_file_name : d !! "file_name" = Some (cfg_file_name c);
}.

(** Line 96 *)
Definition res_path (c : Config) : string :=
  cfg_dest_res_path c +:+ "/" +:+ py_str (cfg_file_name c) +:+ ".csv".

Definition numeric (v : value) : Prop := ∃ x, py_as_float "*" v = inr x.

(** The one path checkpoints are saved to (lines 225 and 244). *)
Definition save_path (c : Config) : string :=
  cfg_dest_model_path c +:+ "/" +:+ py_str (cfg_file_name c).

(** The one path a checkpoint is loaded from (lines 153-154). *)
Definition load_path (c : Config) : string :=
  "./models/" +:+
  py_str (if py_eq_str (cfg_load_model c) "default" then cfg_file_name c
          else cfg_load_model c).

(** *** The output on the disk (lines 91-116) *)

(** One call on the disk after another: the second is made if the first
    did not raise. *)
Definition then_fs (r : FsSt * option exn) (f : FsSt → FsSt * option exn)
    : FsSt * option exn :=
  match r.2 with
  | None => f r.1
  | Some _ => r
  end.

(** [if not os.path.exists(p): os.makedirs(p)] *)
Definition made (p : string) (st : FsSt) : FsSt * option exn :=
  if fs_exists st p then (st, None) else fs_makedirs st p.

(** Lines 91-94: the result directory, then the model directory if
    checkpoints are to be saved. *)
Definition output_dirs (res_dir : string) (save : bool) (model_dir : string)
    (st : FsSt) : FsSt * option exn :=
  then_fs (made res_dir st) (λ st1, if save then made model_dir st1 else (st1, None)).

(** The hyperparameter block (lines 101-114). *)
Definition hyper_block (c : Config) : list (fline F) :=
  [Text "Hyperparameters";
   Text ("Env: " +:+ py_str (cfg_env c));
   Text ("Seed: " +:+ py_str (cfg_seed c));
   Text ("Eval frequency: " +:+ py_str (VInt (cfg_eval_freq c)));
   Text ("Number of initial exploration steps: "
         +:+ py_str (VInt (cfg_start_timesteps c)));
   Text ("Max env steps: " +:+ py_str (VInt (cfg_max_timesteps c)));
   Text ("Batch size: " +:+ py_str (cfg_batch_size c));
   Text ("Discount factor: " +:+ py_str (cfg_discount c));
   Text ("Target network update rate: " +:+ py_str (cfg_tau c));
   Text ("Policy noise: " +:+ py_str (cfg_policy_noise c));
   Text ("Noise clip: " +:+ py_str (cfg_noise_clip c));
   Text ("Frequency of delayed policy updates: " +:+ py_str (cfg_policy_freq c));
   Text ""].

(** The two writes of lines 115-116 together. *)
Definition header_block (c : Config) : list (fline F) := hyper_block c ++ [csv_header].

(** Lines 97-116: the result file is created and given its header block
    unless something exists at its path. *)
Definition result_file (c : Config) (st : FsSt) : FsSt * option exn :=
  if fs_exists st (res_path c) then (st, None)
  else
    then_fs (fs_create st (res_path c)) (λ st1,
      then_fs (fs_write st1 (res_path c) (hyper_block c)) (λ st2,
        fs_write st2 (res_path c) [csv_header])).

(** Lines 91-116 on the disk: the state they leave, and the exception if
    one of the calls raised. *)
Definition prepare_fs (c : Config) (st : FsSt) : FsSt * option exn :=
  then_fs (output_dirs (cfg_dest_res_path c) (truthy (cfg_save_model c))
             (cfg_dest_model_path c) st)
          (result_file c).

(** What the result file holds when the first row is appended: its
    content after lines 91-116. *)
Definition base_content (c : Config) (w : World) : list (fline F) :=
  default [] (fs_read (prepare_fs c (fs w)).1 (res_path c)).

(** A disk on which a text file that can be read exists, and on which
    making directories changes no text file. *)
Record keeps_files : Prop := {
  kf_exists : ∀ st p old, fs_read st p = Some old → fs_exists st p = true;
  kf_makedirs : ∀ st p q, fs_read (fs_makedirs st p).1 q = fs_read st q;
}.

(** *** The policy object (lines 132-154) *)

(** The keyword arguments of the TD3 constructor (lines 143-145). *)
Definition td3_kwargs (base : dict) (policy_noise noise_clip : F) (policy_freq : value)
    (max_action : F) : dict :=
  <["policy_freq":=policy_freq]>
    (<["noise_clip":=VFloat (fmul noise_clip max_action)]>
       (<["policy_noise":=VFloat (fmul policy_noise max_action)]> base)).

(** The class and the keyword arguments of the policy object for the
    environment [e] (lines 128-150), if the selector names a class and,
    for TD3, the two noise levels are numbers. *)
Definition policy_spec (c : Config) (e : EnvSt) : option (policy_kind * dict) :=
  let ma := act_high0 e in
  let base := base_kwargs (obs_dim e) (act_dim e) ma (cfg_discount c) (cfg_tau c) in
  if String.eqb (cfg_policy c) "TD3" then
    match py_as_float "*" (cfg_policy_noise c), py_as_float "*" (cfg_noise_clip c) with
    | inr x, inr y => Some (TD3, td3_kwargs base x y (cfg_policy_freq c) ma)
    | _, _ => None
    end
  else if String.eqb (cfg_policy c) "OurDDPG" then Some (OurDDPG, base)
  else if String.eqb (cfg_policy c) "DDPG" then Some (DDPG, base)
  else None.

(** Lines 152-154 on the policy object [p]: the checkpoint is loaded if
    [load_model] is not empty. *)
Definition start_policy (c : Config) (st : FsSt) (p : PolSt) : exn + PolSt :=
  if py_eq_str (cfg_load_model c) "" then inr p else policy_load st p (load_path c).

(** *** What a run needs in order to reach its end *)

(** What the loop relies on, as an invariant [Sound] of the policy object
    and an invariant [G] of the disk.  Training keeps the policy sound; a
    sound policy selects actions to which noise of the size of the action
    space of the training environment [e] can be added; on a good disk the
    result file can be read, a row can be appended to it, which adds the
    row to its content, and, if checkpoints are saved, a sound policy can
    be saved, which leaves the result file as it is; the disk stays
    good. *)
Record supports (c : Config) (e : EnvSt) (Sound : PolSt → Prop) (G : FsSt → Prop)
    : Prop := {
  sup_train : ∀ p b g, Sound p → Sound (policy_train p b (cfg_batch_size c) g).1;
  sup_shape : ∀ p o g scale, Sound p →
    ∃ v, np_add (select_action p o) (np_random_normal g scale (act_dim e)).1 = inr v;
  sup_read : ∀ st, G st → is_Some (fs_read st (res_path c));
  sup_append : ∀ st ls, G st →
    (fs_append st (res_path c) ls).2 = None ∧
    G (fs_append st (res_path c) ls).1 ∧
    ∀ old, fs_read st (res_path c) = Some old →
           fs_read (fs_append st (res_path c) ls).1 (res_path c) = Some (old ++ ls);
  sup_save : truthy (cfg_save_model c) = true → ∀ st p, G st → Sound p →
    (policy_save st p (save_path c)).2 = None ∧
    G (policy_save st p (save_path c)).1 ∧
    fs_read (policy_save st p (save_path c)).1 (res_path c) = fs_read st (res_path c);
}.

(** What the run needs from its collaborators and its configuration in
    order to act, train and evaluate: an environment that can be made and
    whose episodes end within [fuel] steps, numbers where arithmetic is
    done, lines 91-116 going through on the disk, and then, for the
    training environment as seeded at line 126 and the disk as lines 91-116
    leave it: a policy class that is known and whose object, after the
    checkpoint is loaded if one is asked for, is sound, on a good disk, for
    invariants that support the loop. *)
Record equipped (fuel : nat) (c : Config) (w : World) : Prop := {
  eqp_env : is_Some (gym_make (cfg_env c));
  eqp_seed : ∃ s, py_add_int (cfg_seed c) 100 = inr s;
  eqp_expl_noise : numeric (cfg_expl_noise c);
  eqp_episodes : episodes_end fuel;
  eqp_output : (prepare_fs c (fs w)).2 = None;
  eqp_run : ∀ e0, gym_make (cfg_env c) = Some e0 →
    let e := (set_seeds (cfg_seed c) e0 (rng w)).1 in
    let st := (prepare_fs c (fs w)).1 in
    ∃ Sound G k kwargs p,
      supports c e Sound G ∧ G st ∧
      policy_spec c e = Some (k, kwargs) ∧
      start_policy c st (policy_new k kwargs) = inr p ∧ Sound p;
}.

(** What the run needs in order to reach its end: it is equipped, and the
    evaluation period is not zero. *)
Record ready (fuel : nat) (c : Config) (w : World) : Prop := {
  rdy_equipped : equipped fuel c w;
  rdy_eval_freq : cfg_eval_freq c ≠ 0;
}.

(** *** The schedule of the loop *)

(** Step [t] ends with an evaluation. *)
Definition is_tick (eval_freq t : Z) : bool := (t + 1) mod eval_freq =? 0.

(** The evaluation steps among the first [k] steps, in order. *)
Definition ticks (eval_freq : Z) (k : nat) : list Z :=
  List.filter (is_tick eval_freq) (py_range (Z.of_nat k)).

(** The number of steps [t < k] with [t >= start_timesteps]. *)
Definition trained (start_timesteps : Z) (k : Z) : Z :=
  Z.max 0 (k - Z.max 0 start_timesteps).

Definition is_train (e : event) : bool :=
  match e with ETrain _ => true | _ => false end.

Definition train_calls (evs : list event) : Z :=
  Z.of_nat (length (List.filter is_train evs)).

(** [start_time] when the [j]-th evaluation of the loop begins, if the
    reading taken at line 168 was reading number [c0]: every evaluation
    takes three readings. *)
Fixpoint origin (c0 : nat) (j : nat) : F :=
  match j with
  | O => perf_clock c0
  | S j' => fadd (origin c0 j')
              (fsub (perf_clock (c0 + 3 * j' + 3)) (perf_clock (c0 + 3 * j' + 2)))
  end.

(** The row of the [j]-th evaluation of the loop, which ends step [t]. *)
Definition tick_row (c : Config) (c0 : nat) (j : nat) (t : Z) (avg : F) : fline F :=
  Row [VFloat avg;
       VFloat (fsub (perf_clock (c0 + 3 * j + 1)) (origin c0 j));
       VInt (t + 1);
       VInt (trained (cfg_start_timesteps c) (t + 1));
       cfg_seed c].

Fixpoint tick_rows (c : Config) (c0 : nat) (j : nat) (ts : list Z) (avgs : list F)
    : list (fline F) :=
  match ts, avgs with
  | t :: ts', avg :: avgs' => tick_row c c0 j t avg :: tick_rows c c0 (S j) ts' avgs'
  | _, _ => []
  end.

(** The row of the untrained policy (line 160). *)
Definition initial_row (c : Config) (avg : F) : fline F :=
  Row [VFloat avg; VInt 0; VInt 0; VInt 0; cfg_seed c].

(** [main] cut after [k] iterations of its loop. *)
Definition run_prefix (fuel : nat) (args : dict) (k : nat) : M Locals :=
  enter_main ;;;
  res_file <~ prepare_results args ;;
  ls <~ setup fuel args res_file ;;
  for_loop (loop_body fuel args) (py_range (Z.of_nat k)) ls.

(** *** What holds between the phases of the loop *)

(** The objects the loop works on exist: the policy is sound, the disk is
    good, for invariants that support the loop, and [action_dim] is the
    size of the action space of the training environment [e] as it was at
    line 130. *)
Record Inv (c : Config) (Sound : PolSt → Prop) (G : FsSt → Prop) (e : EnvSt)
    (ls : Locals) (w : World) : Prop := {
  inv_supports : supports c e Sound G;
  inv_res_file : res_file ls = res_path c;
  inv_policy : ∃ p, policy w = Some p ∧ Sound p;
  inv_buffer : is_Some (replay_buffer w);
  inv_env : is_Some (envs w !! env ls);
  inv_dim : action_dim ls = act_dim e;
  inv_disk : G (fs w);
}.

(** A phase that leaves counters, timer, clock, disk and policy alone and
    makes no train call. *)
Definition unchanged (ls : Locals) (w : World) (ls' : Locals) (w' : World) : Prop :=
  grad_steps ls' = grad_steps ls ∧
  start_time ls' = start_time ls ∧
  clk w' = clk w ∧
  fs w' = fs w ∧
  policy w' = policy w ∧
  ∃ evs, trace w' = trace w ++ evs ∧ train_calls evs = 0.

Definition banner (c : Config) : list event :=
  [EPrint rule;
   EPrint ("Policy: " +:+ cfg_policy c +:+ ", Env: " +:+ py_str (cfg_env c)
           +:+ ", Seed: " +:+ py_str (cfg_seed c));
   EPrint rule].

(** The events of the evaluation that ends a step: two readings of the
    clock, the evaluation, the checkpoint if any, a third reading. *)
Definition tick_events (clk : nat) (evaluation checkpoint : list event) : list event :=
  [EPerfCounter (perf_clock clk); EPerfCounter (perf_clock (S clk))]
  ++ evaluation ++ checkpoint ++ [EPerfCounter (perf_clock (S (S clk)))].

(** [avg] is what [eval_policy(policy, args.env, args.seed)] returns for
    the policy object [p], in whatever world it is called. *)
Definition score (fuel : nat) (c : Config) (p : PolSt) (avg : F) : Prop :=
  ∀ w : World,
    policy w = Some p →
    (eval_policy fuel (cfg_env c) (cfg_seed c) default_eval_episodes w).2 = inr avg.

(** [avg] is the score of the policy object as it is after [k] iterations
    of the loop of the run from [w0]. *)
Definition scored (fuel : nat) (d : dict) (c : Config) (w0 : World) (k : nat) (avg : F)
    : Prop :=
  ∃ p, policy (run_prefix fuel d k w0).1 = Some p ∧ score fuel c p avg.

(** What holds after [k] iterations of the loop of the run from [w0], in
    which the untrained policy scored [avg0]: the run has come to world [w]
    with locals [ls]; the counter of gradient steps, the clock and the
    timer are where the schedule puts them; the result file holds what it
    held when the first row was appended, the row of the untrained policy
    and a row for every evaluation so far, each with the score the policy
    had at that step; there was one train call per trained step. *)
Record Progress (fuel : nat) (d : dict) (c : Config) (Sound : PolSt → Prop)
    (G : FsSt → Prop) (e : EnvSt) (w0 : World) (avg0 : F) (k : nat) (ls : Locals)
    (w : World) : Prop := {
  pg_run : run_prefix fuel d k w0 = (w, inr ls);
  pg_inv : Inv c Sound G e ls w;
  pg_grad : grad_steps ls = trained (cfg_start_timesteps c) (Z.of_nat k);
  pg_clk : clk w = (clk w0 + 1 + 3 * length (ticks (cfg_eval_freq c) k))%nat;
  pg_start : start_time ls = origin (clk w0) (length (ticks (cfg_eval_freq c) k));
  pg_first : scored fuel d c w0 0 avg0;
  pg_file : ∃ avgs,
    length avgs = length (ticks (cfg_eval_freq c) k) ∧
    fs_read (fs w) (res_path c) =
      Some (base_content c w0 ++ initial_row c avg0
              :: tick_rows c (clk w0) 0 (ticks (cfg_eval_freq c) k) avgs) ∧
    ∀ j t avg, ticks (cfg_eval_freq c) k !! j = Some t → avgs !! j = Some avg →
               scored fuel d c w0 (S (Z.to_nat t)) avg;
  pg_trace : ∃ evs,
    trace w = trace w0 ++ evs ∧
    train_calls evs = trained (cfg_start_timesteps c) (Z.of_nat k);
}.

(** Between [w] and [w'], where the log grew by [seg], the policy was
    trained once, on the replay buffer as it was after the one transition
    of the step was added: the train call follows the [add], is the only
    one, and policy object and random generator are what it returned. *)
Definition trained_once (c : Config) (w w' : World) (seg : list event) : Prop :=
  ∃ p b tr g pre post,
    policy w = Some p ∧ replay_buffer w = Some b ∧
    seg = pre ++ EBufferAdd tr :: ETrain (cfg_batch_size c) :: post ∧
    train_calls pre = 0 ∧ train_calls post = 0 ∧
    replay_buffer w' = Some (buffer_add b tr) ∧
    policy w' = Some (policy_train p (buffer_add b tr) (cfg_batch_size c) g).1 ∧
    rng w' = (policy_train p (buffer_add b tr) (cfg_batch_size c) g).2.

(** The checkpoint events of one evaluation (lines 224-225). *)
Definition checkpoint_events (c : Config) : list event :=
  if truthy (cfg_save_model c)
  then [EPolicySave (cfg_dest_model_path c +:+ "/" +:+ py_str (cfg_file_name c))]
  else [].


(** *** The command line [parse_args] accepts *)

(** The options [parse_args] declares (lines 49-76). *)
Definition all_options : list string := int_options ++ text_options ++ ["save_model"].

(** An item the parser accepts: a declared option with a text its type
    converts, or the one declared flag. *)
Definition valid_item (it : cli_item) : Prop :=
  match it with
  | CliOpt dest raw =>
      (dest ∈ int_options ∧ is_Some (py_int raw)) ∨ dest ∈ text_options
  | CliFlag dest => dest = "save_model"
  end.

Definition item_name (it : cli_item) : string :=
  match it with CliOpt dest _ => dest | CliFlag dest => dest end.

(** *** Evaluations that cannot tell two worlds apart *)

(** Two worlds look the same to an evaluation on handles [i1] and [i2]. *)
Definition alike (i1 i2 : nat) (w1 w2 : World) : Prop :=
  policy w1 = policy w2 ∧ envs w1 !! i1 = envs w2 !! i2.

(** Two computations give the same result on worlds that look the same,
    and leave them looking the same. *)
Definition sim (i1 i2 : nat) {A} (m1 m2 : M A) : Prop :=
  ∀ w1 w2, alike i1 i2 w1 w2 →
    (m1 w1).2 = (m2 w2).2 ∧ alike i1 i2 (m1 w1).1 (m2 w2).1.

(** *** What a run never does: checkpoints, replay buffer *)

(** The replay buffer the calls of a log leave, starting from [b]. *)
Definition replay_event (b : option Buf) (e : event) : option Buf :=
  match e with
  | EBufferNew sd ad => Some (buffer_new sd ad)
  | EBufferAdd tr => option_map (λ x, buffer_add x tr) b
  | _ => b
  end.

Definition replay (evs : list event) (b : option Buf) : option Buf :=
  fold_left replay_event evs b.

(** Checkpoint calls are allowed on the paths [S] (save) and [L] (load). *)
Definition allowed (S L : string → Prop) (e : event) : Prop :=
  match e with
  | EPolicySave p => S p
  | EPolicyLoad p => L p
  | _ => True
  end.

(** From [w] to [w'] the checkpoint calls were allowed and the replay
    buffer followed the log. *)
Definition extends (S L : string → Prop) (w w' : World) : Prop :=
  ∃ evs,
    trace w' = trace w ++ evs ∧ Forall (allowed S L) evs ∧
    replay_buffer w' = replay evs (replay_buffer w).

(** Whatever its outcome, [m] extends the world, and a result meets [Q]. *)
Definition safe (S L : string → Prop) {A} (Q : A → Prop) (m : M A) : Prop :=
  ∀ w w' r, m w = (w', r) → extends S L w w' ∧ ∀ a, r = inr a → Q a.

(** What the checkpoint paths of a run are bound by: the one written, the
    one loaded. *)
Record bounds (S L : string → Prop) (d : dict) : Prop := {
  bd_save : ∀ sm mp fn, d !! "save_model" = Some sm → truthy sm = true →
            d !! "dest_model_path" = Some mp → d !! "file_name" = Some fn →
            S (py_str mp +:+ "/" +:+ py_str fn);
  bd_load : ∀ lm pf, d !! "load_model" = Some lm → py_eq_str lm "" = false →
            d !! (if py_eq_str lm "default" then "file_name" else "load_model") = Some pf →
            L ("./models/" +:+ py_str pf);
}.

(** *** Counting calls in the log of a run that returned *)
Definition is_add (e : event) : bool :=
  match e with EBufferAdd _ => true | _ => false end.

Definition is_make (e : event) : bool :=
  match e with EGymMake _ _ => true | _ => false end.

Definition is_save (e : event) : bool :=
  match e with EPolicySave _ => true | _ => false end.

Definition calls (f : event → bool) (evs : list event) : nat :=
  length (List.filter f evs).

(** If [m] returns, its result meets [Q] and it has stored [na]
    transitions, made [nm] environments and saved [ns] checkpoints. *)
Definition tally (na nm ns : nat) {A} (Q : A → Prop) (m : M A) : Prop :=
  ∀ w w' x, m w = (w', inr x) →
    Q x ∧ ∃ evs, trace w' = trace w ++ evs ∧
      calls is_add evs = na ∧ calls is_make evs = nm ∧ calls is_save evs = ns.

(** Checkpoints saved per evaluation: one if [save_model] is set. *)
Definition saves_each (c : Config) : nat := if truthy (cfg_save_model c) then 1 else 0.

(** Evaluations among the steps [ts]. *)
Definition nticks (eval_freq : Z) (ts : list Z) : nat :=
  length (List.filter (is_tick eval_freq) ts).

End Driver.

Arguments event : clear implicits.
Arguments World : clear implicits.
Arguments Locals : clear implicits.
Arguments M : clear implicits.
Arguments Config : clear implicits.

(** ** A small concrete world

    Floats are fixed-point numbers in thousandths, the environment is a
    counter that ends an episode after three steps (which is also its step
    cap) and takes actions of two components, the policy counts its
    training steps.  The disk is a tree of directories and text files
    under a working directory; a checkpoint is one file.  It is used to
    run the driver on concrete inputs. *)
Module Toy.

#[export] Instance num : PyNum Z := {|
  float_dec m e := m * 10 ^ (e + 3);
  fadd := Z.add;
  fsub := Z.sub;
  fmul x y := x * y / 1000;
  fdiv x y := x * 1000 / y;
  fneg := Z.opp;
  fmaximum := Z.max;
  fminimum := Z.min;
  float_nonzero x := negb (x =? 0);
  int_lt_float n x := n * 1000 <? x;
  int_ge_float n x := n * 1000 >=? x;
  int_mod_float n x := if x =? 0 then None else Some ((n * 1000) mod x);
  float_to_int x := Some (Z.quot x 1000);
  float_repr x := pretty x;
  float_fmt3 x := pretty x;
  py_int s := if String.eqb s "7" then Some 7 else None;
|}.

(** Steps taken in the running episode, and the seed last given. *)
Record env_state : Type := mkEnv { in_episode : Z; seeded : Z }.

#[export] Instance gym : Gym Z Z env_state := {|
  gym_make name := match name with VStr _ => Some (mkEnv 0 0) | _ => None end;
  env_seed e s := mkEnv (in_episode e) (match s with VInt z => z | _ => 0 end);
  env_reset e := (0, mkEnv 0 (seeded e));
  env_step e a :=
    let n := in_episode e + 1 in
    ((n, 1000, 3 <=? n), mkEnv n (seeded e));
  action_sample e := ([0; 0], e);
  obs_dim _ := 1;
  act_dim _ := 2;
  act_high0 _ := 1000;
  max_episode_steps _ := 3;
|}.

#[export] Instance learner : Learner Z Z env_state Z (list (transition Z Z)) Z := {|
  policy_new _ _ := 0;
  select_action p o := [p; p];
  policy_train p _ _ r := (p + 1, r);
  buffer_new _ _ := [];
  buffer_add b tr := b ++ [tr];
  set_seeds s e r := (e, r);
  np_random_normal r scale size := (repeat 0 (Z.to_nat size), r + 1);
  perf_clock n := 10000 * Z.of_nat n;
|}.

(** An entry of the disk: a directory or a text file. *)
Inductive node : Type :=
| Dir
| File (content : list (fline Z)).

(** The entries by path.  The working directory ["."] is always there. *)
Abbreviation tree := (gmap string node).

(** What precedes the last ["/"] of a path, if it has one. *)
Fixpoint dirname (p : string) : option string :=
  match p with
  | EmptyString => None
  | String a p' =>
      match dirname p' with
      | Some d => Some (String a d)
      | None => if Ascii.eqb a "/"%char then Some EmptyString else None
      end
  end.

Definition is_dir (st : tree) (p : string) : bool :=
  if String.eqb p "." then true
  else match st !! p with Some Dir => true | _ => false end.

Definition present (st : tree) (p : string) : bool :=
  is_dir st p || bool_decide (is_Some (st !! p)).

(** Why an entry cannot be made at [p]: the path is empty, or what it
    lies in is missing or is a file. *)
Definition no_room (st : tree) (p : string) : option exn :=
  if String.eqb p "" then Some (FileNotFoundError p)
  else match dirname p with
       | None | Some EmptyString => None
       | Some d =>
           if is_dir st d then None
           else if present st d then Some (NotADirectoryError p)
           else Some (FileNotFoundError p)
       end.

(** [os.makedirs]: the missing directories above [p] are made first. *)
Fixpoint makedirs_upto (n : nat) (st : tree) (p : string) : tree * option exn :=
  if String.eqb p "" then (st, Some (FileNotFoundError p))
  else if present st p then (st, Some (FileExistsError p))
  else
    match no_room st p, n with
    | None, _ => (<[p:=Dir]> st, None)
    | Some (FileNotFoundError _), S n' =>
        match dirname p with
        | Some d =>
            match makedirs_upto n' st d with
            | (st', None) => (<[p:=Dir]> st', None)
            | (st', Some e) => (st', Some e)
            end
        | None => (st, Some (FileNotFoundError p))
        end
    | Some e, _ => (st, Some e)
    end.

Definition put_file (st : tree) (p : string) (content : list (fline Z))
    : tree * option exn :=
  match no_room st p with
  | Some e => (st, Some e)
  | None => if is_dir st p then (st, Some (IsADirectoryError p))
            else (<[p:=File content]> st, None)
  end.

#[export] Instance disk : Disk Z Z tree := {|
  fs_exists st p := present st p;
  fs_makedirs st p := makedirs_upto (String.length p) st p;
  fs_create st p :=
    if present st p then (st, Some (FileExistsError p)) else put_file st p [];
  fs_write st p ls :=
    match st !! p with
    | Some (File c) => (<[p:=File (c ++ ls)]> st, None)
    | _ => (st, Some (Unmodelled "file handle"))
    end;
  fs_append st p ls :=
    match st !! p with
    | Some (File c) => (<[p:=File (c ++ ls)]> st, None)
    | _ => put_file st p ls
    end;
  fs_read st p := match st !! p with Some (File c) => Some c | _ => None end;
  policy_save st pol p := put_file st p [Row [VInt pol]];
  policy_load st pol p :=
    match st !! p with
    | Some (File [Row [VInt pol']]) => inr pol'
    | _ => if is_dir st p then inl (IsADirectoryError p)
           else inl (FileNotFoundError p)
    end;
|}.

(** A disk on which the runs below can write: the result file
    [./results/run.csv] is a text file and, where checkpoints are saved,
    [./models] is a directory and [./models/run] is not one. *)
Definition good (save : bool) (st : tree) : bool :=
  match st !! "./results/run.csv" with Some (File _) => true | _ => false end
  && (if save then is_dir st "./models" && negb (is_dir st "./models/run") else true).

Abbreviation world := (World Z Z env_state Z (list (transition Z Z)) Z tree).
Abbreviation locals := (Locals Z Z).
Abbreviation config := (Config Z).

(** A fresh process in an empty working directory. *)
Definition world0 : world := mkWorld ∅ [] None None 0 0%nat [].

(** The same, with a result file left by an earlier run. *)
Definition world_again : world :=
  mkWorld {[ "./results" := Dir;
             "./results/run.csv" := File [Text "earlier results"] ]} [] None None 0
    0%nat [].

(** In the middle of a run: the training environment has taken two steps
    of its episode. *)
Definition world_running : world :=
  mkWorld ∅ [mkEnv 2 0] (Some 5) (Some []) 0 1%nat [].

Definition locals_running : locals :=
  mkLocals "./results/run.csv" 0%nat 1000 2 2 2000 2 0 0 0.

(** The parsed defaults with a file name added and the schedule set. *)
Definition args_with (policy : string) (max_timesteps start_timesteps eval_freq : Z)
    : gmap string (pyval Z) :=
  <["file_name":=VStr "run"]> (<["policy":=VStr policy]>
  (<["max_timesteps":=VInt max_timesteps]>
  (<["start_timesteps":=VInt start_timesteps]>
  (<["eval_freq":=VInt eval_freq]> defaults)))).

Definition config_with (policy : string) (max_timesteps start_timesteps eval_freq : Z)
    : config :=
  mkConfig policy (VStr "HalfCheetah-v2") (VInt 0) start_timesteps eval_freq
    max_timesteps (VFloat 100) (VInt 256) (VFloat 990) (VFloat 5) (VFloat 200)
    (VFloat 500) (VInt 2) (VBool false) (VStr "") "./models" "./results" (VStr "run").

(** The scenario of the specification: 1000 steps, 100 of them warm-up,
    an evaluation every 500. *)
Definition args : gmap string (pyval Z) := args_with "TD3" 1000 100 500.
Definition cfg : config := config_with "TD3" 1000 100 500.

(** A short run, for evaluating the driver itself. *)
Definition args_short : gmap string (pyval Z) := args_with "TD3" 6 2 3.

(** A command line: a seed, the checkpoint flag, a noise level. *)
Definition argv : list cli_item :=
  [CliOpt "seed" "7"; CliFlag "save_model"; CliOpt "policy_noise" "0.3"].

Definition argv_parsed : gmap string (pyval Z) :=
  <["policy_noise":=VStr "0.3"]> (<["save_model":=VBool true]>
  (<["seed":=VInt 7]> defaults)).

(** A command line that sets the exploration noise. *)
Definition argv_noise : list cli_item := [CliOpt "expl_noise" "0.3"].

Definition argv_noise_parsed : gmap string (pyval Z) :=
  <["expl_noise":=VStr "0.3"]> defaults.

(** Another process with the same policy object: other files, other
    environments, no replay buffer, a generator and a clock that have
    advanced. *)
Definition world_busy : world :=
  mkWorld {[ "./notes.txt" := File [Text "keep"] ]} [mkEnv 1 7; mkEnv 0 0] (Some 5)
    None 3 4%nat [EPrint "earlier"].

(** A command line that names no result directory. *)
Definition argv_no_dir : list cli_item := [CliOpt "dest_res_path" ""].

Definition argv_no_dir_parsed : gmap string (pyval Z) :=
  <["dest_res_path":=VStr ""]> defaults.

(** The scenario of the specification with checkpoints switched on. *)
Definition args_saving : gmap string (pyval Z) := <["save_model":=VBool true]> args.

Definition cfg_saving : config :=
  mkConfig "TD3" (VStr "HalfCheetah-v2") (VInt 0) 100 500 1000 (VFloat 100) (VInt 256)
    (VFloat 990) (VFloat 5) (VFloat 200) (VFloat 500) (VInt 2) (VBool true) (VStr "")
    "./models" "./results" (VStr "run").

(** The short run on an environment name that is not a string. *)
Definition args_no_env : gmap string (pyval Z) := <["env":=VInt 3]> args_short.

Definition cfg_no_env : config :=
  mkConfig "TD3" (VInt 3) (VInt 0) 2 3 6 (VFloat 100) (VInt 256) (VFloat 990)
    (VFloat 5) (VFloat 200) (VFloat 500) (VInt 2) (VBool false) (VStr "") "./models"
    "./results" (VStr "run").

End Toy.

(** ** Facts about the driver *)
Section Facts.
Context {F Obs EnvSt PolSt Buf RngSt FsSt : Type}.
Context {num : PyNum F} {gym : Gym F Obs EnvSt}.
Context {learner : Learner F Obs EnvSt PolSt Buf RngSt}.
Context {disk : Disk F PolSt FsSt}.

Local Abbreviation value := (pyval F).
Local Abbreviation dict := (gmap string (pyval F)).
Local Abbreviation world := (World F Obs EnvSt PolSt Buf RngSt FsSt).
Local Abbreviation M' := (M F Obs EnvSt PolSt Buf RngSt FsSt).
Local Abbreviation config := (Config F).
Local Abbreviation locals := (Locals F Obs).
Local Abbreviation stays_unbound m :=
  (@stays_unbound F Obs EnvSt PolSt Buf RngSt FsSt _ m).
Local Abbreviation aborts m := (@aborts F Obs EnvSt PolSt Buf RngSt FsSt _ m).
Local Abbreviation score := (score (FsSt:=FsSt)).
Local Abbreviation keeps_files := (keeps_files (F:=F) (PolSt:=PolSt) (FsSt:=FsSt)).

Lemma bind_run {A B} (m : M' A) (k : A → M' B) (w w' : world) (a : A) :
  m w = (w', inr a) → bind m k w = k a w'.
Proof. intros H. unfold bind. by rewrite H. Qed.

Lemma bind_fail {A B} (m : M' A) (k : A → M' B) (w w' : world) (e : exn) :
  m w = (w', inl e) → bind m k w = (w', inl e).
Proof. intros H. unfold bind. by rewrite H. Qed.

Lemma bind_assoc {A B C} (m : M' A) (k : A → M' B) (h : B → M' C) (w : world) :
  bind (bind m k) h w = bind m (λ a, bind (k a) h) w.
Proof. unfold bind. by destruct (m w) as [w1 [e|a]]. Qed.

Lemma bind_ext {A B} (m : M' A) (k k' : A → M' B) (w : world) :
  (∀ a w', k a w' = k' a w') → bind m k w = bind m k' w.
Proof. intros H. unfold bind. destruct (m w) as [w1 [e|a]]; [done|]. apply H. Qed.

Lemma bind_ext_l {A B} (m m' : M' A) (k : A → M' B) (w : world) :
  m w = m' w → bind m k w = bind m' k w.
Proof. intros H. unfold bind. by rewrite H. Qed.

Lemma bind_ret_r {A} (m : M' A) (w : world) : bind m ret w = m w.
Proof. unfold bind, ret. by destruct (m w) as [w1 [e|a]]. Qed.

Ltac wsimpl :=
  unfold log, set_fs, set_envs, set_policy, set_replay_buffer, set_rng, set_clk in *;
  cbn [fs envs policy replay_buffer rng clk trace fst snd] in *.

Lemma eval_episode_run (p : PolSt) (id : nat) (steps : list (Obs * F * bool)) :
  ∀ (fuel : nat) (e e_end : EnvSt) (o : Obs) (avg : F) (w : world),
    is_episode p e o steps e_end →
    (length steps ≤ fuel)%nat →
    envs w !! id = Some e →
    policy w = Some p →
    eval_episode fuel id o avg w =
      (mkWorld (fs w) (<[id:=e_end]> (envs w)) (policy w) (replay_buffer w) (rng w)
         (clk w) (trace w ++ episode_events p id o steps),
       inr (fold_left fadd (rewards steps) avg)).
Proof.
  induction steps as [|[[o' r] d] rest IH]; intros fuel e e_end o avg w Hep Hfuel He Hp.
  - destruct Hep.
  - destruct fuel as [|fuel]; [simpl in Hfuel; lia|].
    simpl in Hep. destruct Hep as [Hstep Hrest].
    cbn [eval_episode].
    unfold select_action_m, env_step_m, the_policy, the_env, put_env, emit, bind, ret.
    cbn. rewrite Hp. cbn. rewrite He.
    destruct (env_step e (select_action p o)) as [[[o1 r1] d1] e1] eqn:Hs.
    cbn in Hstep. injection Hstep as -> -> ->. cbn in Hrest. cbn.
    destruct d.
    + destruct Hrest as [-> ->]. wsimpl. by rewrite Hp, <- ?app_assoc.
    + erewrite IH; [|exact Hrest|simpl in Hfuel; lia|..]; wsimpl.
      * rewrite list_insert_insert_eq, <- !app_assoc. by rewrite Hp.
      * apply list_lookup_insert_eq. by eapply lookup_lt_Some.
      * done.
Qed.

Lemma world_eta (w : world) :
  mkWorld (fs w) (envs w) (policy w) (replay_buffer w) (rng w) (clk w) (trace w) = w.
Proof. by destruct w. Qed.

Lemma eval_episodes_loop_run (p : PolSt) (id : nat)
    (eps : list (Obs * list (Obs * F * bool))) :
  ∀ (fuel : nat) (e e_end : EnvSt) (avg : F) (w : world),
    are_episodes p e eps e_end →
    Forall (λ ep, (length ep.2 ≤ fuel)%nat) eps →
    envs w !! id = Some e →
    policy w = Some p →
    eval_episodes_loop fuel id (length eps) avg w =
      (mkWorld (fs w) (<[id:=e_end]> (envs w)) (policy w) (replay_buffer w) (rng w)
         (clk w) (trace w ++ episodes_events p id eps),
       inr (fold_left fadd (all_rewards eps) avg)).
Proof.
  induction eps as [|[o steps] rest IH]; intros fuel e e_end avg w Heps Hfuel He Hp.
  - simpl in Heps. subst e_end. cbn.
    rewrite list_insert_id by done. rewrite app_nil_r. unfold ret.
    by rewrite world_eta.
  - simpl in Heps. destruct Heps as [Ho [e' [Hep Hrest]]].
    apply Forall_cons in Hfuel as [Hlen Hfuel]. cbn [snd] in Hlen.
    cbn [length eval_episodes_loop].
    unfold env_reset_m, the_env, put_env, emit.
    unfold bind at 1. unfold bind at 1. rewrite He.
    destruct (env_reset e) as [o1 e1] eqn:Hr. cbn in Ho, Hep. subst o1.
    unfold bind at 1. unfold bind at 1. unfold ret at 1.
    unfold bind at 1.
    erewrite eval_episode_run; [|exact Hep|exact Hlen|..]; wsimpl.
    + erewrite IH; [|exact Hrest|exact Hfuel|..]; wsimpl.
      * rewrite !list_insert_insert_eq, <- !app_assoc.
        unfold all_rewards. cbn. by rewrite fold_left_app.
      * apply list_lookup_insert_eq.
        rewrite length_insert. by eapply lookup_lt_Some.
      * done.
    + apply list_lookup_insert_eq. by eapply lookup_lt_Some.
    + done.
Qed.

Lemma episodes_exist (fuel : nat) (p : PolSt) (n : nat) :
  episodes_end fuel →
  ∀ e : EnvSt, ∃ eps e_end,
    length eps = n ∧ are_episodes p e eps e_end ∧
    Forall (λ ep, (length ep.2 ≤ fuel)%nat) eps.
Proof.
  intros Hend. induction n as [|n IH]; intros e.
  - exists [], e. by repeat split.
  - destruct (Hend p e) as (steps & e1 & Hep & Hlen).
    destruct (IH e1) as (eps & e_end & Hn & Heps & Hall).
    exists (((env_reset e).1, steps) :: eps), e_end. repeat split.
    + simpl. by rewrite Hn.
    + by exists e1.
    + by constructor.
Qed.

Lemma insert_snoc {A} (l : list A) (x y : A) :
  <[length l:=y]> (l ++ [x]) = l ++ [y].
Proof. induction l as [|a l IH]; [done|]. simpl. by f_equal. Qed.

Lemma lookup_snoc {A} (l : list A) (x : A) : (l ++ [x]) !! length l = Some x.
Proof. induction l as [|a l IH]; [done|]. by simpl. Qed.

Lemma eval_policy_run (fuel : nat) (name seed s : value) (n : Z) (p : PolSt)
    (e0 : EnvSt) :
  episodes_end fuel →
  gym_make name = Some e0 →
  py_add_int seed 100 = inr s →
  n ≠ 0 →
  ∃ eps e_end,
    length eps = Z.to_nat n ∧
    are_episodes p (env_seed e0 s) eps e_end ∧
    ∀ w : world,
      policy w = Some p →
      let id := length (envs w) in
      let avg := fdiv (fold_left fadd (all_rewards eps) (float_of_Z 0)) (float_of_Z n) in
      eval_policy fuel name seed n w =
        (mkWorld (fs w) (envs w ++ [e_end]) (policy w) (replay_buffer w) (rng w) (clk w)
           (trace w ++ EGymMake name id :: EEnvSeed id s
              :: episodes_events p id eps ++ eval_prints n avg),
         inr avg).
Proof.
  intros Hend Hmake Hseed Hn.
  destruct (episodes_exist fuel p (Z.to_nat n) Hend (env_seed e0 s))
    as (eps & e_end & Hlen & Heps & Hall).
  exists eps, e_end. split; [done|]. split; [done|]. intros w Hp. cbn zeta.
  unfold eval_policy, gym_make_m.
  unfold bind at 1. rewrite Hmake.
  unfold bind at 1, lift at 1. rewrite Hseed.
  unfold env_seed_m, the_env, put_env, emit.
  do 3 unfold bind at 1. wsimpl.
  rewrite lookup_snoc.
  unfold bind at 1. rewrite <- Hlen.
  erewrite eval_episodes_loop_run; [|exact Heps|exact Hall|..]; wsimpl.
  - unfold bind at 1, lift at 1, py_float_div_int.
    destruct (Z.eqb_spec n 0) as [|_]; [done|].
    unfold print, emit, bind, ret. wsimpl.
    f_equal. f_equal.
    + by rewrite list_insert_insert_eq, insert_snoc.
    + by rewrite <- !app_assoc.
  - rewrite insert_snoc. apply lookup_snoc.
  - done.
Qed.


(** *** Startup with an unknown selector *)





Lemma quiet_refl (w : world) : policy w = None → quiet w w.
Proof. intros H. split; [done|]. exists []. by rewrite app_nil_r. Qed.

Lemma quiet_trans (w1 w2 w3 : world) : quiet w1 w2 → quiet w2 w3 → quiet w1 w3.
Proof.
  intros [_ (evs1 & E1 & H1)] [Hp (evs2 & E2 & H2)]. split; [done|].
  exists (evs1 ++ evs2). rewrite E2, E1, app_assoc. split; [done|].
  by apply Forall_app.
Qed.

Lemma quiet_event (w w' : world) (e : event F Obs) :
  policy w' = None → trace w' = trace w ++ [e] → startup_event e → quiet w w'.
Proof. intros Hp Ht He. split; [done|]. exists [e]. split; [done|]. by constructor. Qed.

Lemma stays_bind {A B} (m : M' A) (k : A → M' B) :
  stays_unbound m → (∀ a, stays_unbound (k a)) → stays_unbound (bind m k).
Proof.
  intros Hm Hk w w' r Hp. unfold bind.
  destruct (m w) as [w1 [e|a]] eqn:E; intros H.
  - injection H as <- <-. by eapply Hm.
  - pose proof (Hm _ _ _ Hp E) as Hq.
    eapply quiet_trans; [exact Hq|]. eapply Hk; [|exact H]. apply Hq.
Qed.

Lemma aborts_bind_l {A B} (m : M' A) (k : A → M' B) : aborts m → aborts (bind m k).
Proof.
  intros Hm w w' r Hp. unfold bind.
  destruct (m w) as [w1 [e|a]] eqn:E; intros H.
  - injection H as <- <-. destruct (Hm _ _ _ Hp E) as [_ Hq]. eauto.
  - destruct (Hm _ _ _ Hp E) as [[e He] _]. done.
Qed.

Lemma aborts_bind_r {A B} (m : M' A) (k : A → M' B) :
  stays_unbound m → (∀ a, aborts (k a)) → aborts (bind m k).
Proof.
  intros Hm Hk w w' r Hp. unfold bind.
  destruct (m w) as [w1 [e|a]] eqn:E; intros H.
  - injection H as <- <-. split; [eauto|]. by eapply Hm.
  - pose proof (Hm _ _ _ Hp E) as Hq.
    destruct (Hk a w1 w' r) as [He Hq']; [apply Hq|exact H|].
    split; [done|]. by eapply quiet_trans.
Qed.

Lemma stays_pure {A} (m : M' A) :
  (∀ w, (m w).1 = w) → stays_unbound m.
Proof.
  intros Hm w w' r Hp E. pose proof (Hm w) as Hw. rewrite E in Hw. cbn in Hw.
  subst w'. by apply quiet_refl.
Qed.

Lemma stays_ret {A} (a : A) : stays_unbound (ret a : M' A).
Proof. by apply stays_pure. Qed.

Lemma stays_raise {A} (e : exn) : stays_unbound (raise e : M' A).
Proof. by apply stays_pure. Qed.

Lemma stays_lift {A} (r : exn + A) : stays_unbound (lift r : M' A).
Proof. by apply stays_pure. Qed.

Lemma stays_getattr (args : dict) (name : string) : stays_unbound (getattr args name).
Proof. by apply stays_pure. Qed.

Lemma stays_path_exists (p : string) : stays_unbound (path_exists p).
Proof. by apply stays_pure. Qed.

Lemma stays_the_env (id : nat) : stays_unbound (the_env id).
Proof. apply stays_pure. intros w. unfold the_env. by destruct (envs w !! id). Qed.

Lemma stays_the_policy : stays_unbound the_policy.
Proof. apply stays_pure. intros w. unfold the_policy. by destruct (policy w). Qed.

Lemma stays_print (s : string) : stays_unbound (print s).
Proof. intros w w' r Hp E. injection E as <- <-. by eapply quiet_event. Qed.

Lemma stays_silent {A} (m : M' A) :
  (∀ w, policy (m w).1 = policy w ∧ trace (m w).1 = trace w) → stays_unbound m.
Proof.
  intros Hm w w' r Hp E. destruct (Hm w) as [H1 H2]. rewrite E in H1, H2.
  cbn in H1, H2. split; [congruence|]. exists []. by rewrite app_nil_r.
Qed.

Lemma stays_fs_call (f : FsSt → FsSt * option exn) : stays_unbound (fs_call f).
Proof. by apply stays_silent. Qed.

Lemma stays_makedirs (p : string) : stays_unbound (makedirs p).
Proof. apply stays_fs_call. Qed.

Lemma stays_open_x (p : string) : stays_unbound (open_x p).
Proof. apply stays_fs_call. Qed.

Lemma stays_write_lines (p : string) (ls : list (fline F)) :
  stays_unbound (write_lines p ls).
Proof. apply stays_fs_call. Qed.

Lemma stays_append_lines (p : string) (ls : list (fline F)) :
  stays_unbound (append_lines p ls).
Proof. apply stays_fs_call. Qed.

Lemma stays_gym_make (name : value) : stays_unbound (gym_make_m name).
Proof.
  intros w w' r Hp. unfold gym_make_m. destruct (gym_make name); intros E.
  - injection E as <- <-. by eapply quiet_event.
  - injection E as <- <-. by apply quiet_refl.
Qed.

Lemma stays_set_seeds (seed : value) (id : nat) : stays_unbound (set_seeds_m seed id).
Proof.
  apply stays_bind; [apply stays_the_env|]. intros e w w' r Hp E.
  cbn beta in E. destruct (set_seeds seed e (rng w)) as [e' g].
  injection E as <- <-. by eapply quiet_event.
Qed.

Lemma stays_buffer_new (sd ad : Z) : stays_unbound (buffer_new_m sd ad).
Proof. intros w w' r Hp E. injection E as <- <-. by eapply quiet_event. Qed.

Lemma aborts_the_policy {B} (k : PolSt → M' B) : aborts (bind the_policy k).
Proof.
  intros w w' r Hp. unfold bind, the_policy. rewrite Hp. intros E.
  injection E as <- <-. split; [eauto|]. by apply quiet_refl.
Qed.

Create HintDb stays.
#[local] Hint Resolve stays_ret stays_raise stays_lift stays_getattr stays_path_exists
  stays_the_env stays_the_policy stays_print stays_makedirs stays_open_x
  stays_write_lines stays_append_lines stays_gym_make stays_set_seeds
  stays_buffer_new : stays.

Ltac stays :=
  repeat first
    [ solve [eauto with stays]
    | apply stays_bind; [|intros ?]
    | match goal with
      | |- stays_unbound (if ?b then _ else _) => destruct b
      | |- stays_unbound (match ?x with _ => _ end) => destruct x
      end ].

Lemma stays_ensure_dir (args : dict) (name : string) :
  stays_unbound (ensure_dir args name).
Proof. unfold ensure_dir. stays. Qed.

Lemma stays_prepare_results (args : dict) : stays_unbound (prepare_results args).
Proof.
  unfold prepare_results, hyperpars.
  pose proof (stays_ensure_dir args). stays.
Qed.

Lemma stays_init_policy (args kwargs : dict) (ma : F) (s : string) :
  args !! "policy" = Some (VStr s) →
  s ≠ "TD3" → s ≠ "OurDDPG" → s ≠ "DDPG" →
  stays_unbound (init_policy args kwargs ma).
Proof.
  intros Hs H1 H2 H3. apply stays_silent. intros w.
  unfold init_policy, bind, getattr, lift. rewrite Hs. cbn.
  apply String.eqb_neq in H1, H2, H3. by rewrite H1, H2, H3.
Qed.

Lemma stays_policy_load (path : string) : stays_unbound (policy_load_m path).
Proof.
  intros w w' r Hp E. unfold policy_load_m, bind, the_policy in E.
  rewrite Hp in E. injection E as <- <-. by apply quiet_refl.
Qed.

Lemma stays_maybe_load (args : dict) : stays_unbound (maybe_load args).
Proof. unfold maybe_load. pose proof stays_policy_load. stays. Qed.

Lemma aborts_setup (fuel : nat) (args : dict) (res : string) (s : string) :
  args !! "policy" = Some (VStr s) →
  s ≠ "TD3" → s ≠ "OurDDPG" → s ≠ "DDPG" →
  aborts (setup fuel args res).
Proof.
  intros Hs H1 H2 H3. unfold setup.
  apply aborts_bind_r; [unfold make_env; stays|]. intros id.
  apply aborts_bind_r.
  { unfold build_policy. pose proof (stays_init_policy args) as Hi. stays.
    }
  intros [[sd ad] ma].
  apply aborts_bind_r; [apply stays_maybe_load|]. intros _.
  apply aborts_bind_r; [apply stays_buffer_new|]. intros _.
  apply aborts_bind_l. unfold run_eval. apply aborts_the_policy.
Qed.




(** *** [parse_args] *)


Lemma parsed_defaults : parsed defaults.
Proof. unfold parsed. vm_compute. repeat split; eauto. Qed.

Lemma parsed_insert (d : dict) (k : string) (v : value) :
  parsed d →
  k ≠ "file_name" →
  (k = "dest_res_path" ∨ k = "dest_model_path" → ∃ s, v = VStr s) →
  (k = "save_model" → ∃ b, v = VBool b) →
  parsed (<[k:=v]> d).
Proof.
  intros (H0 & H1 & H2 & H3 & H4 & H5 & H6) Hk Hpath Hflag. unfold parsed.
  rewrite !lookup_insert.
  repeat split; case_decide; subst; try done.
  - destruct Hpath as [s ->]; eauto.
  - destruct Hflag as [b ->]; eauto.
  - destruct Hpath as [s ->]; eauto.
Qed.

Lemma parse_item_parsed (d d' : dict) (it : cli_item) :
  parsed d → parse_item d it = inr d' → parsed d'.
Proof.
  intros Hd. destruct it as [dest raw|dest]; cbn.
  - case_bool_decide as Hmem.
    + destruct (py_int raw) as [z|]; [|done]. intros [= <-].
      unfold int_options in Hmem. set_unfold.
      apply parsed_insert; [done|..]; intros; destruct_or?; simplify_eq; done.
    + case_bool_decide as Htext; [|done]. intros [= <-].
      unfold text_options in Htext. set_unfold.
      apply parsed_insert; [done|..]; intros; eauto; destruct_or?; simplify_eq; done.
  - destruct (String.eqb_spec dest "save_model") as [->|]; [|done].
    intros [= <-]. apply parsed_insert; [done|..]; intros; eauto; destruct_or?; simplify_eq; done.
Qed.

Lemma parse_items_parsed (argv : list cli_item) :
  ∀ d d' : dict, parsed d → parse_items d argv = inr d' → parsed d'.
Proof.
  induction argv as [|it argv IH]; intros d d' Hd; cbn.
  - by intros [= <-].
  - destruct (parse_item d it) as [e|d1] eqn:E; [done|].
    apply IH. by eapply parse_item_parsed.
Qed.

Lemma parse_args_parsed (argv : list cli_item) (d : dict) :
  parse_args argv = inr d → parsed d.
Proof. apply parse_items_parsed, parsed_defaults. Qed.


Lemma bind_getattr {B} (args : dict) (name : string) (v : value) (k : value → M' B)
    (w : world) :
  args !! name = Some v → bind (getattr args name) k w = k v w.
Proof. intros H. unfold bind, getattr, lift. by rewrite H. Qed.

Lemma bind_getattr_fail {B} (args : dict) (name : string) (k : value → M' B) (w : world) :
  args !! name = None → bind (getattr args name) k w = (w, inl (AttributeError name)).
Proof. intros H. unfold bind, getattr, lift. by rewrite H. Qed.

Lemma bind_lift {A B} (r : exn + A) (a : A) (k : A → M' B) (w : world) :
  r = inr a → bind (lift r) k w = k a w.
Proof. by intros ->. Qed.

Lemma bind_print {B} (s : string) (k : unit → M' B) (w : world) :
  bind (print s) k w = k tt (log (EPrint s) w).
Proof. done. Qed.

Lemma bind_ret {A B} (a : A) (k : A → M' B) (w : world) : bind (ret a) k w = k a w.
Proof. done. Qed.


Lemma set_fs_id (w : world) : set_fs (fs w) w = w.
Proof. by destruct w. Qed.

(** A call on the disk, followed by the rest of the program. *)
Lemma bind_fs_call {B} (f : FsSt → FsSt * option exn) (k : unit → M' B) (w : world) :
  bind (fs_call f) k w =
    match (f (fs w)).2 with
    | None => k tt (set_fs (f (fs w)).1 w)
    | Some e => (set_fs (f (fs w)).1 w, inl e)
    end.
Proof. unfold bind, fs_call. cbn zeta. by destruct (f (fs w)).2. Qed.

Lemma bind_ensure_dir {B} (args : dict) (name s : string) (k : unit → M' B) (w : world) :
  args !! name = Some (VStr s) →
  bind (ensure_dir args name) k w =
    match (made s (fs w)).2 with
    | None => k tt (set_fs (made s (fs w)).1 w)
    | Some e => (set_fs (made s (fs w)).1 w, inl e)
    end.
Proof.
  intros H. unfold ensure_dir. rewrite !bind_assoc.
  rewrite (bind_getattr _ _ _ _ _ H). cbn [as_path]. rewrite bind_assoc.
  rewrite (bind_lift _ s) by done. rewrite bind_assoc.
  unfold bind at 1, path_exists. unfold made.
  destruct (fs_exists (fs w) s).
  - cbn [fst snd]. by rewrite bind_ret, set_fs_id.
  - rewrite bind_assoc, (bind_getattr _ _ _ _ _ H). cbn [as_path].
    rewrite bind_assoc, (bind_lift _ s) by done. apply bind_fs_call.
Qed.

(** Lines 91-94 followed by the rest of the program. *)
Lemma bind_output_dirs {B} (args : dict) (s m : string) (sm : value) (k : unit → M' B)
    (w : world) :
  args !! "dest_res_path" = Some (VStr s) →
  args !! "save_model" = Some sm →
  (truthy sm = true → args !! "dest_model_path" = Some (VStr m)) →
  let r := output_dirs s (truthy sm) m (fs w) in
  bind (ensure_dir args "dest_res_path") (λ _,
    bind (getattr args "save_model") (λ sm,
      bind (if truthy sm then ensure_dir args "dest_model_path" else ret tt) k)) w =
    match r.2 with
    | None => k tt (set_fs r.1 w)
    | Some e => (set_fs r.1 w, inl e)
    end.
Proof.
  intros Hs Hsm Hm. cbn zeta. rewrite (bind_ensure_dir _ _ s) by done.
  unfold output_dirs, then_fs.
  destruct (made s (fs w)) as [st1 [e1|]]; cbn [fst snd]; [done|].
  rewrite (bind_getattr _ _ _ _ _ Hsm).
  destruct (truthy sm).
  - rewrite (bind_ensure_dir _ _ m) by auto. done.
  - by rewrite bind_ret.
Qed.

Lemma hyperpars_run (d : dict) (c : config) (w : world) :
  reads d c → hyperpars d w = (w, inr (hyper_block c)).
Proof.
  intros R. unfold hyperpars.
  rewrite (bind_getattr _ _ _ _ _ (rd_env _ _ R)),
    (bind_getattr _ _ _ _ _ (rd_seed _ _ R)),
    (bind_getattr _ _ _ _ _ (rd_eval_freq _ _ R)),
    (bind_getattr _ _ _ _ _ (rd_start_timesteps _ _ R)),
    (bind_getattr _ _ _ _ _ (rd_max_timesteps _ _ R)),
    (bind_getattr _ _ _ _ _ (rd_batch_size _ _ R)),
    (bind_getattr _ _ _ _ _ (rd_discount _ _ R)),
    (bind_getattr _ _ _ _ _ (rd_tau _ _ R)),
    (bind_getattr _ _ _ _ _ (rd_policy_noise _ _ R)),
    (bind_getattr _ _ _ _ _ (rd_noise_clip _ _ R)),
    (bind_getattr _ _ _ _ _ (rd_policy_freq _ _ R)).
  done.
Qed.

(** Lines 97-116 followed by the rest of the program. *)
Lemma bind_result_file {B} (d : dict) (c : config) (k : unit → M' B) (w : world) :
  reads d c →
  let r := result_file c (fs w) in
  bind (path_exists (res_path c)) (λ ex,
    bind (if ex : bool then ret tt
          else bind (open_x (res_path c)) (λ _,
                 bind (hyperpars d) (λ hp,
                   bind (write_lines (res_path c) hp) (λ _,
                     write_lines (res_path c) [csv_header])))) k) w =
    match r.2 with
    | None => k tt (set_fs r.1 w)
    | Some e => (set_fs r.1 w, inl e)
    end.
Proof.
  intros R. cbn zeta. unfold bind at 1, path_exists. unfold result_file.
  destruct (fs_exists (fs w) (res_path c)).
  - cbn [fst snd]. by rewrite bind_ret, set_fs_id.
  - rewrite !bind_assoc. unfold open_x. rewrite bind_fs_call. unfold then_fs.
    destruct (fs_create (fs w) (res_path c)) as [st1 [e1|]]; cbn [fst snd]; [done|].
    rewrite bind_assoc, (bind_run _ _ _ _ _ (hyperpars_run d c _ R)).
    rewrite bind_assoc. unfold write_lines. rewrite bind_fs_call. cbn [fs set_fs].
    destruct (fs_write st1 (res_path c) (hyper_block c)) as [st2 [e2|]];
      cbn [fst snd]; [done|].
    rewrite bind_fs_call. cbn [fs set_fs].
    by destruct (fs_write st2 (res_path c) [csv_header]) as [st3 [e3|]].
Qed.

Lemma prepare_results_parsed (d : dict) (w : world) :
  parsed d →
  ∃ s b m banner,
    d !! "dest_res_path" = Some (VStr s) ∧
    d !! "save_model" = Some (VBool b) ∧
    d !! "dest_model_path" = Some (VStr m) ∧
    prepare_results d w =
      (mkWorld (output_dirs s b m (fs w)).1 (envs w) (policy w) (replay_buffer w)
         (rng w) (clk w) (trace w ++ [EPrint rule; EPrint banner; EPrint rule]),
       inl (match (output_dirs s b m (fs w)).2 with
            | None => AttributeError "file_name"
            | Some e => e
            end)).
Proof.
  intros (Hfn & [p Hp] & [e He] & [sd Hsd] & [rp Hrp] & [b Hb] & [mp Hmp]).
  exists rp, b, mp. eexists. split; [done|]. split; [done|]. split; [done|].
  unfold prepare_results.
  rewrite bind_print, (bind_getattr _ _ _ _ _ Hp), (bind_getattr _ _ _ _ _ He),
    (bind_getattr _ _ _ _ _ Hsd), !bind_print.
  rewrite (bind_output_dirs d rp mp (VBool b)) by done. cbn [truthy].
  wsimpl.
  destruct (output_dirs rp b mp (fs w)) as [st1 [e1|]]; cbn [fst snd].
  - by rewrite <- !app_assoc.
  - rewrite (bind_getattr _ _ _ _ _ Hrp), (bind_getattr_fail _ _ _ _ Hfn).
    wsimpl. by rewrite <- !app_assoc.
Qed.

(** C9, as amended.  On every dictionary [parse_args] can produce, [main]
    fails at startup, not later than where it builds the result-file path
    (line 96): it has printed its banner and nothing else, no environment
    was made, no policy or buffer is bound.  The exception is the attribute
    error for [file_name] when lines 91-94 went through, that is, when the
    output directories exist or could be made; otherwise it is the one
    [os.makedirs] raised. *)
Theorem parsed_run_stops_at_startup (fuel : nat) (argv : list cli_item) (d : dict)
    (w : world) :
  parse_args argv = inr d →
  ∃ s b m w' e banner,
    d !! "dest_res_path" = Some (VStr s) ∧
    d !! "save_model" = Some (VBool b) ∧
    d !! "dest_model_path" = Some (VStr m) ∧
    main fuel d w = (w', inl e) ∧
    ((output_dirs s b m (fs w)).2 = None → e = AttributeError "file_name") ∧
    (∀ e', (output_dirs s b m (fs w)).2 = Some e' → e = e') ∧
    fs w' = (output_dirs s b m (fs w)).1 ∧
    trace w' = trace w ++ [EPrint rule; EPrint banner; EPrint rule] ∧
    envs w' = envs w ∧ policy w' = None ∧ replay_buffer w' = None.
Proof.
  intros Hargs. apply parse_args_parsed in Hargs.
  destruct (prepare_results_parsed d (set_replay_buffer None (set_policy None w)) Hargs)
    as (s & b & m & banner & Hs & Hb & Hm & Hrun).
  eexists s, b, m, _, _, banner. split; [done|]. split; [done|]. split; [done|].
  split.
  { unfold main. unfold bind at 1. unfold enter_main at 1. cbn beta iota.
    by rewrite (bind_fail _ _ _ _ _ Hrun). }
  wsimpl. split; [by intros ->|]. split; [by intros e' ->|]. done.
Qed.


(** *** One environment step *)

Lemma step_and_store_run (ls : locals) (a : list F) (w : world) (e : EnvSt) (b : Buf) :
  envs w !! env ls = Some e →
  replay_buffer w = Some b →
  let o := (env_step e a).1.1.1 in
  let r := (env_step e a).1.1.2 in
  let d := (env_step e a).1.2 in
  let e' := (env_step e a).2 in
  let tr := mkTransition (state ls) a o r
              (done_bool (episode_timesteps ls + 1) (max_episode_steps e') d) in
  step_and_store ls a w =
    (mkWorld (fs w) (<[env ls:=e']> (envs w)) (policy w) (Some (buffer_add b tr))
       (rng w) (clk w) (trace w ++ [EStep (env ls) a o r d; EBufferAdd tr]),
     inr (mkLocals (res_file ls) (env ls) (max_action ls) (action_dim ls) o
            (fadd (episode_reward ls) r) (episode_timesteps ls + 1) (episode_num ls)
            (grad_steps ls) (start_time ls), d)).
Proof.
  intros He Hb. cbn zeta.
  unfold step_and_store, env_step_m, the_env, put_env, emit, buffer_add_m, the_buffer.
  unfold bind, ret. rewrite He.
  destruct (env_step e a) as [[[o r] d] e'] eqn:Es. wsimpl.
  rewrite list_lookup_insert_eq by (by eapply lookup_lt_Some).
  rewrite Hb. wsimpl. by rewrite <- !app_assoc.
Qed.

Lemma done_bool_below (n cap : Z) (d : bool) :
  n < cap → done_bool n cap d = float_of_bool d.
Proof. intros H. unfold done_bool. by destruct (Z.ltb_spec n cap); [|lia]. Qed.

Lemma done_bool_at_cap (n cap : Z) (d : bool) :
  cap ≤ n → done_bool n cap d = float_of_Z 0.
Proof. intros H. unfold done_bool. by destruct (Z.ltb_spec n cap); [lia|]. Qed.

(** C2.  Every environment step stores exactly one transition, and its
    done flag is [float(done)] when the episode step count (already
    incremented for this step) is below the cap of the environment, and 0
    when the count has reached the cap, whatever [done] the environment
    returned. *)
Theorem stored_done_flag (ls : locals) (a : list F) (w : world) (e : EnvSt) (b : Buf) :
  envs w !! env ls = Some e →
  replay_buffer w = Some b →
  ∃ o r d e' tr w' ls',
    env_step e a = (o, r, d, e') ∧
    step_and_store ls a w = (w', inr (ls', d)) ∧
    trace w' = trace w ++ [EStep (env ls) a o r d; EBufferAdd tr] ∧
    replay_buffer w' = Some (buffer_add b tr) ∧
    tr = mkTransition (state ls) a o r (tr_done tr) ∧
    episode_timesteps ls' = episode_timesteps ls + 1 ∧
    (episode_timesteps ls' < max_episode_steps e' → tr_done tr = float_of_bool d) ∧
    (max_episode_steps e' ≤ episode_timesteps ls' → tr_done tr = float_of_Z 0).
Proof.
  intros He Hb. pose proof (step_and_store_run ls a w e b He Hb) as Hrun.
  cbn zeta in Hrun. destruct (env_step e a) as [[[o r] d] e'] eqn:Es.
  cbn [fst snd] in Hrun.
  eexists o, r, d, e', _, _, _. split; [done|]. split; [exact Hrun|].
  cbn. repeat split; try done.
  - apply done_bool_below.
  - apply done_bool_at_cap.
Qed.

(** *** Action selection *)

Lemma choose_action_warm_up (args : dict) (ls : locals) (t : Z) (w : world)
    (stv : value) (e : EnvSt) :
  args !! "start_timesteps" = Some stv →
  py_int_lt t stv = inr true →
  envs w !! env ls = Some e →
  choose_action args ls t w =
    (mkWorld (fs w) (<[env ls:=(action_sample e).2]> (envs w)) (policy w)
       (replay_buffer w) (rng w) (clk w)
       (trace w ++ [ESample (env ls) (action_sample e).1]),
     inr (action_sample e).1).
Proof.
  intros Hst Hlt He. unfold choose_action.
  rewrite (bind_getattr _ _ _ _ _ Hst), (bind_lift _ true) by done.
  unfold action_sample_m, the_env, put_env, emit, bind, ret. rewrite He.
  by destruct (action_sample e) as [a e'].
Qed.

Lemma choose_action_policy (args : dict) (ls : locals) (t : Z) (w : world)
    (stv en : value) (x : F) (p : PolSt) :
  args !! "start_timesteps" = Some stv →
  py_int_lt t stv = inr false →
  policy w = Some p →
  args !! "expl_noise" = Some en →
  py_as_float "*" en = inr x →
  let a := select_action p (state ls) in
  let scale := fmul (max_action ls) x in
  let nz := np_random_normal (rng w) scale (action_dim ls) in
  choose_action args ls t w =
    (mkWorld (fs w) (envs w) (policy w) (replay_buffer w) nz.2 (clk w)
       (trace w ++ [ESelectAction (state ls) a; ENormal scale (action_dim ls) nz.1]),
     match np_add a nz.1 with
     | inr v => inr (np_clip (fneg (max_action ls)) (max_action ls) v)
     | inl err => inl err
     end).
Proof.
  intros Hst Hlt Hp Hen Hx. cbn zeta. unfold choose_action.
  rewrite (bind_getattr _ _ _ _ _ Hst), (bind_lift _ false) by done.
  unfold select_action_m, the_policy, emit. unfold bind at 1. unfold bind at 1.
  rewrite Hp. unfold bind at 1. unfold ret at 1.
  rewrite (bind_getattr _ _ _ _ _ Hen).
  unfold py_float_mul. rewrite Hx. rewrite (bind_lift _ (fmul (max_action ls) x)) by done.
  unfold bind at 1, np_random_normal_m. wsimpl.
  destruct (np_random_normal _ _ _) as [noise g]. wsimpl.
  unfold bind, lift, ret. rewrite <- app_assoc, ?Hp.
  by destruct (np_add _ noise).
Qed.


Lemma np_add_clip_lookup (lo hi : F) (a b v : list F) (i : nat) (x y : F) :
  np_add a b = inr v →
  length a = length b →
  a !! i = Some x → b !! i = Some y →
  np_clip lo hi v !! i = Some (fminimum hi (fmaximum (fadd x y) lo)).
Proof.
  intros Hadd Hlen Hx Hy. unfold np_add in Hadd.
  rewrite Hlen, Nat.eqb_refl in Hadd. injection Hadd as <-.
  unfold np_clip. rewrite list_lookup_fmap, lookup_zip_with, Hx. cbn. by rewrite Hy.
Qed.

(** C6.  At a step [t < start_timesteps] the action given to [env.step]
    is the one [env.action_space.sample()] returned and the policy is not
    asked; at a step [t >= start_timesteps] it is
    [clip(select_action(state) + normal(0, max_action * expl_noise,
    size=action_dim), -max_action, max_action)], componentwise. *)
Theorem action_selection (args : dict) (ls : locals) (t st : Z) (w : world)
    (e : EnvSt) (b : Buf) :
  args !! "start_timesteps" = Some (VInt st) →
  envs w !! env ls = Some e →
  replay_buffer w = Some b →
  (t < st →
     let a := (action_sample e).1 in
     ∃ w' res o r d tr,
       interact args t ls w = (w', inr res) ∧
       trace w' = trace w ++ [ESample (env ls) a; EStep (env ls) a o r d; EBufferAdd tr]) ∧
  (st ≤ t →
     ∀ (p : PolSt) (en : value) (x : F) (v : list F),
       policy w = Some p →
       args !! "expl_noise" = Some en →
       py_as_float "*" en = inr x →
       let sel := select_action p (state ls) in
       let scale := fmul (max_action ls) x in
       let noise := (np_random_normal (rng w) scale (action_dim ls)).1 in
       np_add sel noise = inr v →
       let a := np_clip (fneg (max_action ls)) (max_action ls) v in
       (∃ w' res o r d tr,
          interact args t ls w = (w', inr res) ∧
          trace w' = trace w ++ [ESelectAction (state ls) sel;
                                 ENormal scale (action_dim ls) noise;
                                 EStep (env ls) a o r d; EBufferAdd tr]) ∧
       (length sel = length noise →
        ∀ i s n, sel !! i = Some s → noise !! i = Some n →
          a !! i = Some (fminimum (max_action ls)
                           (fmaximum (fadd s n) (fneg (max_action ls)))))).
Proof.
  intros Hst He Hb. split.
  - intros Hlt. cbn zeta. unfold interact. unfold bind at 1.
    erewrite choose_action_warm_up; [|exact Hst| |exact He].
    2:{ cbn. by destruct (Z.ltb_spec t st); [|lia]. }
    erewrite step_and_store_run; wsimpl;
      [|apply list_lookup_insert_eq; by eapply lookup_lt_Some|done].
    eexists _, _, _, _, _, _. split; [reflexivity|]. wsimpl. by rewrite <- app_assoc.
  - intros Hge p en x v Hp Hen Hx. cbn zeta. intros Hadd. split.
    + unfold interact. unfold bind at 1.
      erewrite choose_action_policy; [|exact Hst| |exact Hp|exact Hen|exact Hx].
      2:{ cbn. by destruct (Z.ltb_spec t st); [lia|]. }
      rewrite Hadd.
      erewrite step_and_store_run; wsimpl; [|exact He|exact Hb].
      eexists _, _, _, _, _, _. split; [reflexivity|]. wsimpl. by rewrite <- app_assoc.
    + intros Hlen i s n Hs Hn. by eapply np_add_clip_lookup.
Qed.

(** *** Policy construction *)


Lemma init_policy_td3 (args kwargs : dict) (ma : F) (pn nc pf : value) (x y : F)
    (w : world) :
  args !! "policy" = Some (VStr "TD3") →
  args !! "policy_noise" = Some pn → py_as_float "*" pn = inr x →
  args !! "noise_clip" = Some nc → py_as_float "*" nc = inr y →
  args !! "policy_freq" = Some pf →
  init_policy args kwargs ma w = construct TD3 (td3_kwargs kwargs x y pf ma) w.
Proof.
  intros Hp Hpn Hx Hnc Hy Hpf. unfold init_policy.
  rewrite (bind_getattr _ _ _ _ _ Hp).
  change (py_eq_str (VStr "TD3") "TD3") with true. cbn match.
  rewrite (bind_getattr _ _ _ _ _ Hpn). unfold py_mul_float at 1. rewrite Hx.
  rewrite (bind_lift _ (VFloat (fmul x ma))) by done.
  rewrite (bind_getattr _ _ _ _ _ Hnc). unfold py_mul_float at 1. rewrite Hy.
  rewrite (bind_lift _ (VFloat (fmul y ma))) by done.
  by rewrite (bind_getattr _ _ _ _ _ Hpf).
Qed.

Lemma init_policy_ourddpg (args kwargs : dict) (ma : F) (w : world) :
  args !! "policy" = Some (VStr "OurDDPG") →
  init_policy args kwargs ma w = construct OurDDPG kwargs w.
Proof.
  intros Hp. unfold init_policy.
  rewrite (bind_getattr _ _ _ _ _ Hp).
  change (py_eq_str (VStr "OurDDPG") "TD3") with false. cbn match.
  by rewrite (bind_getattr _ _ _ _ _ Hp).
Qed.

Lemma init_policy_ddpg (args kwargs : dict) (ma : F) (w : world) :
  args !! "policy" = Some (VStr "DDPG") →
  init_policy args kwargs ma w = construct DDPG kwargs w.
Proof.
  intros Hp. unfold init_policy.
  rewrite (bind_getattr _ _ _ _ _ Hp).
  change (py_eq_str (VStr "DDPG") "TD3") with false. cbn match.
  rewrite (bind_getattr _ _ _ _ _ Hp).
  change (py_eq_str (VStr "DDPG") "OurDDPG") with false. cbn match.
  by rewrite (bind_getattr _ _ _ _ _ Hp).
Qed.

Lemma build_policy_run (args : dict) (id : nat) (w : world) (e : EnvSt)
    (discount tau : value) (k : policy_kind) (kwargs : dict) :
  envs w !! id = Some e →
  args !! "discount" = Some discount →
  args !! "tau" = Some tau →
  (∀ w' : world, init_policy args
           (base_kwargs (obs_dim e) (act_dim e) (act_high0 e) discount tau)
           (act_high0 e) w' = construct k kwargs w') →
  build_policy args id w =
    (mkWorld (fs w) (envs w) (Some (policy_new k kwargs)) (replay_buffer w) (rng w)
       (clk w) (trace w ++ [EPolicyNew k kwargs]),
     inr (obs_dim e, act_dim e, act_high0 e)).
Proof.
  intros He Hd Ht Hinit. unfold build_policy, the_env. unfold bind at 1. rewrite He.
  rewrite (bind_getattr _ _ _ _ _ Hd), (bind_getattr _ _ _ _ _ Ht).
  unfold bind at 1. by rewrite Hinit.
Qed.

(** C10.  For "TD3" the constructor receives [policy_noise] and
    [noise_clip] multiplied by [max_action = action_space.high[0]] and
    [policy_freq] as configured, on top of the five common keyword
    arguments; for "OurDDPG" and "DDPG" it receives the five common ones
    only, none of these three. *)
Theorem td3_noise_scaled (args : dict) (id : nat) (w : world) (e : EnvSt)
    (discount tau : value) :
  envs w !! id = Some e →
  args !! "discount" = Some discount →
  args !! "tau" = Some tau →
  let max_action := act_high0 e in
  let base := base_kwargs (obs_dim e) (act_dim e) max_action discount tau in
  (∀ pn nc pf x y,
     args !! "policy" = Some (VStr "TD3") →
     args !! "policy_noise" = Some pn → py_as_float "*" pn = inr x →
     args !! "noise_clip" = Some nc → py_as_float "*" nc = inr y →
     args !! "policy_freq" = Some pf →
     ∃ w' kwargs,
       build_policy args id w = (w', inr (obs_dim e, act_dim e, max_action)) ∧
       trace w' = trace w ++ [EPolicyNew TD3 kwargs] ∧
       policy w' = Some (policy_new TD3 kwargs) ∧
       kwargs !! "policy_noise" = Some (VFloat (fmul x max_action)) ∧
       kwargs !! "noise_clip" = Some (VFloat (fmul y max_action)) ∧
       kwargs !! "policy_freq" = Some pf ∧
       (∀ key, key ≠ "policy_noise" → key ≠ "noise_clip" → key ≠ "policy_freq" →
               kwargs !! key = base !! key)) ∧
  (∀ s k,
     (s = "OurDDPG" ∧ k = OurDDPG) ∨ (s = "DDPG" ∧ k = DDPG) →
     args !! "policy" = Some (VStr s) →
     ∃ w',
       build_policy args id w = (w', inr (obs_dim e, act_dim e, max_action)) ∧
       trace w' = trace w ++ [EPolicyNew k base] ∧
       policy w' = Some (policy_new k base) ∧
       base !! "policy_noise" = None ∧
       base !! "noise_clip" = None ∧
       base !! "policy_freq" = None).
Proof.
  intros He Hd Ht. cbn zeta. split.
  - intros pn nc pf x y Hp Hpn Hx Hnc Hy Hpf.
    eexists _, _. split.
    { eapply build_policy_run; [done..|]. intros w'. by eapply init_policy_td3. }
    cbn [trace policy]. unfold td3_kwargs.
    repeat split; try by simplify_map_eq.
    intros key H1 H2 H3. by rewrite !lookup_insert_ne.
  - intros s k Hsk Hp. eexists. split.
    { eapply build_policy_run; [done..|]. intros w'.
      destruct Hsk as [[-> ->]|[-> ->]];
        [by apply init_policy_ourddpg|by apply init_policy_ddpg]. }
    cbn [trace policy]. by repeat split.
Qed.


(** *** Sums and means of rewards *)

Section ExactArithmetic.
Hypothesis fadd_assoc : ∀ a b c : F, fadd (fadd a b) c = fadd a (fadd b c).
Hypothesis fadd_0_l : ∀ a : F, fadd (float_of_Z 0) a = a.
Hypothesis fadd_0_r : ∀ a : F, fadd a (float_of_Z 0) = a.

Lemma fold_fadd_from (l : list F) :
  ∀ a : F, fold_left fadd l a = fadd a (fold_left fadd l (float_of_Z 0)).
Proof.
  induction l as [|x l IH]; intros a; cbn.
  - by rewrite fadd_0_r.
  - rewrite IH, (IH (fadd _ x)), fadd_0_l. apply fadd_assoc.
Qed.

Lemma fold_all_rewards (eps : list (Obs * list (Obs * F * bool))) :
  ∀ a : F, fold_left fadd (all_rewards eps) a =
           fold_left fadd (map (λ ep, episode_return ep.2) eps) a.
Proof.
  induction eps as [|[o steps] eps IH]; intros a; [done|].
  unfold all_rewards in *. cbn. rewrite fold_left_app, IH. f_equal.
  apply fold_fadd_from.
Qed.
End ExactArithmetic.

(** C7.  [eval_policy] makes an environment of its own (a fresh handle;
    the environments that existed are untouched), seeds it with
    [seed + 100], runs [eval_episodes] complete episodes in which every
    action is [select_action] of the current observation, and returns the
    sum of all rewards, accumulated in the order received, divided by
    [eval_episodes]; where float addition is exact (associative, with 0
    neutral) this is the mean of the per-episode reward sums.  Policy,
    replay buffer, files, generator and clock are as before. *)
Theorem evaluation_is_mean_return (fuel : nat) (name seed s : value) (n : Z) (p : PolSt)
    (e0 : EnvSt) (w : world) :
  episodes_end fuel →
  gym_make name = Some e0 →
  py_add_int seed 100 = inr s →
  policy w = Some p →
  0 < n →
  ∃ eps e_end w' avg,
    eval_policy fuel name seed n w = (w', inr avg) ∧
    envs w' = envs w ++ [e_end] ∧
    are_episodes p (env_seed e0 s) eps e_end ∧
    Z.of_nat (length eps) = n ∧
    trace w' = trace w ++ eval_events name s (length (envs w)) p eps n avg ∧
    policy w' = policy w ∧ replay_buffer w' = replay_buffer w ∧
    fs w' = fs w ∧ rng w' = rng w ∧ clk w' = clk w ∧
    (∀ z, seed = VInt z → s = VInt (z + 100)) ∧
    avg = fdiv (fold_left fadd (all_rewards eps) (float_of_Z 0)) (float_of_Z n) ∧
    ((∀ a b c : F, fadd (fadd a b) c = fadd a (fadd b c)) →
     (∀ a : F, fadd (float_of_Z 0) a = a) →
     (∀ a : F, fadd a (float_of_Z 0) = a) →
     avg = mean_return eps n).
Proof.
  intros Hend Hmake Hseed Hp Hn.
  destruct (eval_policy_run fuel name seed s n p e0 Hend Hmake Hseed)
    as (eps & e_end & Hlen & Heps & Hrun); [lia|].
  specialize (Hrun w Hp). cbn zeta in Hrun.
  eexists eps, e_end, _, _. split; [exact Hrun|]. cbn [envs trace policy replay_buffer fs rng clk].
  repeat split; try done.
  - rewrite Hlen. lia.
  - intros z ->. cbn in Hseed. by injection Hseed as <-.
  - intros H1 H2 H3. unfold mean_return. f_equal. by apply fold_all_rewards.
Qed.

(** *** The result file *)

(** Lines 87-116 make the calls of [prepare_fs] on the disk, in its order,
    and stop at the first that raises. *)
Lemma prepare_results_run (d : dict) (c : config) (w : world) :
  reads d c →
  prepare_results d w =
    (mkWorld (prepare_fs c (fs w)).1 (envs w) (policy w) (replay_buffer w) (rng w)
       (clk w) (trace w ++ banner c),
     match (prepare_fs c (fs w)).2 with
     | None => inr (res_path c)
     | Some e => inl e
     end).
Proof.
  intros R. unfold prepare_results.
  rewrite bind_print, (bind_getattr _ _ _ _ _ (rd_policy _ _ R)),
    (bind_getattr _ _ _ _ _ (rd_env _ _ R)), (bind_getattr _ _ _ _ _ (rd_seed _ _ R)),
    !bind_print.
  rewrite (bind_output_dirs d (cfg_dest_res_path c) (cfg_dest_model_path c)
             (cfg_save_model c)); [|apply R|apply R|intros _; apply R].
  unfold prepare_fs, then_fs. wsimpl.
  destruct (output_dirs _ _ _ (fs w)) as [st1 [e1|]]; cbn [fst snd].
  { by rewrite <- !app_assoc. }
  rewrite (bind_getattr _ _ _ _ _ (rd_dest_res_path _ _ R)),
    (bind_getattr _ _ _ _ _ (rd_file_name _ _ R)).
  cbn [py_str]. fold (res_path c). cbn zeta.
  rewrite (bind_result_file d c _ _ R). wsimpl.
  destruct (result_file c st1) as [st2 [e2|]]; cbn [fst snd].
  - by rewrite <- !app_assoc.
  - unfold ret. by rewrite <- !app_assoc.
Qed.

Lemma prepare_results_ok (d : dict) (c : config) (w : world) :
  reads d c →
  (prepare_fs c (fs w)).2 = None →
  prepare_results d w =
    (mkWorld (prepare_fs c (fs w)).1 (envs w) (policy w) (replay_buffer w) (rng w)
       (clk w) (trace w ++ banner c),
     inr (res_path c)).
Proof. intros R H. rewrite (prepare_results_run d c w R). by rewrite H. Qed.


(** *** Counting train calls *)

Lemma train_calls_app (a b : list (event F Obs)) :
  train_calls (a ++ b) = train_calls a + train_calls b.
Proof. unfold train_calls. rewrite List.filter_app, length_app. lia. Qed.

Lemma train_calls_episode (p : PolSt) (id : nat) (steps : list (Obs * F * bool)) :
  ∀ o, train_calls (episode_events p id o steps) = 0.
Proof. induction steps as [|[[o' r] d] rest IH]; intros o; [done|]. apply IH. Qed.

Lemma train_calls_episodes (p : PolSt) (id : nat)
    (eps : list (Obs * list (Obs * F * bool))) :
  train_calls (episodes_events p id eps) = 0.
Proof.
  induction eps as [|[o steps] rest IH]; [done|].
  cbn [episodes_events]. change (EReset id o :: ?l) with ([EReset id o] ++ l).
  rewrite !train_calls_app, train_calls_episode, IH. done.
Qed.

Lemma train_calls_eval (name s : value) (id : nat) (p : PolSt)
    (eps : list (Obs * list (Obs * F * bool))) (n : Z) (avg : F) :
  train_calls (eval_events name s id p eps n avg) = 0.
Proof.
  unfold eval_events.
  change (EGymMake name id :: EEnvSeed id s :: ?l)
    with ([EGymMake name id; EEnvSeed id s] ++ l).
  by rewrite !train_calls_app, train_calls_episodes.
Qed.

Lemma bind_the_policy {B} (k : PolSt → M' B) (w : world) (p : PolSt) :
  policy w = Some p → bind the_policy k w = k p w.
Proof. intros H. unfold bind, the_policy. by rewrite H. Qed.

Lemma bind_the_buffer {B} (k : Buf → M' B) (w : world) (b : Buf) :
  replay_buffer w = Some b → bind the_buffer k w = k b w.
Proof. intros H. unfold bind, the_buffer. by rewrite H. Qed.

Lemma bind_the_env {B} (id : nat) (k : EnvSt → M' B) (w : world) (e : EnvSt) :
  envs w !! id = Some e → bind (the_env id) k w = k e w.
Proof. intros H. unfold bind, the_env. by rewrite H. Qed.

(** *** Setup (lines 119-168) *)

Lemma make_env_run (d : dict) (c : config) (w : world) (e0 : EnvSt) :
  reads d c →
  gym_make (cfg_env c) = Some e0 →
  let id := length (envs w) in
  let sd := set_seeds (cfg_seed c) e0 (rng w) in
  make_env d w =
    (mkWorld (fs w) (envs w ++ [sd.1]) (policy w) (replay_buffer w) sd.2 (clk w)
       (trace w ++ [EGymMake (cfg_env c) id; ESetSeeds (cfg_seed c) id]),
     inr id).
Proof.
  intros R Hmake. cbn zeta. unfold make_env.
  rewrite (bind_getattr _ _ _ _ _ (rd_env _ _ R)).
  unfold bind at 1, gym_make_m. rewrite Hmake.
  rewrite (bind_getattr _ _ _ _ _ (rd_seed _ _ R)).
  unfold set_seeds_m, the_env. unfold bind, ret. wsimpl. rewrite lookup_snoc.
  destruct (set_seeds _ _ _) as [e1 g1]. wsimpl.
  by rewrite insert_snoc, <- app_assoc.
Qed.

Lemma init_policy_run (d : dict) (c : config) (e : EnvSt) (k : policy_kind)
    (kwargs : dict) (w : world) :
  reads d c →
  policy_spec c e = Some (k, kwargs) →
  init_policy d
    (base_kwargs (obs_dim e) (act_dim e) (act_high0 e) (cfg_discount c) (cfg_tau c))
    (act_high0 e) w = construct k kwargs w.
Proof.
  intros R. unfold policy_spec. cbn zeta.
  pose proof (rd_policy _ _ R) as Hp.
  destruct (String.eqb_spec (cfg_policy c) "TD3") as [E|_].
  { rewrite E in Hp.
    destruct (py_as_float "*" (cfg_policy_noise c)) as [|x] eqn:Hx; [done|].
    destruct (py_as_float "*" (cfg_noise_clip c)) as [|y] eqn:Hy; [done|].
    intros [= <- <-]. eapply init_policy_td3; try apply R; done. }
  destruct (String.eqb_spec (cfg_policy c) "OurDDPG") as [E|_].
  { rewrite E in Hp. intros [= <- <-]. by apply init_policy_ourddpg. }
  destruct (String.eqb_spec (cfg_policy c) "DDPG") as [E|_]; [|done].
  rewrite E in Hp. intros [= <- <-]. by apply init_policy_ddpg.
Qed.

Lemma maybe_load_run (d : dict) (c : config) (w : world) (p p' : PolSt) :
  reads d c →
  policy w = Some p →
  start_policy c (fs w) p = inr p' →
  ∃ evs,
    maybe_load d w =
      (mkWorld (fs w) (envs w) (Some p') (replay_buffer w) (rng w) (clk w)
         (trace w ++ evs), inr tt) ∧
    train_calls evs = 0.
Proof.
  intros R Hp. unfold start_policy, maybe_load.
  rewrite (bind_getattr _ _ _ _ _ (rd_load_model _ _ R)).
  destruct (py_eq_str (cfg_load_model c) "") eqn:E; cbn [negb].
  - intros [= <-]. exists []. split; [|done]. unfold ret. rewrite app_nil_r, <- Hp.
    by rewrite world_eta.
  - intros Hload. rewrite (bind_getattr _ _ _ _ _ (rd_load_model _ _ R)).
    exists [EPolicyLoad (load_path c)]. split; [|done].
    assert (bind (if py_eq_str (cfg_load_model c) "default"
                  then getattr d "file_name" else getattr d "load_model")
              (λ policy_file, policy_load_m ("./models/" +:+ py_str policy_file)) w =
            policy_load_m (load_path c) w) as ->.
    { unfold load_path. destruct (py_eq_str (cfg_load_model c) "default").
      - by rewrite (bind_getattr _ _ _ _ _ (rd_file_name _ _ R)).
      - by rewrite (bind_getattr _ _ _ _ _ (rd_load_model _ _ R)). }
    unfold policy_load_m. rewrite (bind_the_policy _ _ _ Hp). by rewrite Hload.
Qed.

Lemma run_eval_run (fuel : nat) (d : dict) (c : config) (w0 w : world) (p : PolSt) :
  reads d c → equipped fuel c w0 →
  policy w = Some p →
  ∃ s eps e_end avg,
    py_add_int (cfg_seed c) 100 = inr s ∧
    Z.of_nat (length eps) = default_eval_episodes ∧
    avg = fdiv (fold_left fadd (all_rewards eps) (float_of_Z 0))
               (float_of_Z default_eval_episodes) ∧
    score fuel c p avg ∧
    run_eval fuel d w =
      (mkWorld (fs w) (envs w ++ [e_end]) (policy w) (replay_buffer w) (rng w) (clk w)
         (trace w ++ eval_events (cfg_env c) s (length (envs w)) p eps
                       default_eval_episodes avg),
       inr avg).
Proof.
  intros R Y Hp. destruct (eqp_env _ _ _ Y) as [e0 He0].
  destruct (eqp_seed _ _ _ Y) as [s Hs].
  destruct (eval_policy_run fuel (cfg_env c) (cfg_seed c) s default_eval_episodes p e0
              (eqp_episodes _ _ _ Y) He0 Hs) as (eps & e_end & Hlen & _ & Hrun); [done|].
  eexists s, eps, e_end, _. split; [done|].
  split; [by rewrite Hlen|]. split; [reflexivity|]. split.
  { intros w1 Hp1. by rewrite (Hrun w1 Hp1). }
  unfold run_eval. rewrite (bind_the_policy _ _ _ Hp).
  rewrite (bind_getattr _ _ _ _ _ (rd_env _ _ R)),
    (bind_getattr _ _ _ _ _ (rd_seed _ _ R)). exact (Hrun w Hp).
Qed.

Ltac with_world E tac :=
  lazymatch type of E with
  | bind _ _ ?w1 = _ => tac w1
  end.

Lemma env_reset_run (id : nat) (w : world) (e : EnvSt) :
  envs w !! id = Some e →
  env_reset_m id w =
    (mkWorld (fs w) (<[id:=(env_reset e).2]> (envs w)) (policy w) (replay_buffer w)
       (rng w) (clk w) (trace w ++ [EReset id (env_reset e).1]),
     inr (env_reset e).1).
Proof.
  intros He. unfold env_reset_m. rewrite (bind_the_env _ _ _ _ He).
  by destruct (env_reset e) as [o e'].
Qed.

(** A row appended to the result file on a good disk. *)
Lemma write_eval_run (c : config) (e : EnvSt) (Sound : PolSt → Prop) (G : FsSt → Prop)
    (a b n g s : value) (w : world) :
  supports c e Sound G → G (fs w) →
  let st := (fs_append (fs w) (res_path c) [Row [a; b; n; g; s]]).1 in
  write_eval_to_csv (res_path c) a b n g s w = (set_fs st w, inr tt) ∧
  G st ∧
  ∀ old, fs_read (fs w) (res_path c) = Some old →
         fs_read st (res_path c) = Some (old ++ [Row [a; b; n; g; s]]).
Proof.
  intros Hsup HG. cbn zeta.
  destruct (sup_append _ _ _ _ Hsup (fs w) [Row [a; b; n; g; s]] HG) as (Hok & HG' & Hrd).
  split; [|by split].
  unfold write_eval_to_csv, append_lines, fs_call. cbn zeta. by rewrite Hok.
Qed.

Lemma setup_run (fuel : nat) (d : dict) (c : config) (w0 w : world) (e0 : EnvSt) :
  reads d c → equipped fuel c w0 →
  gym_make (cfg_env c) = Some e0 →
  rng w = rng w0 →
  fs w = (prepare_fs c (fs w0)).1 →
  let e := (set_seeds (cfg_seed c) e0 (rng w0)).1 in
  ∃ Sound G w' ls evs avg p,
    setup fuel d (res_path c) w = (w', inr ls) ∧
    supports c e Sound G ∧
    G (fs w') ∧
    res_file ls = res_path c ∧
    env ls = length (envs w) ∧
    action_dim ls = act_dim e ∧
    grad_steps ls = 0 ∧
    start_time ls = perf_clock (clk w) ∧
    clk w' = S (clk w) ∧
    fs_read (fs w') (res_path c) = Some (base_content c w0 ++ [initial_row c avg]) ∧
    is_Some (envs w' !! env ls) ∧
    policy w' = Some p ∧ Sound p ∧ score fuel c p avg ∧
    is_Some (replay_buffer w') ∧
    trace w' = trace w ++ evs ∧
    train_calls evs = 0.
Proof.
  intros R Y He0 Hrng Hfs. cbn zeta.
  destruct (eqp_run _ _ _ Y e0 He0)
    as (Sound & G & k & kwargs & p & Hsup & HG & Hspec & Hstart & Hsound).
  cbn zeta in Hsup, Hspec. rewrite <- Hfs in HG, Hstart. rewrite <- Hrng in Hsup, Hspec |- *.
  exists Sound, G.
  destruct (setup fuel d (res_path c) w) as [w' r] eqn:E. unfold setup in E.
  rewrite (bind_run _ _ _ _ _ (make_env_run d c w e0 R He0)) in E.
  set (e1 := (set_seeds (cfg_seed c) e0 (rng w)).1) in *.
  with_world E ltac:(fun w1 =>
    assert (envs w1 !! length (envs w) = Some e1) as Hl1 by apply lookup_snoc).
  rewrite (bind_run _ _ _ _ _
             (build_policy_run d _ _ e1 _ _ k kwargs Hl1 (rd_discount _ _ R)
                (rd_tau _ _ R) (λ w', init_policy_run d c e1 k kwargs w' R Hspec))) in E.
  clear Hl1.
  with_world E ltac:(fun w1 =>
    destruct (maybe_load_run d c w1 (policy_new k kwargs) p R eq_refl Hstart)
      as (evs1 & Hload & Hc1)).
  rewrite (bind_run _ _ _ _ _ Hload) in E. clear Hload.
  unfold bind at 1 in E. unfold buffer_new_m at 1 in E. wsimpl.
  with_world E ltac:(fun w1 =>
    destruct (run_eval_run fuel d c w0 w1 p R Y eq_refl)
      as (s & eps & e_end & avg & _ & _ & _ & Hscore & Heval)).
  rewrite (bind_run _ _ _ _ _ Heval) in E. clear Heval. wsimpl.
  rewrite (bind_getattr _ _ _ _ _ (rd_seed _ _ R)) in E.
  with_world E ltac:(fun w1 =>
    destruct (write_eval_run c e1 Sound G (VFloat avg) (VInt 0) (VInt 0) (VInt 0)
                (cfg_seed c) w1 Hsup HG) as (Hwrite & HG' & Hread)).
  cbn zeta in Hwrite, HG', Hread.
  rewrite (bind_run _ _ _ _ _ Hwrite) in E. clear Hwrite. wsimpl.
  with_world E ltac:(fun w1 =>
    assert (envs w1 !! length (envs w) = Some e1) as Hl1
      by (cbn; rewrite lookup_app_l by (rewrite length_app; cbn; lia);
          apply lookup_snoc)).
  rewrite (bind_run _ _ _ _ _ (env_reset_run (length (envs w)) _ e1 Hl1)) in E.
  clear Hl1.
  unfold bind, perf_counter, ret in E. wsimpl.
  injection E as <- <-.
  eexists _, _, _, avg, p. split; [reflexivity|]. cbn.
  split; [done|]. split; [done|].
  do 6 (split; [done|]). split.
  { destruct (sup_read _ _ _ _ Hsup _ HG) as [old Hold].
    rewrite (Hread old Hold). unfold base_content, initial_row.
    by rewrite <- Hfs, Hold. }
  split.
  { eexists. apply list_lookup_insert_eq. rewrite !length_app. cbn. lia. }
  do 3 (split; [done|]). split; [by eexists|]. split.
  - rewrite <- !app_assoc. reflexivity.
  - rewrite !train_calls_app, Hc1, train_calls_eval. done.
Qed.


(** *** The exception of an unknown selector *)

Lemma init_policy_none (args kwargs : dict) (ma : F) (s : string) (w : world) :
  args !! "policy" = Some (VStr s) →
  s ≠ "TD3" → s ≠ "OurDDPG" → s ≠ "DDPG" →
  init_policy args kwargs ma w = (w, inr tt).
Proof.
  intros Hs H1 H2 H3. unfold init_policy, bind, getattr, lift. rewrite Hs. cbn.
  apply String.eqb_neq in H1, H2, H3. by rewrite H1, H2, H3.
Qed.

Lemma bind_the_policy_unbound {B} (k : PolSt → M' B) (w : world) :
  policy w = None → bind the_policy k w = (w, inl (UnboundLocalError "policy")).
Proof. intros H. unfold bind, the_policy. by rewrite H. Qed.

Lemma maybe_load_unbound (d : dict) (c : config) (w : world) :
  reads d c → policy w = None →
  maybe_load d w = (w, inl (UnboundLocalError "policy")) ∨ maybe_load d w = (w, inr tt).
Proof.
  intros R Hp. unfold maybe_load.
  rewrite (bind_getattr _ _ _ _ _ (rd_load_model _ _ R)).
  destruct (py_eq_str (cfg_load_model c) ""); cbn [negb]; [by right|left].
  rewrite (bind_getattr _ _ _ _ _ (rd_load_model _ _ R)).
  destruct (py_eq_str (cfg_load_model c) "default").
  - rewrite (bind_getattr _ _ _ _ _ (rd_file_name _ _ R)).
    unfold policy_load_m. by apply bind_the_policy_unbound.
  - rewrite (bind_getattr _ _ _ _ _ (rd_load_model _ _ R)).
    unfold policy_load_m. by apply bind_the_policy_unbound.
Qed.

Lemma setup_unbound (fuel : nat) (d : dict) (c : config) (w : world) (res : string) :
  reads d c → is_Some (gym_make (cfg_env c)) → policy w = None →
  cfg_policy c ≠ "TD3" → cfg_policy c ≠ "OurDDPG" → cfg_policy c ≠ "DDPG" →
  (setup fuel d res w).2 = inl (UnboundLocalError "policy").
Proof.
  intros R [e0 He0] Hp H1 H2 H3. unfold setup.
  rewrite (bind_run _ _ _ _ _ (make_env_run d c w e0 R He0)).
  unfold build_policy. erewrite bind_run; cycle 1.
  { erewrite bind_the_env by (cbn; apply lookup_snoc).
    rewrite (bind_getattr _ _ _ _ _ (rd_discount _ _ R)),
      (bind_getattr _ _ _ _ _ (rd_tau _ _ R)).
    unfold bind at 1.
    rewrite (init_policy_none d _ _ (cfg_policy c)); [reflexivity|apply R|done..]. }
  cbn beta iota.
  match goal with |- context [bind (maybe_load d) _ ?w1] =>
    destruct (maybe_load_unbound d c w1 R Hp) as [Hl|Hl] end.
  - by rewrite (bind_fail _ _ _ _ _ Hl).
  - rewrite (bind_run _ _ _ _ _ Hl). unfold bind at 1, buffer_new_m at 1.
    unfold bind at 1. unfold run_eval. by rewrite bind_the_policy_unbound.
Qed.

Lemma main_unbound (fuel : nat) (d : dict) (c : config) (w : world) :
  reads d c → is_Some (gym_make (cfg_env c)) →
  (prepare_fs c (fs w)).2 = None →
  cfg_policy c ≠ "TD3" → cfg_policy c ≠ "OurDDPG" → cfg_policy c ≠ "DDPG" →
  (main fuel d w).2 = inl (UnboundLocalError "policy").
Proof.
  intros R Hmake Hout H1 H2 H3. unfold main. unfold bind at 1, enter_main at 1.
  cbn beta iota.
  rewrite (bind_run _ _ _ _ _
             (prepare_results_ok d c (set_replay_buffer None (set_policy None w)) R Hout)).
  unfold bind at 1.
  match goal with |- context [setup fuel d ?res ?w1] =>
    pose proof (setup_unbound fuel d c w1 res R Hmake eq_refl H1 H2 H3) as Hs;
    destruct (setup fuel d res w1) as [w2 [e|ls]]
  end; cbn in Hs |- *; [by injection Hs as ->|done].
Qed.

Lemma main_output_fails (fuel : nat) (d : dict) (c : config) (w : world) (e : exn) :
  reads d c → (prepare_fs c (fs w)).2 = Some e → (main fuel d w).2 = inl e.
Proof.
  intros R Hout. unfold main. unfold bind at 1, enter_main at 1. cbn beta iota.
  pose proof (prepare_results_run d c (set_replay_buffer None (set_policy None w)) R)
    as Hrun.
  cbn [fs set_replay_buffer set_policy] in Hrun. rewrite Hout in Hrun.
  by rewrite (bind_fail _ _ _ _ _ Hrun).
Qed.

(** C5.  A policy selector that is none of "TD3", "OurDDPG" and "DDPG"
    makes [main] fail at startup: a run on any world ends with an
    exception, the policy is still unbound, and the events it added are
    startup events only (prints, making and seeding the training
    environment, making the buffer): no reset, step or sample of an
    environment, no action selection, no train call.  The exception is
    raised where [policy] is first used (lines 154 or 159): when the rest
    of the configuration is in order, the environment can be made and
    lines 91-116 went through on the disk, it is the unbound-variable error
    for [policy]; when one of the calls of lines 91-116 raised, it is the
    exception of that call. *)
Theorem bad_selector_aborts (fuel : nat) (d : dict) (w : world) (s : string) :
  d !! "policy" = Some (VStr s) →
  s ≠ "TD3" → s ≠ "OurDDPG" → s ≠ "DDPG" →
  ∃ w' e evs,
    main fuel d w = (w', inl e) ∧
    policy w' = None ∧
    trace w' = trace w ++ evs ∧
    Forall startup_event evs ∧
    (∀ c, reads d c → is_Some (gym_make (cfg_env c)) →
          (prepare_fs c (fs w)).2 = None →
          e = UnboundLocalError "policy") ∧
    (∀ c e', reads d c → (prepare_fs c (fs w)).2 = Some e' → e = e').
Proof.
  intros Hs H1 H2 H3.
  assert (aborts (bind (prepare_results d) (λ res,
            bind (setup fuel d res) (λ ls,
              bind (training_loop fuel d ls) (λ _, final_checkpoint d))))) as Hab.
  { apply aborts_bind_r; [apply stays_prepare_results|]. intros res.
    apply aborts_bind_l. by eapply aborts_setup. }
  unfold main, enter_main. unfold bind at 1.
  match goal with |- context [bind ?m ?k ?w0] =>
    destruct (bind m k w0) as [w' r] eqn:E end.
  destruct (Hab (set_replay_buffer None (set_policy None w)) w' r eq_refl E)
    as [[e ->] [Hp (evs & Ht & Hev)]].
  exists w', e, evs. split; [done|]. repeat split; try done.
  - intros c R Hmake Hout. pose proof (rd_policy _ _ R) as Hc. rewrite Hs in Hc.
    injection Hc as ->.
    pose proof (main_unbound fuel d c w R Hmake Hout H1 H2 H3) as Hm.
    unfold main, enter_main in Hm. unfold bind at 1 in Hm. rewrite E in Hm.
    by injection Hm.
  - intros c e' R Hout.
    pose proof (main_output_fails fuel d c w e' R Hout) as Hm.
    unfold main, enter_main in Hm. unfold bind at 1 in Hm. rewrite E in Hm.
    by injection Hm.
Qed.

(** *** Schedule arithmetic *)

Lemma py_range_S (k : nat) :
  py_range (Z.of_nat (S k)) = py_range (Z.of_nat k) ++ [Z.of_nat k].
Proof.
  unfold py_range. rewrite !Nat2Z.id, seq_S, map_app. done.
Qed.

Lemma ticks_S (ef : Z) (k : nat) :
  ticks ef (S k) = ticks ef k ++ (if is_tick ef (Z.of_nat k) then [Z.of_nat k] else []).
Proof.
  unfold ticks. rewrite py_range_S, List.filter_app. cbn.
  by destruct (is_tick ef (Z.of_nat k)).
Qed.

Lemma trained_S (st : Z) (k : nat) :
  trained st (Z.of_nat (S k)) =
  trained st (Z.of_nat k) + (if Z.of_nat k >=? st then 1 else 0).
Proof.
  unfold trained. rewrite Nat2Z.inj_succ. destruct (Z.geb_spec (Z.of_nat k) st); lia.
Qed.

Lemma tick_rows_snoc (c : config) (c0 : nat) (ts : list Z) (t : Z) (a : F) :
  ∀ (j : nat) (avgs : list F),
    length avgs = length ts →
    tick_rows c c0 j (ts ++ [t]) (avgs ++ [a]) =
    tick_rows c c0 j ts avgs ++ [tick_row c c0 (j + length ts) t a].
Proof.
  induction ts as [|t' ts IH]; intros j [|a' avgs] Hlen; try done.
  - cbn. by rewrite Nat.add_0_r.
  - cbn. rewrite IH by (cbn in Hlen; lia).
    by replace (j + S (length ts))%nat with (S j + length ts)%nat by lia.
Qed.

Lemma for_loop_app (body : Z → locals → M' locals) (l1 l2 : list Z) :
  ∀ (ls : locals) (w : world),
    for_loop body (l1 ++ l2) ls w = bind (for_loop body l1 ls) (for_loop body l2) w.
Proof.
  induction l1 as [|t l1 IH]; intros ls w; [done|].
  cbn [app for_loop]. rewrite bind_assoc. apply bind_ext. intros ls1 w1. apply IH.
Qed.

Lemma for_loop_snoc (body : Z → locals → M' locals) (l : list Z) (t : Z) (ls : locals)
    (w : world) :
  for_loop body (l ++ [t]) ls w = bind (for_loop body l ls) (body t) w.
Proof.
  rewrite for_loop_app. apply bind_ext. intros ls1 w1. cbn [for_loop].
  apply bind_ret_r.
Qed.

Lemma run_prefix_S (fuel : nat) (d : dict) (k : nat) (w : world) :
  run_prefix fuel d (S k) w =
  bind (run_prefix fuel d k) (loop_body fuel d (Z.of_nat k)) w.
Proof.
  unfold run_prefix. rewrite bind_assoc. apply bind_ext. intros _ w1.
  rewrite bind_assoc. apply bind_ext. intros res w2.
  rewrite bind_assoc. apply bind_ext. intros ls w3.
  rewrite py_range_S. apply for_loop_snoc.
Qed.

(** *** The phases of one iteration *)

Lemma interact_run (fuel : nat) (d : dict) (c : config) (w0 w : world)
    (Sound : PolSt → Prop) (G : FsSt → Prop) (e : EnvSt) (t : Z) (ls : locals) :
  reads d c → equipped fuel c w0 → Inv c Sound G e ls w →
  ∃ w' ls' done b tr pre,
    interact d t ls w = (w', inr (ls', done)) ∧ Inv c Sound G e ls' w' ∧
    grad_steps ls' = grad_steps ls ∧
    start_time ls' = start_time ls ∧
    clk w' = clk w ∧
    fs w' = fs w ∧
    policy w' = policy w ∧
    replay_buffer w = Some b ∧
    replay_buffer w' = Some (buffer_add b tr) ∧
    trace w' = trace w ++ pre ++ [EBufferAdd tr] ∧
    train_calls pre = 0.
Proof.
  intros R Y [Hsup Hres (p & Hp & Hsound) [b Hb] [e1 He] Hdim HG].
  unfold interact. destruct (Z.ltb_spec t (cfg_start_timesteps c)) as [Hlt|Hge].
  - erewrite bind_run; cycle 1.
    { eapply choose_action_warm_up; [apply R| |exact He].
      cbn. by destruct (Z.ltb_spec t (cfg_start_timesteps c)); [|lia]. }
    erewrite step_and_store_run; wsimpl;
      [|apply list_lookup_insert_eq; by eapply lookup_lt_Some|exact Hb].
    eexists _, _, _, b, _, [_; _]. split; [reflexivity|]. split.
    + constructor; cbn; eauto.
      eexists. apply list_lookup_insert_eq. rewrite length_insert.
      by eapply lookup_lt_Some.
    + cbn. do 6 (split; [done|]). split; [reflexivity|].
      split; [by rewrite <- app_assoc|done].
  - destruct (eqp_expl_noise _ _ _ Y) as [x Hx].
    destruct (sup_shape _ _ _ _ Hsup p (state ls) (rng w) (fmul (max_action ls) x)
                Hsound) as [v Hv].
    rewrite <- Hdim in Hv.
    erewrite bind_run; cycle 1.
    { erewrite choose_action_policy; [|apply R| |exact Hp|apply R|exact Hx].
      2:{ cbn. by destruct (Z.ltb_spec t (cfg_start_timesteps c)); [lia|]. }
      by rewrite Hv. }
    erewrite step_and_store_run; wsimpl; [|exact He|exact Hb].
    eexists _, _, _, b, _, [_; _; _]. split; [reflexivity|]. split.
    + constructor; cbn; eauto.
      eexists. apply list_lookup_insert_eq. by eapply lookup_lt_Some.
    + cbn. do 6 (split; [done|]). split; [reflexivity|].
      split; [by rewrite <- app_assoc|done].
Qed.

Lemma train_phase_run (d : dict) (c : config) (w : world) (Sound : PolSt → Prop)
    (G : FsSt → Prop) (e : EnvSt) (t : Z) (ls : locals) :
  reads d c → Inv c Sound G e ls w →
  ∃ w' ls' evs,
    train_phase d t ls w = (w', inr ls') ∧ Inv c Sound G e ls' w' ∧
    start_time ls' = start_time ls ∧
    clk w' = clk w ∧
    fs w' = fs w ∧
    replay_buffer w' = replay_buffer w ∧
    trace w' = trace w ++ evs ∧
    if t >=? cfg_start_timesteps c
    then grad_steps ls' = grad_steps ls + 1 ∧
         evs = [ETrain (cfg_batch_size c)] ∧
         ∃ p b, policy w = Some p ∧ replay_buffer w = Some b ∧
                policy w' = Some (policy_train p b (cfg_batch_size c) (rng w)).1 ∧
                rng w' = (policy_train p b (cfg_batch_size c) (rng w)).2
    else grad_steps ls' = grad_steps ls ∧ evs = [] ∧
         policy w' = policy w ∧ rng w' = rng w.
Proof.
  intros R [Hsup Hres (p & Hp & Hsound) [b Hb] [e1 He] Hdim HG].
  unfold train_phase.
  rewrite (bind_getattr _ _ _ _ _ (rd_start_timesteps _ _ R)). cbn [py_int_ge].
  rewrite (bind_lift _ (t >=? cfg_start_timesteps c)) by done.
  destruct (t >=? cfg_start_timesteps c).
  - unfold policy_train_m. unfold bind at 1.
    rewrite (bind_the_policy _ _ _ Hp), (bind_the_buffer _ _ _ Hb),
      (bind_getattr _ _ _ _ _ (rd_batch_size _ _ R)).
    pose proof (sup_train _ _ _ _ Hsup p b (rng w) Hsound) as Hsound'.
    destruct (policy_train p b (cfg_batch_size c) (rng w)) as [p' g] eqn:Et. unfold ret.
    eexists _, _, _. split; [reflexivity|]. split.
    + constructor; cbn; eauto.
    + cbn. do 4 (split; [done|]). split; [reflexivity|]. do 2 (split; [done|]).
      exists p, b. by rewrite Et.
  - exists w, ls, []. split; [done|]. split; [by constructor; eauto|].
    rewrite app_nil_r. by repeat split.
Qed.

Lemma episode_end_run (c : config) (w : world) (Sound : PolSt → Prop) (G : FsSt → Prop)
    (e : EnvSt) (t : Z) (ls : locals) :
  Inv c Sound G e ls w →
  ∃ w' ls',
    episode_end t ls w = (w', inr ls') ∧ Inv c Sound G e ls' w' ∧
    unchanged ls w ls' w' ∧
    replay_buffer w' = replay_buffer w ∧ rng w' = rng w.
Proof.
  intros [Hsup Hres (p & Hp & Hsound) [b Hb] [e1 He] Hdim HG]. unfold episode_end.
  rewrite bind_print.
  erewrite bind_run; [|by apply env_reset_run]. unfold ret.
  eexists _, _. split; [reflexivity|]. split.
  - constructor; cbn; eauto. eexists. apply list_lookup_insert_eq.
    by eapply lookup_lt_Some.
  - repeat split. eexists. cbn. split; [by rewrite <- app_assoc|done].
Qed.

(** The checkpoint of lines 224-225 and 243-244 on a good disk. *)
Lemma save_checkpoint_run (d : dict) (c : config) (w : world) (Sound : PolSt → Prop)
    (G : FsSt → Prop) (e : EnvSt) (p : PolSt) :
  reads d c → supports c e Sound G →
  policy w = Some p → Sound p → G (fs w) →
  ∃ st,
    (if truthy (cfg_save_model c) then save_checkpoint d else ret ()) w =
      (mkWorld st (envs w) (policy w) (replay_buffer w) (rng w) (clk w)
         (trace w ++ checkpoint_events c), inr tt) ∧
    G st ∧ fs_read st (res_path c) = fs_read (fs w) (res_path c).
Proof.
  intros R Hsup Hp Hsound HG. unfold checkpoint_events.
  destruct (truthy (cfg_save_model c)) eqn:Es.
  - destruct (sup_save _ _ _ _ Hsup Es (fs w) p HG Hsound) as (Hok & HG' & Hrd).
    exists (policy_save (fs w) p (save_path c)).1. split; [|done].
    unfold save_checkpoint. rewrite (bind_the_policy _ _ _ Hp).
    rewrite (bind_getattr _ _ _ _ _ (rd_dest_model_path _ _ R)),
      (bind_getattr _ _ _ _ _ (rd_file_name _ _ R)).
    unfold policy_save_m. rewrite (bind_the_policy _ _ _ Hp). cbn [py_str].
    fold (save_path c). cbn zeta. by rewrite Hok.
  - exists (fs w). split; [|done]. unfold ret. by rewrite app_nil_r, world_eta.
Qed.

Lemma eval_phase_skip (fuel : nat) (d : dict) (c : config) (w0 w : world) (t : Z)
    (ls : locals) :
  reads d c → ready fuel c w0 →
  is_tick (cfg_eval_freq c) t = false →
  eval_phase fuel d t ls w = (w, inr ls).
Proof.
  intros R Y Htick. unfold eval_phase.
  rewrite (bind_getattr _ _ _ _ _ (rd_eval_freq _ _ R)). cbn [py_int_mod_is_zero].
  destruct (Z.eqb_spec (cfg_eval_freq c) 0) as [E|_];
    [by apply (rdy_eval_freq _ _ _ Y) in E|].
  fold (is_tick (cfg_eval_freq c) t). rewrite Htick.
  rewrite (bind_lift _ false) by done. done.
Qed.

Lemma eval_phase_tick (fuel : nat) (d : dict) (c : config) (w0 w : world)
    (Sound : PolSt → Prop) (G : FsSt → Prop) (e : EnvSt) (t : Z) (ls : locals)
    (rows : list (fline F)) (p : PolSt) :
  reads d c → ready fuel c w0 →
  supports c e Sound G → G (fs w) → Sound p →
  res_file ls = res_path c →
  fs_read (fs w) (res_path c) = Some rows →
  policy w = Some p →
  is_tick (cfg_eval_freq c) t = true →
  ∃ s eps e_end avg st,
    py_add_int (cfg_seed c) 100 = inr s ∧
    Z.of_nat (length eps) = default_eval_episodes ∧
    avg = fdiv (fold_left fadd (all_rewards eps) (float_of_Z 0))
               (float_of_Z default_eval_episodes) ∧
    score fuel c p avg ∧
    G st ∧
    fs_read st (res_path c) =
      Some (rows ++
              [Row [VFloat avg; VFloat (fsub (perf_clock (clk w)) (start_time ls));
                    VInt (t + 1); VInt (grad_steps ls); cfg_seed c]]) ∧
    eval_phase fuel d t ls w =
      (mkWorld st (envs w ++ [e_end]) (policy w) (replay_buffer w) (rng w)
         (S (S (S (clk w))))
         (trace w ++ tick_events (clk w)
            (eval_events (cfg_env c) s (length (envs w)) p eps default_eval_episodes avg)
            (checkpoint_events c)),
       inr (mkLocals (res_file ls) (env ls) (max_action ls) (action_dim ls) (state ls)
              (episode_reward ls) (episode_timesteps ls) (episode_num ls) (grad_steps ls)
              (fadd (start_time ls)
                 (fsub (perf_clock (S (S (clk w)))) (perf_clock (S (clk w))))))).
Proof.
  intros R Y Hsup HG Hsound Hres Hrows Hp Htick.
  destruct (eval_phase fuel d t ls w) as [w' r] eqn:E. unfold eval_phase in E.
  rewrite (bind_getattr _ _ _ _ _ (rd_eval_freq _ _ R)) in E.
  cbn [py_int_mod_is_zero] in E.
  destruct (Z.eqb_spec (cfg_eval_freq c) 0) as [E0|_];
    [by apply (rdy_eval_freq _ _ _ Y) in E0|].
  fold (is_tick (cfg_eval_freq c) t) in E. rewrite Htick in E.
  rewrite (bind_lift _ true) in E by done.
  unfold bind at 1, perf_counter at 1 in E.
  unfold bind at 1, perf_counter at 1 in E. wsimpl.
  with_world E ltac:(fun w1 =>
    destruct (run_eval_run fuel d c w0 w1 p R (rdy_equipped _ _ _ Y) Hp)
      as (s & eps & e_end & avg & Hs & Hlen & Havg & Hscore & Heval)).
  rewrite (bind_run _ _ _ _ _ Heval) in E. clear Heval. wsimpl.
  rewrite (bind_getattr _ _ _ _ _ (rd_seed _ _ R)) in E.
  rewrite Hres in E.
  with_world E ltac:(fun w1 =>
    destruct (write_eval_run c e Sound G (VFloat avg)
                (VFloat (fsub (perf_clock (clk w)) (start_time ls))) (VInt (t + 1))
                (VInt (grad_steps ls)) (cfg_seed c) w1 Hsup HG)
      as (Hwrite & HG' & Hread)).
  cbn zeta in Hwrite, HG', Hread. cbn [fs] in HG', Hread.
  rewrite (bind_run _ _ _ _ _ Hwrite) in E. clear Hwrite. wsimpl.
  rewrite (bind_getattr _ _ _ _ _ (rd_save_model _ _ R)) in E.
  with_world E ltac:(fun w1 =>
    destruct (save_checkpoint_run d c w1 Sound G e p R Hsup Hp Hsound HG')
      as (st & Hsave & HG'' & Hread')).
  rewrite (bind_run _ _ _ _ _ Hsave) in E. clear Hsave.
  cbn [fs] in Hread'.
  wsimpl. unfold bind, perf_counter, ret in E. wsimpl.
  injection E as <- <-.
  exists s, eps, e_end, avg, st. split; [done|]. split; [done|]. split; [done|].
  split; [done|]. split; [done|]. split; [by rewrite Hread', (Hread _ Hrows)|].
  rewrite Hres. unfold tick_events. by rewrite <- !app_assoc.
Qed.

Lemma train_calls_checkpoint (c : config) :
  train_calls (checkpoint_events c : list (event F Obs)) = 0.
Proof. unfold checkpoint_events. by destruct (truthy (cfg_save_model c)). Qed.

Lemma train_calls_tick (c : config) (n : nat) (s : value) (id : nat) (p : PolSt)
    (eps : list (Obs * list (Obs * F * bool))) (avg : F) :
  train_calls (tick_events n (eval_events (cfg_env c) s id p eps default_eval_episodes avg)
                 (checkpoint_events c)) = 0.
Proof.
  unfold tick_events.
  by rewrite !train_calls_app, train_calls_eval, train_calls_checkpoint.
Qed.

Lemma scored_next (fuel : nat) (d : dict) (c : config) (w0 w : world) (ls : locals)
    (k : nat) (p : PolSt) (avg : F) :
  run_prefix fuel d k w0 = (w, inr ls) →
  policy w = Some p → score fuel c p avg →
  scored fuel d c w0 k avg.
Proof. intros Hrun Hp Hs. exists p. by rewrite Hrun. Qed.

(** Lines 209-228 at step [t], with or without an evaluation. *)
Lemma eval_phase_step (fuel : nat) (d : dict) (c : config) (w0 w : world)
    (Sound : PolSt → Prop) (G : FsSt → Prop) (e : EnvSt) (t : Z) (ls : locals)
    (rows : list (fline F)) :
  reads d c → ready fuel c w0 → Inv c Sound G e ls w →
  fs_read (fs w) (res_path c) = Some rows →
  ∃ w' ls' evs,
    eval_phase fuel d t ls w = (w', inr ls') ∧
    Inv c Sound G e ls' w' ∧
    grad_steps ls' = grad_steps ls ∧
    policy w' = policy w ∧ replay_buffer w' = replay_buffer w ∧ rng w' = rng w ∧
    trace w' = trace w ++ evs ∧ train_calls evs = 0 ∧
    if is_tick (cfg_eval_freq c) t
    then clk w' = S (S (S (clk w))) ∧
         start_time ls' =
           fadd (start_time ls)
             (fsub (perf_clock (S (S (clk w)))) (perf_clock (S (clk w)))) ∧
         ∃ p avg,
           policy w = Some p ∧ score fuel c p avg ∧
           fs_read (fs w') (res_path c) =
             Some (rows ++
                     [Row [VFloat avg;
                           VFloat (fsub (perf_clock (clk w)) (start_time ls));
                           VInt (t + 1); VInt (grad_steps ls); cfg_seed c]])
    else w' = w ∧ ls' = ls.
Proof.
  intros R Y I Hrows. destruct (is_tick (cfg_eval_freq c) t) eqn:Htick.
  - pose proof I as [Hsup Hres (p & Hp & Hsound) Hb [e1 He] Hdim HG].
    destruct (eval_phase_tick fuel d c w0 w Sound G e t ls rows p R Y Hsup HG Hsound
                Hres Hrows Hp Htick)
      as (s & eps & e_end & avg & st & Hs & Hn & Havg & Hscore & HG' & Hread & Hrun).
    eexists _, _, _. split; [exact Hrun|]. cbn. split.
    { constructor; cbn; eauto. eexists. apply lookup_app_l_Some. exact He. }
    do 4 (split; [done|]). split; [reflexivity|].
    split; [apply train_calls_tick|]. split; [done|]. split; [done|].
    by exists p, avg.
  - rewrite (eval_phase_skip fuel d c w0 w t ls R Y Htick).
    exists w, ls, []. rewrite app_nil_r. split; [done|]. split; [done|]. done.
Qed.

Lemma trained_once_calls (c : config) (w w' : world) (seg : list (event F Obs)) :
  trained_once c w w' seg → train_calls seg = 1.
Proof.
  intros (p & b & tr & g & pre & post & _ & _ & -> & Hpre & Hpost & _).
  change (EBufferAdd tr :: ETrain (cfg_batch_size c) :: post)
    with ([EBufferAdd tr; ETrain (cfg_batch_size c)] ++ post).
  rewrite !train_calls_app, Hpre, Hpost. done.
Qed.

(** One iteration of the loop. *)
Lemma body_run (fuel : nat) (d : dict) (c : config) (w0 w : world)
    (Sound : PolSt → Prop) (G : FsSt → Prop) (e : EnvSt) (avg0 : F) (k : nat)
    (ls : locals) :
  reads d c → ready fuel c w0 →
  Progress fuel d c Sound G e w0 avg0 k ls w →
  ∃ w' ls' seg,
    loop_body fuel d (Z.of_nat k) ls w = (w', inr ls') ∧
    Progress fuel d c Sound G e w0 avg0 (S k) ls' w' ∧
    trace w' = trace w ++ seg ∧
    if Z.of_nat k >=? cfg_start_timesteps c
    then grad_steps ls' = grad_steps ls + 1 ∧ trained_once c w w' seg
    else grad_steps ls' = grad_steps ls ∧ policy w' = policy w ∧ train_calls seg = 0.
Proof.
  intros R Y [Hrun I Hgrad Hclk Hstart Hfirst (avgs & Hlen & Hfile & Hsc)
              (evs & Htr & Hcalls)].
  destruct (interact_run fuel d c w0 w Sound G e (Z.of_nat k) ls R
              (rdy_equipped _ _ _ Y) I)
    as (w1 & ls1 & done & b & tr & pre & H1 & I1 & G1 & S1 & C1 & F1 & P1 & B0 & B1
        & T1 & N1).
  destruct (train_phase_run d c w1 Sound G e (Z.of_nat k) ls1 R I1)
    as (w2 & ls2 & evs2 & H2 & I2 & S2 & C2 & F2 & B2 & T2 & Hcase).
  assert (∃ w3 ls3 evs3,
    (if done then episode_end (Z.of_nat k) ls2 else ret ls2) w2 = (w3, inr ls3) ∧
    Inv c Sound G e ls3 w3 ∧
    grad_steps ls3 = grad_steps ls2 ∧ start_time ls3 = start_time ls2 ∧
    clk w3 = clk w2 ∧ fs w3 = fs w2 ∧ policy w3 = policy w2 ∧
    replay_buffer w3 = replay_buffer w2 ∧ rng w3 = rng w2 ∧
    trace w3 = trace w2 ++ evs3 ∧ train_calls evs3 = 0)
    as (w3 & ls3 & evs3 & H3 & I3 & G3 & S3 & C3 & F3 & P3 & B3 & R3 & T3 & N3).
  { destruct done.
    - destruct (episode_end_run c w2 Sound G e (Z.of_nat k) ls2 I2)
        as (w3 & ls3 & H3 & I3 & (G3 & S3 & C3 & F3 & P3 & evs3 & T3 & N3) & B3 & R3).
      by exists w3, ls3, evs3.
    - exists w2, ls2, []. by rewrite app_nil_r. }
  assert (fs_read (fs w3) (res_path c) =
          Some (base_content c w0 ++ initial_row c avg0
                  :: tick_rows c (clk w0) 0 (ticks (cfg_eval_freq c) k) avgs)) as Hf3.
  { by rewrite F3, F2, F1. }
  destruct (eval_phase_step fuel d c w0 w3 Sound G e (Z.of_nat k) ls3 _ R Y I3 Hf3)
    as (w4 & ls4 & evs4 & H4 & I4 & G4 & P4 & B4 & R4 & T4 & N4 & Htick).
  assert (loop_body fuel d (Z.of_nat k) ls w = (w4, inr ls4)) as Hbody.
  { unfold loop_body. rewrite (bind_run _ _ _ _ _ H1). cbn beta iota.
    rewrite (bind_run _ _ _ _ _ H2). by rewrite (bind_run _ _ _ _ _ H3). }
  assert (run_prefix fuel d (S k) w0 = (w4, inr ls4)) as Hrun'.
  { by rewrite run_prefix_S, (bind_run _ _ _ _ _ Hrun). }
  assert (trace w4 = trace w ++ pre ++ [EBufferAdd tr] ++ evs2 ++ evs3 ++ evs4) as Ht4.
  { rewrite T4, T3, T2, T1. by rewrite <- !app_assoc. }
  assert (grad_steps ls2 = grad_steps ls1 + (if Z.of_nat k >=? cfg_start_timesteps c
                                             then 1 else 0) ∧
          train_calls evs2 = if Z.of_nat k >=? cfg_start_timesteps c then 1 else 0)
    as [G2 N2].
  { destruct (Z.of_nat k >=? cfg_start_timesteps c).
    - destruct Hcase as (Hg & -> & _). done.
    - destruct Hcase as (Hg & -> & _). split; [lia|done]. }
  assert (grad_steps ls4 = trained (cfg_start_timesteps c) (Z.of_nat (S k))) as Hg4.
  { rewrite trained_S. congruence. }
  assert (train_calls (pre ++ [EBufferAdd tr] ++ evs2 ++ evs3 ++ evs4) =
          if Z.of_nat k >=? cfg_start_timesteps c then 1 else 0) as Hn4.
  { rewrite !train_calls_app, N1, N2, N3, N4.
    change (train_calls [EBufferAdd tr]) with 0. lia. }
  exists w4, ls4, (pre ++ [EBufferAdd tr] ++ evs2 ++ evs3 ++ evs4).
  split; [exact Hbody|]. split; [|split; [exact Ht4|]].
  - constructor; try done.
    + rewrite ticks_S. destruct (is_tick (cfg_eval_freq c) (Z.of_nat k)).
      * destruct Htick as (C4 & _). rewrite length_app. cbn. lia.
      * destruct Htick as [-> ->]. rewrite app_nil_r. congruence.
    + rewrite ticks_S. destruct (is_tick (cfg_eval_freq c) (Z.of_nat k)).
      * destruct Htick as (C4 & S4 & _). rewrite length_app. cbn [length].
        replace (length (ticks (cfg_eval_freq c) k) + 1)%nat
          with (S (length (ticks (cfg_eval_freq c) k))) by lia.
        cbn [origin]. rewrite S4, S3, S2, S1, Hstart, C3, C2, C1, Hclk.
        do 2 f_equal; f_equal; lia.
      * destruct Htick as [-> ->]. rewrite app_nil_r. congruence.
    + rewrite ticks_S. destruct (is_tick (cfg_eval_freq c) (Z.of_nat k)).
      * destruct Htick as (C4 & S4 & p & avg & Hp & Hscore & Hfile4).
        exists (avgs ++ [avg]). split; [rewrite !length_app; cbn; lia|]. split.
        -- rewrite Hfile4, <- app_assoc. f_equal. cbn [app]. f_equal.
           rewrite tick_rows_snoc by done. f_equal.
           unfold tick_row. rewrite G3, G2, G1, Hgrad, <- trained_S.
           rewrite S3, S2, S1, Hstart, C3, C2, C1, Hclk. cbn [Nat.add].
           replace (clk w0 + 3 * length (ticks (cfg_eval_freq c) k) + 1)%nat
             with (clk w0 + 1 + 3 * length (ticks (cfg_eval_freq c) k))%nat by lia.
           by replace (Z.of_nat (S k)) with (Z.of_nat k + 1) by lia.
        -- intros j t a Hj Ha.
           destruct (decide (j < length (ticks (cfg_eval_freq c) k))%nat) as [Hlt|Hge].
           ++ rewrite lookup_app_l in Hj by done.
              rewrite lookup_app_l in Ha by lia. by eapply Hsc.
           ++ rewrite lookup_app_r in Hj by lia. rewrite lookup_app_r in Ha by lia.
              rewrite Hlen in Ha.
              destruct (j - length (ticks (cfg_eval_freq c) k))%nat; [|done].
              cbn in Hj, Ha. injection Hj as <-. injection Ha as <-.
              rewrite Nat2Z.id. eapply scored_next; [exact Hrun'| |exact Hscore].
              by rewrite P4.
      * destruct Htick as [-> ->]. exists avgs. rewrite app_nil_r. by rewrite <- Hf3.
    + eexists. split; [by rewrite Ht4, Htr, <- app_assoc|].
      rewrite train_calls_app, Hcalls, Hn4, trained_S. done.
  - destruct (Z.of_nat k >=? cfg_start_timesteps c).
    + split; [congruence|]. destruct Hcase as (_ & -> & p & b1 & Hp1 & Hb1 & Hp2 & Hr2).
      rewrite B1 in Hb1. injection Hb1 as <-.
      exists p, b, tr, (rng w1), pre, (evs3 ++ evs4).
      split; [congruence|]. split; [done|]. split; [reflexivity|]. split; [done|].
      split; [by rewrite train_calls_app, N3, N4|].
      split; [congruence|]. split; congruence.
    + destruct Hcase as (_ & _ & Hp2 & _). split; [lia|].
      split; [congruence|done].
Qed.


(** *** The loop and the whole run *)

Lemma main_prefix (fuel : nat) (d : dict) (c : config) (w : world) :
  reads d c →
  main fuel d w =
  bind (run_prefix fuel d (Z.to_nat (cfg_max_timesteps c))) (λ _, final_checkpoint d) w.
Proof.
  intros R. unfold main, run_prefix. rewrite bind_assoc. apply bind_ext. intros _ w1.
  rewrite bind_assoc. apply bind_ext. intros res w2.
  rewrite bind_assoc. apply bind_ext. intros ls w3.
  apply bind_ext_l. unfold training_loop.
  rewrite (bind_getattr _ _ _ _ _ (rd_max_timesteps _ _ R)). cbn [py_to_int].
  rewrite (bind_lift _ (cfg_max_timesteps c)) by done.
  unfold py_range. by rewrite Nat2Z.id.
Qed.

Lemma run_prefix_0 (fuel : nat) (d : dict) (c : config) (w : world) :
  reads d c → ready fuel c w →
  ∃ Sound G e w' ls avg0, Progress fuel d c Sound G e w avg0 0 ls w'.
Proof.
  intros R [Y Hef]. destruct (eqp_env _ _ _ Y) as [e0 He0].
  destruct (setup_run fuel d c w
              (mkWorld (prepare_fs c (fs w)).1 (envs w) None None (rng w) (clk w)
                 (trace w ++ banner c)) e0 R Y He0 eq_refl eq_refl)
    as (Sound & G & w' & ls & evs & avg & p & Hrun & Hsup & HG & Hres & Henv & Hdim & Hg
        & Hst & Hclk & Hfile & He & Hp & Hsound & Hscore & Hb & Htr & Hn).
  cbn zeta in Hsup, Hdim. cbn [clk trace] in Hst, Hclk, Htr.
  assert (run_prefix fuel d 0 w = (w', inr ls)) as Hrun0.
  { unfold run_prefix, enter_main. unfold bind at 1.
    rewrite (bind_run _ _ _ _ _
               (prepare_results_ok d c (set_replay_buffer None (set_policy None w)) R
                  (eqp_output _ _ _ Y))).
    wsimpl. rewrite (bind_run _ _ _ _ _ Hrun). done. }
  exists Sound, G, (set_seeds (cfg_seed c) e0 (rng w)).1, w', ls, avg.
  constructor; change (ticks (cfg_eval_freq c) 0) with (@nil Z).
  - exact Hrun0.
  - constructor; eauto.
  - rewrite Hg. unfold trained. cbn. lia.
  - rewrite Hclk. cbn. lia.
  - by rewrite Hst.
  - by eapply scored_next.
  - exists []. split; [done|]. split; [done|]. by intros j t a [=].
  - eexists. split; [rewrite Htr, <- app_assoc; reflexivity|].
    rewrite train_calls_app, Hn. change (train_calls (banner c)) with 0.
    unfold trained. cbn. lia.
Qed.

Lemma run_prefix_run (fuel : nat) (d : dict) (c : config) (w : world) :
  reads d c → ready fuel c w →
  ∃ Sound G e avg0, ∀ k, ∃ w' ls, Progress fuel d c Sound G e w avg0 k ls w'.
Proof.
  intros R Y.
  destruct (run_prefix_0 fuel d c w R Y) as (Sound & G & e & w1 & ls1 & avg0 & P0).
  exists Sound, G, e, avg0. induction k as [|k (wk & lsk & Pk)]; [by eauto|].
  destruct (body_run fuel d c w wk Sound G e avg0 k lsk R Y Pk)
    as (w' & ls' & seg & Hbody & P' & _).
  by exists w', ls'.
Qed.

Lemma final_checkpoint_run (d : dict) (c : config) (w : world) (Sound : PolSt → Prop)
    (G : FsSt → Prop) (e : EnvSt) (ls : locals) :
  reads d c → Inv c Sound G e ls w →
  ∃ st,
    final_checkpoint d w =
      (mkWorld st (envs w) (policy w) (replay_buffer w) (rng w) (clk w)
         (trace w ++ checkpoint_events c), inr tt) ∧
    fs_read st (res_path c) = fs_read (fs w) (res_path c).
Proof.
  intros R [Hsup Hres (p & Hp & Hsound) Hb He Hdim HG]. unfold final_checkpoint.
  rewrite (bind_getattr _ _ _ _ _ (rd_save_model _ _ R)).
  destruct (save_checkpoint_run d c w Sound G e p R Hsup Hp Hsound HG)
    as (st & Hrun & _ & Hread).
  by exists st.
Qed.

(** The whole run, in one statement. *)
Lemma main_run (fuel : nat) (d : dict) (c : config) (w : world) :
  reads d c → ready fuel c w →
  ∃ Sound G e avg0 w' w_end ls_end,
    (∀ k, ∃ wk lsk, Progress fuel d c Sound G e w avg0 k lsk wk) ∧
    Progress fuel d c Sound G e w avg0 (Z.to_nat (cfg_max_timesteps c)) ls_end w_end ∧
    main fuel d w = (w', inr tt) ∧
    fs_read (fs w') (res_path c) = fs_read (fs w_end) (res_path c) ∧
    policy w' = policy w_end ∧
    replay_buffer w' = replay_buffer w_end ∧
    trace w' = trace w_end ++ checkpoint_events c.
Proof.
  intros R Y. destruct (run_prefix_run fuel d c w R Y) as (Sound & G & e & avg0 & Hall).
  destruct (Hall (Z.to_nat (cfg_max_timesteps c))) as (w_end & ls_end & Pend).
  destruct (final_checkpoint_run d c w_end Sound G e ls_end R (pg_inv _ _ _ _ _ _ _ _ _ _ _ Pend))
    as (st & Hfin & Hread).
  eexists Sound, G, e, avg0, _, w_end, ls_end. split; [exact Hall|].
  split; [exact Pend|]. split.
  - rewrite (main_prefix fuel d c w R), (bind_run _ _ _ _ _ (pg_run _ _ _ _ _ _ _ _ _ _ _ Pend)).
    exact Hfin.
  - done.
Qed.


Lemma list_snoc_inv {A} (l : list A) : l = [] ∨ ∃ l' x, l = l' ++ [x].
Proof.
  induction l as [|a l [->|(l' & x & ->)]]; [by left|right..].
  - by exists [], a.
  - by exists (a :: l'), x.
Qed.

(** *** Rows of the result file *)

Lemma tick_rows_length (c : config) (c0 : nat) (ts : list Z) :
  ∀ (j : nat) (avgs : list F),
    length avgs = length ts → length (tick_rows c c0 j ts avgs) = length ts.
Proof.
  induction ts as [|t ts IH]; intros j [|a avgs] Hlen; try done.
  cbn. f_equal. apply IH. cbn in Hlen. lia.
Qed.

Lemma tick_rows_lookup (c : config) (c0 : nat) (ts : list Z) :
  ∀ (j : nat) (avgs : list F) (i : nat) (t : Z) (avg : F),
    ts !! i = Some t → avgs !! i = Some avg →
    tick_rows c c0 j ts avgs !! i = Some (tick_row c c0 (j + i) t avg).
Proof.
  induction ts as [|t' ts IH]; intros j [|a avgs] i t avg Ht Ha; try done.
  destruct i as [|i]; simpl in *.
  - injection Ht as ->. injection Ha as ->. by rewrite Nat.add_0_r.
  - rewrite (IH (S j) avgs i t avg Ht Ha).
    by replace (j + S i)%nat with (S j + i)%nat by lia.
Qed.

Lemma elem_of_ticks (ef : Z) (k : nat) (t : Z) :
  t ∈ ticks ef k ↔ 0 ≤ t < Z.of_nat k ∧ (t + 1) mod ef = 0.
Proof.
  unfold ticks, py_range, is_tick. rewrite list_elem_of_In, List.filter_In.
  rewrite <- list_elem_of_In, list_elem_of_fmap, Nat2Z.id. split.
  - intros [(i & -> & Hi) Hmod]. apply elem_of_seq in Hi. split; [lia|].
    by apply Z.eqb_eq.
  - intros [Hr Hmod]. split; [|by apply Z.eqb_eq].
    exists (Z.to_nat t). split; [lia|]. apply elem_of_seq. lia.
Qed.

Lemma NoDup_ticks (ef : Z) (k : nat) : NoDup (ticks ef k).
Proof.
  unfold ticks, py_range. apply NoDup_ListNoDup, List.NoDup_filter.
  apply NoDup_ListNoDup, NoDup_fmap; [apply Nat2Z.inj'|]. apply NoDup_seq.
Qed.

Lemma trained_after (st mx : Z) : 0 ≤ st ≤ mx → trained st mx = mx - st.
Proof. unfold trained. lia. Qed.

(** *** Claims about the whole run *)

Lemma unfold_Progress_run (fuel : nat) (d : dict) (c : config) (Sound : PolSt → Prop)
    (G : FsSt → Prop) (e : EnvSt) (w0 w : world) (avg0 : F) (k : nat) (ls : locals) :
  Progress fuel d c Sound G e w0 avg0 k ls w → run_prefix fuel d k w0 = (w, inr ls).
Proof. by intros []. Qed.

(** C3.  In a run with [0 <= start_timesteps <= max_timesteps] every
    iteration [k] of the loop is reached and completes.  When
    [k < start_timesteps] it makes no train call and leaves policy object
    and [grad_steps] as they are; otherwise it trains the policy exactly
    once, after the transition of the step was added to the replay buffer
    and on that buffer, keeps what [train] returned and adds one to
    [grad_steps].  After the loop [grad_steps] is
    [max_timesteps - start_timesteps], which is also the number of train
    calls of the whole run and, when [max_timesteps] is a positive multiple
    of [eval_freq], the [grad_steps] column of the last row of the result
    file. *)
Theorem train_schedule (fuel : nat) (d : dict) (c : config) (w : world) :
  reads d c → ready fuel c w →
  0 ≤ cfg_start_timesteps c ≤ cfg_max_timesteps c →
  let st := cfg_start_timesteps c in
  let mx := cfg_max_timesteps c in
  (∀ k : nat, Z.of_nat k < mx →
     ∃ wk lsk wk' lsk' seg,
       run_prefix fuel d k w = (wk, inr lsk) ∧
       loop_body fuel d (Z.of_nat k) lsk wk = (wk', inr lsk') ∧
       run_prefix fuel d (S k) w = (wk', inr lsk') ∧
       trace wk' = trace wk ++ seg ∧
       train_calls seg = (if Z.of_nat k <? st then 0 else 1) ∧
       grad_steps lsk' = grad_steps lsk + (if Z.of_nat k <? st then 0 else 1) ∧
       (Z.of_nat k < st → policy wk' = policy wk) ∧
       (st ≤ Z.of_nat k → trained_once c wk wk' seg)) ∧
  ∃ w_end ls_end w' evs,
    run_prefix fuel d (Z.to_nat mx) w = (w_end, inr ls_end) ∧
    grad_steps ls_end = mx - st ∧
    main fuel d w = (w', inr tt) ∧
    trace w' = trace w ++ evs ∧
    train_calls evs = mx - st ∧
    policy w' = policy w_end ∧
    (0 < mx → mx mod cfg_eval_freq c = 0 →
     ∃ rows avg time,
       fs_read (fs w') (res_path c) =
         Some (rows ++ [Row [VFloat avg; VFloat time; VInt mx; VInt (mx - st);
                             cfg_seed c]])).
Proof.
  intros R Y Hst. cbn zeta.
  destruct (main_run fuel d c w R Y)
    as (Sound & G & e & avg0 & w' & w_end & ls_end & Hall & Pend & Hmain & Hread & Hpol
        & Hbuf & Htr).
  split.
  - intros k Hk. destruct (Hall k) as (wk & lsk & Pk).
    destruct (body_run fuel d c w wk Sound G e avg0 k lsk R Y Pk)
      as (wk' & lsk' & seg & Hbody & Pk' & Hseg & Hcase).
    exists wk, lsk, wk', lsk', seg.
    split; [by eapply unfold_Progress_run|]. split; [done|].
    split; [by eapply unfold_Progress_run|]. split; [done|].
    destruct (Z.geb_spec (Z.of_nat k) (cfg_start_timesteps c)) as [Hge|Hlt],
      (Z.ltb_spec (Z.of_nat k) (cfg_start_timesteps c)) as [Hlt'|Hge']; try lia.
    + destruct Hcase as [Hg Honce].
      split; [by eapply trained_once_calls|]. split; [done|]. split; [lia|done].
    + destruct Hcase as (Hg & Hp & Hn).
      split; [done|]. split; [lia|]. split; [done|lia].
  - destruct Pend as [Hend _ Hg _ _ _ (avgs & Hlen & Hfile & _) (evs & He & Hn)].
    rewrite Z2Nat.id in Hg, Hn by lia. rewrite trained_after in Hg, Hn by done.
    exists w_end, ls_end, w', (evs ++ checkpoint_events c).
    split; [done|]. split; [done|]. split; [done|].
    split; [by rewrite Htr, He, <- app_assoc|].
    split; [by rewrite train_calls_app, Hn, train_calls_checkpoint, Z.add_0_r|].
    split; [done|].
    intros Hpos Hmod. rewrite Hread, Hfile.
    destruct (Z.to_nat (cfg_max_timesteps c)) as [|k] eqn:Ek; [lia|].
    assert (Z.of_nat k + 1 = cfg_max_timesteps c) as Hk by lia.
    rewrite ticks_S in Hlen |- *.
    assert (is_tick (cfg_eval_freq c) (Z.of_nat k) = true) as Htick.
    { unfold is_tick. rewrite Hk. by apply Z.eqb_eq. }
    rewrite Htick in Hlen |- *.
    rewrite length_app in Hlen. cbn in Hlen.
    destruct (list_snoc_inv avgs) as [Hnil|(avgs' & a & ->)];
      [subst avgs; cbn in Hlen; lia|].
    rewrite length_app in Hlen. cbn in Hlen.
    rewrite tick_rows_snoc by lia. unfold tick_row at 1.
    rewrite Hk, trained_after by done.
    eexists (_ ++ _ :: _), a, _. rewrite <- app_assoc. cbn [app]. reflexivity.
Qed.


(** C4.  The result file receives one row for the untrained policy,
    [(avg_reward, 0, 0, 0, seed)], before the loop starts, and then one row
    per evaluation step, in order; step [t] is an evaluation step exactly
    when [(t + 1) mod eval_freq = 0]; its row is
    [(avg_reward, elapsed time, t + 1, grad_steps, seed)].  In every row
    [avg_reward] is what [eval_policy] returns for the policy object as it
    is at that point of the run (before the loop, after step [t]), and
    [grad_steps] is the counter as it is after step [t].  With 1000 steps
    and an evaluation every 500 that makes three rows. *)
Theorem result_rows (fuel : nat) (d : dict) (c : config) (w : world) :
  reads d c → ready fuel c w →
  let ef := cfg_eval_freq c in
  let n := Z.to_nat (cfg_max_timesteps c) in
  ∃ w' avg0 avgs,
    main fuel d w = (w', inr tt) ∧
    (∃ w1 ls1, run_prefix fuel d 0 w = (w1, inr ls1) ∧
               fs_read (fs w1) (res_path c) =
                 Some (base_content c w ++ [initial_row c avg0])) ∧
    initial_row c avg0 = Row [VFloat avg0; VInt 0; VInt 0; VInt 0; cfg_seed c] ∧
    scored fuel d c w 0 avg0 ∧
    fs_read (fs w') (res_path c) =
      Some (base_content c w ++ initial_row c avg0
              :: tick_rows c (clk w) 0 (ticks ef n) avgs) ∧
    length (tick_rows c (clk w) 0 (ticks ef n) avgs) = length (ticks ef n) ∧
    NoDup (ticks ef n) ∧
    (∀ t, t ∈ ticks ef n ↔ 0 ≤ t < cfg_max_timesteps c ∧ (t + 1) mod ef = 0) ∧
    (∀ j t, ticks ef n !! j = Some t →
       ∃ avg wt lst,
         scored fuel d c w (S (Z.to_nat t)) avg ∧
         run_prefix fuel d (S (Z.to_nat t)) w = (wt, inr lst) ∧
         tick_rows c (clk w) 0 (ticks ef n) avgs !! j =
           Some (Row [VFloat avg;
                      VFloat (fsub (perf_clock (clk w + 3 * j + 1)) (origin (clk w) j));
                      VInt (t + 1); VInt (grad_steps lst); cfg_seed c]) ∧
         grad_steps lst = trained (cfg_start_timesteps c) (t + 1)) ∧
    (cfg_max_timesteps c = 1000 → ef = 500 →
     length (initial_row c avg0 :: tick_rows c (clk w) 0 (ticks ef n) avgs) = 3%nat).
Proof.
  intros R Y. cbn zeta.
  destruct (main_run fuel d c w R Y)
    as (Sound & G & e & avg0 & w' & w_end & ls_end & Hall & Pend & Hmain & Hread & Hpol
        & Hbuf & Htr).
  destruct Pend as [_ _ _ _ _ Hfirst (avgs & Hlen & Hfile & Hsc) _].
  exists w', avg0, avgs. split; [done|]. split.
  { destruct (Hall 0%nat) as (w1 & ls1 & [H1 _ _ _ _ _ (avgs1 & Hlen1 & Hfile1 & _) _]).
    exists w1, ls1. split; [done|]. by destruct avgs1. }
  split; [done|]. split; [done|]. split; [by rewrite Hread|].
  split; [by apply tick_rows_length|]. split; [apply NoDup_ticks|]. split.
  { intros t. rewrite elem_of_ticks. split; intros [H1 H2]; (split; [lia|done]). }
  split.
  - intros j t Hj.
    destruct (lookup_lt_is_Some_2 avgs j) as [avg Havg].
    { rewrite Hlen. by eapply lookup_lt_Some. }
    assert (0 ≤ t) as Ht.
    { apply list_elem_of_lookup_2 in Hj. apply elem_of_ticks in Hj. lia. }
    destruct (Hall (S (Z.to_nat t))) as (wt & lst & [Hrun _ Hg _ _ _ _ _]).
    exists avg, wt, lst. split; [by eapply Hsc|]. split; [done|].
    rewrite Hg. replace (Z.of_nat (S (Z.to_nat t))) with (t + 1) by lia.
    split; [|done].
    by rewrite (tick_rows_lookup c (clk w) _ 0 avgs j t avg Hj Havg).
  - intros Hmx Hef. cbn [length]. rewrite tick_rows_length by done.
    by rewrite Hmx, Hef.
Qed.

(** C8.  An evaluation step reads the clock twice before the evaluation
    starts: the first reading minus [start_time] is the time written in the
    row, the second is kept; after evaluation, row and checkpoint it reads
    the clock again and advances [start_time] by the third reading minus
    the second.  Hence over a run the time in the row of the [j]-th
    evaluation is its first reading minus the reading of line 168 advanced
    by the durations of the evaluations before it. *)
Theorem evaluation_time_excluded (fuel : nat) (d : dict) (c : config) (w : world) :
  reads d c → ready fuel c w →
  (∀ (Sound : PolSt → Prop) (G : FsSt → Prop) (e : EnvSt) (t : Z) (ls : locals)
     (w1 : world) (rows : list (fline F)) (p : PolSt),
     supports c e Sound G → G (fs w1) → Sound p →
     res_file ls = res_path c →
     fs_read (fs w1) (res_path c) = Some rows →
     policy w1 = Some p →
     is_tick (cfg_eval_freq c) t = true →
     ∃ w1' ls' avg evaluation,
       eval_phase fuel d t ls w1 = (w1', inr ls') ∧
       trace w1' = trace w1 ++ tick_events (clk w1) evaluation (checkpoint_events c) ∧
       (∃ s eps id, evaluation = eval_events (cfg_env c) s id p eps
                                   default_eval_episodes avg) ∧
       fs_read (fs w1') (res_path c) =
         Some (rows ++
           [Row [VFloat avg; VFloat (fsub (perf_clock (clk w1)) (start_time ls));
                 VInt (t + 1); VInt (grad_steps ls); cfg_seed c]]) ∧
       start_time ls' =
         fadd (start_time ls)
           (fsub (perf_clock (S (S (clk w1)))) (perf_clock (S (clk w1)))) ∧
       clk w1' = S (S (S (clk w1)))) ∧
  let c0 := clk w in
  let ts := ticks (cfg_eval_freq c) (Z.to_nat (cfg_max_timesteps c)) in
  ∃ w' avg0 avgs,
    main fuel d w = (w', inr tt) ∧
    fs_read (fs w') (res_path c) =
      Some (base_content c w ++ initial_row c avg0 :: tick_rows c c0 0 ts avgs) ∧
    (∀ j t, ts !! j = Some t →
       ∃ avg,
         tick_rows c c0 0 ts avgs !! j =
           Some (Row [VFloat avg;
                      VFloat (fsub (perf_clock (c0 + 3 * j + 1)) (origin c0 j));
                      VInt (t + 1); VInt (trained (cfg_start_timesteps c) (t + 1));
                      cfg_seed c])) ∧
    origin c0 0 = perf_clock c0 ∧
    (∀ j, origin c0 (S j) =
          fadd (origin c0 j)
            (fsub (perf_clock (c0 + 3 * j + 3)) (perf_clock (c0 + 3 * j + 2)))).
Proof.
  intros R Y. split.
  - intros Sound G e t ls w1 rows p Hsup HG Hsound Hres Hrows Hp Htick.
    destruct (eval_phase_tick fuel d c w w1 Sound G e t ls rows p R Y Hsup HG Hsound
                Hres Hrows Hp Htick)
      as (s & eps & e_end & avg & st & Hs & Hn & Havg & Hscore & HG' & Hread & Hrun).
    eexists _, _, avg, _. split; [exact Hrun|]. cbn [trace fs start_time clk].
    split; [reflexivity|]. split; [by eexists _, _, _|]. done.
  - cbn zeta.
    destruct (main_run fuel d c w R Y)
      as (Sound & G & e & avg0 & w' & w_end & ls_end & Hall & Pend & Hmain & Hread & Hpol
          & Hbuf & Htr).
    destruct Pend as [_ _ _ _ _ _ (avgs & Hlen & Hfile & _) _].
    exists w', avg0, avgs. split; [done|]. split; [by rewrite Hread|]. split; [|done].
    intros j t Hj.
    destruct (lookup_lt_is_Some_2 avgs j) as [avg Havg].
    { rewrite Hlen. by eapply lookup_lt_Some. }
    exists avg. by rewrite (tick_rows_lookup c (clk w) _ 0 avgs j t avg Hj Havg).
Qed.

(** *** A result file that is already there *)

Lemma made_keeps (p q : string) (st : FsSt) :
  keeps_files → fs_read (made p st).1 q = fs_read st q.
Proof.
  intros K. unfold made. destruct (fs_exists st p); [done|]. apply (kf_makedirs K).
Qed.

Lemma output_dirs_keeps (s m q : string) (b : bool) (st : FsSt) :
  keeps_files → fs_read (output_dirs s b m st).1 q = fs_read st q.
Proof.
  intros K. unfold output_dirs, then_fs.
  pose proof (made_keeps s q st K) as H1.
  destruct (made s st) as [st1 [e1|]]; cbn [fst snd] in *; [done|].
  destruct b; [|done]. by rewrite (made_keeps m q st1 K).
Qed.

(** Where the result file can be read, lines 97-116 make no call. *)
Lemma result_file_skipped (c : config) (st : FsSt) (old : list (fline F)) :
  keeps_files →
  fs_read st (res_path c) = Some old →
  prepare_fs c st =
    output_dirs (cfg_dest_res_path c) (truthy (cfg_save_model c))
      (cfg_dest_model_path c) st.
Proof.
  intros K Hold. unfold prepare_fs, then_fs.
  pose proof (output_dirs_keeps (cfg_dest_res_path c) (cfg_dest_model_path c)
                (res_path c) (truthy (cfg_save_model c)) st K) as Hk.
  destruct (output_dirs _ _ _ st) as [st1 [e1|]]; cbn [fst snd] in *; [done|].
  unfold result_file. rewrite (kf_exists K st1 (res_path c) old); [done|].
  by rewrite Hk.
Qed.

(** C1, as amended.  When the result file exists at the start, as a text
    file, on a disk where making directories changes no file, [main] does
    not fail for that reason: lines 97-116 make no call on the disk, so the
    file is neither created again nor given a header block; its content
    stays in place, and a run that is ready appends the row of the
    untrained policy and the rows of the evaluation steps after it. *)
Theorem existing_result_file_is_extended (fuel : nat) (d : dict) (c : config) (w : world)
    (old : list (fline F)) :
  reads d c → ready fuel c w → keeps_files →
  fs_read (fs w) (res_path c) = Some old →
  ∃ w' avg0 avgs,
    main fuel d w = (w', inr tt) ∧
    prepare_fs c (fs w) =
      output_dirs (cfg_dest_res_path c) (truthy (cfg_save_model c))
        (cfg_dest_model_path c) (fs w) ∧
    base_content c w = old ∧
    fs_read (fs w') (res_path c) =
      Some (old ++ initial_row c avg0
              :: tick_rows c (clk w) 0
                   (ticks (cfg_eval_freq c) (Z.to_nat (cfg_max_timesteps c)))
                   avgs) ∧
    length avgs =
      length (ticks (cfg_eval_freq c) (Z.to_nat (cfg_max_timesteps c))).
Proof.
  intros R Y K Hold.
  destruct (main_run fuel d c w R Y)
    as (Sound & G & e & avg0 & w' & w_end & ls_end & Hall & Pend & Hmain & Hread & Hpol
        & Hbuf & Htr).
  destruct Pend as [_ _ _ _ _ _ (avgs & Hlen & Hfile & _) _].
  pose proof (result_file_skipped c (fs w) old K Hold) as Hskip.
  assert (base_content c w = old) as Hbase.
  { unfold base_content. rewrite Hskip, output_dirs_keeps by done. by rewrite Hold. }
  exists w', avg0, avgs. split; [done|]. split; [done|]. split; [done|].
  split; [|done]. by rewrite Hread, Hfile, Hbase.
Qed.


(** ** Further properties: command line, evaluation, invariants of a run *)

Local Abbreviation alike := (@alike F Obs EnvSt PolSt Buf RngSt FsSt).
Local Abbreviation sim i1 i2 m1 m2 :=
  (@sim F Obs EnvSt PolSt Buf RngSt FsSt i1 i2 _ m1 m2).
Local Abbreviation extends := (@extends F Obs EnvSt PolSt Buf RngSt FsSt _).
Local Abbreviation safe S L Q m := (@safe F Obs EnvSt PolSt Buf RngSt FsSt _ S L _ Q m).

Local Abbreviation tally na nm ns Q m :=
  (@tally F Obs EnvSt PolSt Buf RngSt FsSt na nm ns _ Q m).

(** *** More about [parse_args] *)

Lemma options_disjoint (k : string) : k ∈ int_options → k ∈ text_options → False.
Proof.
  rewrite !list_elem_of_In. cbn. intros H1 H2.
  repeat (destruct H1 as [<-|H1]; [repeat (destruct H2 as [?|H2]; [done|]); done|]).
  done.
Qed.

Lemma parse_item_cases (ns : dict) (it : cli_item) :
  (valid_item it ∧ ∃ v, parse_item ns it = inr (<[item_name it:=v]> ns)) ∨
  ((¬ valid_item it) ∧ parse_item ns it = inl SystemExit).
Proof.
  destruct it as [dest raw|dest]; cbn.
  - case_bool_decide as Hmem.
    + destruct (py_int raw) as [z|] eqn:E.
      * left. split; [left; by eauto|by eexists].
      * right. split; [|done].
        intros [[_ [z Hz]]|Hn]; [congruence|by eapply options_disjoint].
    + case_bool_decide as Htext.
      * left. split; [by right|by eexists].
      * right. split; [|done]. by intros [[? _]|?].
  - destruct (String.eqb_spec dest "save_model") as [->|Hne].
    + left. split; [done|by eexists].
    + by right.
Qed.

Lemma valid_item_option (it : cli_item) : valid_item it → item_name it ∈ all_options.
Proof.
  unfold all_options. rewrite !elem_of_app. destruct it as [dest raw|dest]; cbn.
  - tauto.
  - intros ->. rewrite list_elem_of_singleton. tauto.
Qed.

Lemma defaults_lookup (k : string) :
  is_Some (defaults (F:=F) !! k) ↔ k ∈ all_options.
Proof.
  split.
  - intros Hk. destruct (decide (k ∈ all_options)) as [|Hn]; [done|exfalso].
    rewrite list_elem_of_In in Hn. cbn in Hn. unfold defaults in Hk. cbn [list_to_map foldr] in Hk.
    rewrite !lookup_insert_ne, lookup_empty in Hk
      by (intros ?; subst; apply Hn; tauto).
    by destruct Hk.
  - rewrite list_elem_of_In. cbn. intros H.
    repeat (destruct H as [<-|H]; [vm_compute; by eauto|]). done.
Qed.

(** X2. The dictionary [parse_args] returns has exactly the seventeen
    declared options as keys, whatever the command line was (lines 49-77). *)
Theorem parse_args_keys (argv : list cli_item) (d : dict) :
  parse_args argv = inr d →
  ∀ k, is_Some (d !! k) ↔ k ∈ all_options.
Proof.
  unfold parse_args. pose proof defaults_lookup as Hns. revert Hns.
  generalize (defaults (F:=F)). revert d.
  induction argv as [|it argv IH]; intros d ns Hns; cbn.
  - by intros [= <-].
  - destruct (parse_item_cases ns it) as [[Hv [v ->]]|[Hv ->]]; [|done].
    apply IH. intros k. rewrite lookup_insert. case_decide as Hk.
    + subst k. split; [intros _; by apply valid_item_option|by eauto].
    + apply Hns.
Qed.

Lemma parse_items_untouched (k : string) (argv : list cli_item) :
  ∀ ns d : dict,
    parse_items ns argv = inr d →
    Forall (λ it, item_name it ≠ k) argv →
    d !! k = ns !! k.
Proof.
  induction argv as [|it argv IH]; intros ns d; cbn.
  - by intros [= <-].
  - destruct (parse_item_cases ns it) as [[Hv [v ->]]|[Hv ->]]; [|done].
    intros Hd Hall. apply Forall_cons in Hall as [Hit Hall].
    rewrite (IH _ _ Hd Hall). by rewrite lookup_insert_ne.
Qed.

Lemma parse_items_keeps (k : string) (argv : list cli_item) :
  ∀ ns d : dict,
    parse_items ns argv = inr d → is_Some (ns !! k) → is_Some (d !! k).
Proof.
  induction argv as [|it argv IH]; intros ns d; cbn.
  - by intros [= <-].
  - destruct (parse_item_cases ns it) as [[Hv [v ->]]|[Hv ->]]; [|done].
    intros Hd Hk. apply (IH _ _ Hd). rewrite lookup_insert. by case_decide.
Qed.

Lemma parse_items_app (a b : list cli_item) :
  ∀ ns d : dict,
    parse_items ns (a ++ b) = inr d →
    ∃ ns', parse_items ns a = inr ns' ∧ parse_items ns' b = inr d.
Proof.
  induction a as [|it a IH]; intros ns d; cbn; [by eauto|].
  destruct (parse_item ns it) as [e|ns1]; [done|]. apply IH.
Qed.

(** The value of an option after its last occurrence is the one that
    occurrence stored. *)
Lemma parse_items_last (pre post : list cli_item) (it : cli_item) (ns d : dict) :
  parse_items ns (pre ++ it :: post) = inr d →
  Forall (λ it', item_name it' ≠ item_name it) post →
  ∃ ns1 ns2, parse_item ns1 it = inr ns2 ∧ d !! item_name it = ns2 !! item_name it.
Proof.
  intros Hd Hpost.
  apply parse_items_app in Hd as (ns1 & _ & Hd). cbn [parse_items] in Hd.
  destruct (parse_item ns1 it) as [e|ns2] eqn:E; [done|].
  exists ns1, ns2. split; [done|]. by eapply parse_items_untouched.
Qed.

Lemma parse_args_text_kept (pre post : list cli_item) (k raw : string) (d : dict) :
  parse_args (pre ++ CliOpt k raw :: post) = inr d →
  Forall (λ it, item_name it ≠ k) post →
  k ∈ text_options →
  d !! k = Some (VStr raw).
Proof.
  intros Hd Hpost Hk.
  destruct (parse_items_last pre post (CliOpt k raw) _ d Hd Hpost)
    as (ns1 & ns2 & E & Hv).
  cbn [item_name] in Hv. rewrite Hv.
  cbn in E. rewrite bool_decide_false in E by (intros ?; by eapply options_disjoint).
  rewrite bool_decide_true in E by done. injection E as <-.
  cbn. by rewrite lookup_insert_eq.
Qed.

(** X3. The values [parse_args] returns (lines 49-77): an option the
    command line does not mention keeps its declared default; otherwise
    its last occurrence decides, an option declared with [type=int] holding
    the converted integer and every other option the text as it was typed,
    also where its default is a number; the only flag is [save_model],
    which becomes [True]. *)
Theorem parse_args_values (argv : list cli_item) (d : dict) (k : string) :
  parse_args argv = inr d →
  (Forall (λ it, item_name it ≠ k) argv → d !! k = defaults !! k) ∧
  (∀ pre raw post,
     argv = pre ++ CliOpt k raw :: post →
     Forall (λ it, item_name it ≠ k) post →
     (k ∈ int_options ∧ ∃ z, py_int raw = Some z ∧ d !! k = Some (VInt z)) ∨
     (k ∈ text_options ∧ d !! k = Some (VStr raw))) ∧
  (∀ pre post,
     argv = pre ++ CliFlag k :: post →
     Forall (λ it, item_name it ≠ k) post →
     k = "save_model" ∧ d !! k = Some (VBool true)).
Proof.
  intros Hd. split; [|split].
  - intros Hall. by eapply parse_items_untouched.
  - intros pre raw post -> Hpost.
    destruct (parse_items_last pre post (CliOpt k raw) _ d Hd Hpost)
      as (ns1 & ns2 & E & Hv).
    cbn [item_name] in Hv. rewrite Hv. cbn in E. case_bool_decide as Hmem.
    + destruct (py_int raw) as [z|]; [|done]. injection E as <-.
      left. split; [done|]. exists z. by rewrite lookup_insert_eq.
    + case_bool_decide as Htext; [|done]. injection E as <-.
      right. by rewrite lookup_insert_eq.
  - intros pre post -> Hpost.
    destruct (parse_items_last pre post (CliFlag k) _ d Hd Hpost)
      as (ns1 & ns2 & E & Hv).
    cbn [item_name] in Hv. rewrite Hv. cbn in E.
    destruct (String.eqb_spec k "save_model") as [->|Hne]; [|done].
    injection E as <-. by rewrite lookup_insert_eq.
Qed.

(** *** Text where a number is needed *)

Lemma init_policy_text_noise (args kwargs : dict) (ma : F) (w : world) :
  args !! "policy" = Some (VStr "TD3") →
  (∃ s, args !! "policy_noise" = Some (VStr s)) ∨
  (is_Some (args !! "policy_noise") ∧ ∃ s, args !! "noise_clip" = Some (VStr s)) →
  init_policy args kwargs ma w = (w, inl (TypeError "*")).
Proof.
  intros Hp Hs. unfold init_policy.
  rewrite (bind_getattr _ _ _ _ _ Hp). cbn [py_eq_str String.eqb Ascii.eqb Bool.eqb].
  destruct Hs as [[s Hs]|[[pn Hpn] [s Hs]]].
  - by rewrite (bind_getattr _ _ _ _ _ Hs).
  - rewrite (bind_getattr _ _ _ _ _ Hpn).
    destruct (py_mul_float pn ma) as [e|pn'] eqn:E.
    + unfold py_mul_float in E. destruct pn; cbn in E; try done.
      injection E as <-. done.
    + rewrite (bind_lift _ pn' _ _ eq_refl). by rewrite (bind_getattr _ _ _ _ _ Hs).
Qed.

(** X4. A [--policy_noise] or [--noise_clip] given on the command line is
    kept as text (no [type=] at lines 65-68), so with the TD3 selector its
    product with [max_action] at lines 143-144 raises [TypeError]: no
    policy object is constructed and nothing else has happened. *)
Theorem cli_noise_breaks_td3 (pre post : list cli_item) (k raw : string) (d kwargs : dict)
    (ma : F) (w : world) :
  k = "policy_noise" ∨ k = "noise_clip" →
  parse_args (pre ++ CliOpt k raw :: post) = inr d →
  Forall (λ it, item_name it ≠ k) post →
  d !! "policy" = Some (VStr "TD3") →
  init_policy d kwargs ma w = (w, inl (TypeError "*")).
Proof.
  intros Hk Hd Hpost Hp.
  assert (is_Some (d !! "policy_noise")) as Hpn.
  { apply (parse_items_keeps _ _ _ _ Hd). vm_compute. by eexists. }
  assert (k ∈ text_options) as Htext.
  { apply list_elem_of_In. cbn. destruct Hk as [-> | ->]; tauto. }
  pose proof (parse_args_text_kept pre post k raw d Hd Hpost Htext) as Hs.
  apply init_policy_text_noise; [done|]. destruct Hk as [-> | ->]; eauto.
Qed.

(** X5. An [--expl_noise] given on the command line is kept as text (no
    [type=] at line 59), so the first action after the warm-up raises
    [TypeError] at line 179, after the policy has been asked for its action
    and before any noise is drawn or any step is made. *)
Theorem cli_expl_noise_breaks_policy_phase (pre post : list cli_item) (raw : string)
    (d : dict) (ls : locals) (t : Z) (stv : value) (p : PolSt) (w : world) :
  parse_args (pre ++ CliOpt "expl_noise" raw :: post) = inr d →
  Forall (λ it, item_name it ≠ "expl_noise") post →
  d !! "start_timesteps" = Some stv →
  py_int_lt t stv = inr false →
  policy w = Some p →
  choose_action d ls t w =
    (log (ESelectAction (state ls) (select_action p (state ls))) w, inl (TypeError "*")).
Proof.
  intros Hd Hpost Hst Hlt Hp.
  assert ("expl_noise" ∈ text_options) as Htext by (apply list_elem_of_In; cbn; tauto).
  pose proof (parse_args_text_kept pre post _ raw d Hd Hpost Htext) as Hs.
  unfold choose_action.
  rewrite (bind_getattr _ _ _ _ _ Hst), (bind_lift _ _ _ _ Hlt).
  unfold select_action_m. rewrite bind_assoc, (bind_the_policy _ _ _ Hp).
  cbv zeta. rewrite !bind_assoc. unfold emit at 1. unfold bind at 1.
  rewrite bind_ret. rewrite (bind_getattr _ _ _ _ _ Hs). done.
Qed.

(** *** More about [eval_policy] *)

(** X6. [eval_policy] with no episode to run (lines 27-44): the
    environment is made and seeded, the policy is not consulted and no
    reset or step is made; with [eval_episodes = 0] the division at line 39
    raises [ZeroDivisionError] before anything is printed, with a negative
    count the result is [0.0 / eval_episodes]. *)
Theorem eval_policy_no_episodes (fuel : nat) (name seed s : value) (n : Z) (e0 : EnvSt) (w : world) :
  gym_make name = Some e0 →
  py_add_int seed 100 = inr s →
  n ≤ 0 →
  let id := length (envs w) in
  let w1 := mkWorld (fs w) (envs w ++ [env_seed e0 s]) (policy w) (replay_buffer w)
              (rng w) (clk w) (trace w ++ [EGymMake name id; EEnvSeed id s]) in
  let avg := fdiv (float_of_Z 0) (float_of_Z n) in
  eval_policy fuel name seed n w =
    if n =? 0 then (w1, inl ZeroDivisionError)
    else (mkWorld (fs w) (envs w1) (policy w) (replay_buffer w) (rng w) (clk w)
            (trace w1 ++ eval_prints n avg), inr avg).
Proof.
  intros Hmake Hseed Hn. cbn zeta.
  unfold eval_policy, gym_make_m.
  unfold bind at 1. rewrite Hmake.
  unfold bind at 1, lift at 1. rewrite Hseed.
  unfold env_seed_m, the_env, put_env, emit.
  do 3 unfold bind at 1. wsimpl.
  rewrite lookup_snoc.
  replace (Z.to_nat n) with 0%nat by lia. cbn [eval_episodes_loop].
  unfold bind at 1, ret at 1. unfold bind at 1, lift at 1, py_float_div_int.
  destruct (Z.eqb_spec n 0) as [Hz|Hz].
  - wsimpl. by rewrite insert_snoc, <- !app_assoc.
  - unfold print, emit, bind, ret. wsimpl.
    by rewrite insert_snoc, <- !app_assoc.
Qed.

Lemma sim_bind (i1 i2 : nat) {A B} (m1 m2 : M' A) (k1 k2 : A → M' B) :
  sim i1 i2 m1 m2 → (∀ a, sim i1 i2 (k1 a) (k2 a)) →
  sim i1 i2 (bind m1 k1) (bind m2 k2).
Proof.
  intros Hm Hk w1 w2 Hal. unfold bind.
  destruct (Hm w1 w2 Hal) as [Hr Hal'].
  destruct (m1 w1) as [w1' r1], (m2 w2) as [w2' r2]. cbn in Hr, Hal'. subst r2.
  destruct r1 as [e|a]; [by split|]. by apply Hk.
Qed.

Lemma sim_emit (i1 i2 : nat) (e1 e2 : event F Obs) : sim i1 i2 (emit e1) (emit e2).
Proof. by intros w1 w2 Hal. Qed.

Lemma sim_put_env (i1 i2 : nat) {A} (f : EnvSt → EnvSt) (k1 k2 : M' A) :
  sim i1 i2 k1 k2 →
  sim i1 i2 (bind (the_env i1) (λ e, bind (put_env i1 (f e)) (λ _, k1)))
            (bind (the_env i2) (λ e, bind (put_env i2 (f e)) (λ _, k2))).
Proof.
  intros Hk w1 w2 Hal. pose proof Hal as [Hp He].
  unfold the_env, put_env, bind. rewrite <- He.
  destruct (envs w1 !! i1) as [e|] eqn:He1; [|by split].
  apply Hk. split; [done|]. cbn.
  rewrite !list_lookup_insert_eq; [done|by eapply lookup_lt_Some..].
Qed.

Lemma sim_gym_make {A} (name : value) (k : nat → M' A) (w1 w2 : world) :
  policy w1 = policy w2 →
  (∀ i1 i2, sim i1 i2 (k i1) (k i2)) →
  (bind (gym_make_m name) k w1).2 = (bind (gym_make_m name) k w2).2.
Proof.
  intros Hp Hk. unfold bind, gym_make_m.
  destruct (gym_make name) as [e0|]; [|done].
  apply Hk. split; [done|]. cbn. by rewrite !lookup_snoc.
Qed.

Lemma sim_env_step (i1 i2 : nat) (a : list F) :
  sim i1 i2 (env_step_m i1 a) (env_step_m i2 a).
Proof.
  intros w1 w2 Hal. pose proof Hal as [Hp He].
  unfold env_step_m, the_env, put_env, emit, bind, ret. rewrite <- He.
  destruct (envs w1 !! i1) as [e|] eqn:He1; [|by split].
  destruct (env_step e a) as [[[o r] d] e']. wsimpl.
  split; [done|]. split; [done|]. cbn.
  rewrite !list_lookup_insert_eq; [done|by eapply lookup_lt_Some..].
Qed.

Lemma sim_env_reset (i1 i2 : nat) : sim i1 i2 (env_reset_m i1) (env_reset_m i2).
Proof.
  intros w1 w2 Hal. pose proof Hal as [Hp He].
  unfold env_reset_m, the_env, put_env, emit, bind, ret. rewrite <- He.
  destruct (envs w1 !! i1) as [e|] eqn:He1; [|by split].
  destruct (env_reset e) as [o e']. wsimpl.
  split; [done|]. split; [done|]. cbn.
  rewrite !list_lookup_insert_eq; [done|by eapply lookup_lt_Some..].
Qed.

Lemma sim_select_action (i1 i2 : nat) (o : Obs) :
  sim i1 i2 (select_action_m o) (select_action_m o).
Proof.
  intros w1 w2 Hal. pose proof Hal as [Hp He].
  unfold select_action_m, the_policy, emit, bind, ret. rewrite <- Hp.
  destruct (policy w1) as [p|] eqn:Hp1; [|by split]. wsimpl.
  split; [done|]. split; [cbn; congruence|done].
Qed.

Lemma sim_ret (i1 i2 : nat) {A} (a : A) : sim i1 i2 (ret a) (ret a).
Proof. by intros w1 w2 Hal. Qed.

Lemma sim_lift (i1 i2 : nat) {A} (r : exn + A) : sim i1 i2 (lift r) (lift r).
Proof. by intros w1 w2 Hal. Qed.

Lemma sim_eval_episode (i1 i2 : nat) :
  ∀ (fuel : nat) (o : Obs) (avg : F),
    sim i1 i2 (eval_episode fuel i1 o avg) (eval_episode fuel i2 o avg).
Proof.
  induction fuel as [|fuel IH]; intros o avg; [by intros w1 w2 Hal|].
  cbn [eval_episode].
  apply sim_bind; [apply sim_select_action|intros a].
  apply sim_bind; [apply sim_env_step|intros [[o' r] d]].
  destruct d; [apply sim_ret|apply IH].
Qed.

Lemma sim_eval_episodes_loop (fuel : nat) (i1 i2 : nat) :
  ∀ (n : nat) (avg : F),
    sim i1 i2 (eval_episodes_loop fuel i1 n avg) (eval_episodes_loop fuel i2 n avg).
Proof.
  induction n as [|n IH]; intros avg; [apply sim_ret|].
  cbn [eval_episodes_loop].
  apply sim_bind; [apply sim_env_reset|intros o].
  apply sim_bind; [apply sim_eval_episode|intros avg'].
  apply IH.
Qed.

(** X7. What [eval_policy] returns or raises depends on the world only
    through the policy object: files, existing environments, replay
    buffer, random generator, clock and log have no influence (lines
    27-44, the environment is a fresh one). *)
Theorem eval_policy_policy_only (fuel : nat) (name seed : value) (n : Z) (w1 w2 : world) :
  policy w1 = policy w2 →
  (eval_policy fuel name seed n w1).2 = (eval_policy fuel name seed n w2).2.
Proof.
  intros Hp. unfold eval_policy. apply sim_gym_make; [done|]. intros i1 i2.
  apply sim_bind; [apply sim_lift|intros s].
  unfold env_seed_m. apply sim_bind.
  { apply (sim_put_env i1 i2 (λ e, env_seed e s)), sim_emit. }
  intros _. apply sim_bind; [apply sim_eval_episodes_loop|intros avg].
  apply sim_bind; [apply sim_lift|intros avg'].
  repeat (apply sim_bind; [apply sim_emit|intros _]). apply sim_ret.
Qed.

(** *** What a run never does: checkpoints, replay buffer *)

Section Safety.
Variables S L : string → Prop.

Lemma replay_app (evs1 evs2 : list (event F Obs)) (b : option Buf) :
  replay (evs1 ++ evs2) b = replay evs2 (replay evs1 b).
Proof. apply fold_left_app. Qed.

Lemma extends_refl (w : world) : extends S L w w.
Proof. exists []. by rewrite app_nil_r. Qed.

Lemma extends_trans (w1 w2 w3 : world) :
  extends S L w1 w2 → extends S L w2 w3 → extends S L w1 w3.
Proof.
  intros (evs1 & Ht1 & Ha1 & Hb1) (evs2 & Ht2 & Ha2 & Hb2).
  exists (evs1 ++ evs2). split; [by rewrite Ht2, Ht1, app_assoc|].
  split; [by apply Forall_app|]. by rewrite replay_app, <- Hb1.
Qed.

Lemma safe_bind {A B} (Q1 : A → Prop) (Q2 : B → Prop) (m : M' A) (k : A → M' B) :
  safe S L Q1 m → (∀ a, Q1 a → safe S L Q2 (k a)) → safe S L Q2 (bind m k).
Proof.
  intros Hm Hk w w'' r. unfold bind.
  destruct (m w) as [w' [e|a]] eqn:E; destruct (Hm _ _ _ E) as [Hext HQ].
  - intros [= <- <-]. by split.
  - intros Hka. destruct (Hk a (HQ a eq_refl) _ _ _ Hka) as [Hext' HQ'].
    split; [by eapply extends_trans|done].
Qed.

Lemma safe_pure {A} (Q : A → Prop) (m : M' A) :
  (∀ w, (m w).1 = w) → (∀ w a, (m w).2 = inr a → Q a) → safe S L Q m.
Proof.
  intros Hw HQ w w' r E. pose proof (Hw w) as H1. pose proof (HQ w) as H2.
  rewrite E in H1, H2. cbn in H1, H2. subst w'. split; [apply extends_refl|].
  intros a ->. by apply H2.
Qed.

Lemma safe_ret {A} (Q : A → Prop) (a : A) : Q a → safe S L Q (ret a).
Proof. intros Ha. apply safe_pure; [done|]. by intros w a' [= <-]. Qed.

Lemma safe_raise {A} (Q : A → Prop) (e : exn) : safe S L Q (raise e).
Proof. by apply safe_pure. Qed.

Lemma safe_lift {A} (r : exn + A) : safe S L (λ a, r = inr a) (lift r).
Proof. apply safe_pure; [done|]. by intros w a. Qed.

Lemma safe_getattr (args : dict) (name : string) :
  safe S L (λ v, args !! name = Some v) (getattr args name).
Proof.
  apply safe_pure; [done|]. intros w a. unfold getattr, lift. cbn.
  destruct (args !! name); by intros [= <-].
Qed.

Lemma safe_path_exists (p : string) : safe S L (λ _, True) (path_exists p).
Proof. by apply safe_pure. Qed.

Lemma safe_the_env (id : nat) : safe S L (λ _, True) (the_env id).
Proof. apply safe_pure; [|done]. intros w. unfold the_env. by destruct (envs w !! id). Qed.

Lemma safe_the_policy : safe S L (λ _, True) the_policy.
Proof. apply safe_pure; [|done]. intros w. unfold the_policy. by destruct (policy w). Qed.

Lemma safe_the_buffer : safe S L (λ _, True) the_buffer.
Proof.
  apply safe_pure; [|done]. intros w. unfold the_buffer. by destruct (replay_buffer w).
Qed.

(** A call that logs [evs w], or nothing when it fails. *)
Lemma safe_call {A} (m : M' A) (evs : world → list (event F Obs)) :
  (∀ w, (m w).1 = w ∨
        (trace (m w).1 = trace w ++ evs w ∧
         Forall (allowed S L) (evs w) ∧
         replay_buffer (m w).1 = replay (evs w) (replay_buffer w))) →
  safe S L (λ _, True) m.
Proof.
  intros Hm w w' r E. split; [|done]. specialize (Hm w). rewrite E in Hm. cbn in Hm.
  destruct Hm as [->|(Ht & Ha & Hb)]; [apply extends_refl|]. by exists (evs w).
Qed.

Lemma safe_emit (e : event F Obs) :
  allowed S L e → (∀ b, replay_event b e = b) → safe S L (λ _, True) (emit e).
Proof.
  intros Ha Hb. apply (safe_call _ (λ _, [e])). intros w. right.
  unfold emit. wsimpl. repeat split; [by constructor|]. cbn. by rewrite Hb.
Qed.

Lemma safe_print (s : string) : safe S L (λ _, True) (print s).
Proof. by apply safe_emit. Qed.

Lemma safe_put_env (id : nat) (e : EnvSt) : safe S L (λ _, True) (put_env id e).
Proof. apply (safe_call _ (λ _, [])). intros w. right. by rewrite app_nil_r. Qed.

(** A call on the disk leaves the log and the replay buffer alone. *)
Lemma safe_fs_call (f : FsSt → FsSt * option exn) : safe S L (λ _, True) (fs_call f).
Proof. apply (safe_call _ (λ _, [])). intros w. right. by rewrite app_nil_r. Qed.

Lemma safe_makedirs (p : string) : safe S L (λ _, True) (makedirs p).
Proof. apply safe_fs_call. Qed.

Lemma safe_open_x (p : string) : safe S L (λ _, True) (open_x p).
Proof. apply safe_fs_call. Qed.

Lemma safe_write_lines (p : string) (ls : list (fline F)) :
  safe S L (λ _, True) (write_lines p ls).
Proof. apply safe_fs_call. Qed.

Lemma safe_append_lines (p : string) (ls : list (fline F)) :
  safe S L (λ _, True) (append_lines p ls).
Proof. apply safe_fs_call. Qed.

Lemma safe_perf_counter : safe S L (λ _, True) perf_counter.
Proof.
  apply (safe_call _ (λ w, [EPerfCounter (perf_clock (clk w))])). intros w. right.
  unfold perf_counter. wsimpl. repeat split. by constructor.
Qed.

Lemma safe_gym_make (name : value) : safe S L (λ _, True) (gym_make_m name).
Proof.
  apply (safe_call _ (λ w, [EGymMake name (length (envs w))])). intros w.
  unfold gym_make_m. destruct (gym_make name); [right|by left].
  wsimpl. repeat split. by constructor.
Qed.

Lemma safe_np_random_normal (scale : F) (size : Z) :
  safe S L (λ _, True) (np_random_normal_m scale size).
Proof.
  apply (safe_call _ (λ w, [ENormal scale size (np_random_normal (rng w) scale size).1])).
  intros w. right. unfold np_random_normal_m.
  destruct (np_random_normal (rng w) scale size). wsimpl. repeat split. by constructor.
Qed.

Lemma safe_construct (k : policy_kind) (kwargs : dict) :
  safe S L (λ _, True) (construct k kwargs).
Proof.
  apply (safe_call _ (λ _, [EPolicyNew k kwargs])). intros w. right.
  unfold construct. wsimpl. repeat split. by constructor.
Qed.

Lemma safe_buffer_new (sd ad : Z) : safe S L (λ _, True) (buffer_new_m sd ad).
Proof.
  apply (safe_call _ (λ _, [EBufferNew sd ad])). intros w. right.
  unfold buffer_new_m. wsimpl. repeat split. by constructor.
Qed.

Lemma safe_buffer_add (tr : transition F Obs) : safe S L (λ _, True) (buffer_add_m tr).
Proof.
  apply (safe_call _ (λ _, [EBufferAdd tr])). intros w.
  unfold buffer_add_m, the_buffer, bind.
  destruct (replay_buffer w) as [b|] eqn:Hb; [right|by left].
  wsimpl. repeat split. by constructor.
Qed.

Lemma safe_set_seeds (seed : value) (id : nat) : safe S L (λ _, True) (set_seeds_m seed id).
Proof.
  apply (safe_call _ (λ _, [ESetSeeds seed id])). intros w.
  unfold set_seeds_m, the_env, bind.
  destruct (envs w !! id) as [e|]; [right|by left].
  destruct (set_seeds seed e (rng w)). wsimpl. repeat split. by constructor.
Qed.

Lemma safe_policy_train (args : dict) : safe S L (λ _, True) (policy_train_m args).
Proof.
  intros w w' r. unfold policy_train_m, the_policy, the_buffer, getattr, lift, bind.
  destruct (policy w) as [p|]; [|intros [= <- <-]; split; [apply extends_refl|done]].
  destruct (replay_buffer w) as [b|] eqn:Hb;
    [|intros [= <- <-]; split; [apply extends_refl|done]].
  destruct (args !! "batch_size") as [bs|];
    [|intros [= <- <-]; split; [apply extends_refl|done]].
  destruct (policy_train p b bs (rng w)) as [p' g]. intros [= <- <-].
  split; [|done]. exists [ETrain bs]. wsimpl. repeat split; try done.
  by constructor.
Qed.

Lemma safe_policy_load (path : string) : L path → safe S L (λ _, True) (policy_load_m path).
Proof.
  intros HL. apply (safe_call _ (λ _, [EPolicyLoad path])). intros w.
  unfold policy_load_m, the_policy, bind.
  destruct (policy w) as [p|]; [|by left].
  destruct (policy_load (fs w) p path); [by left|right].
  wsimpl. repeat split. by constructor.
Qed.

Lemma safe_policy_save (path : string) : S path → safe S L (λ _, True) (policy_save_m path).
Proof.
  intros HS w w' r. unfold policy_save_m, the_policy, bind.
  destruct (policy w) as [p|] eqn:Hp; [|intros [= <- <-]; split; [apply extends_refl|done]].
  destruct (policy_save (fs w) p path) as [st [e|]]; intros [= <- <-]; (split; [|done]).
  - exists []. wsimpl. by rewrite app_nil_r.
  - exists [EPolicySave path]. wsimpl. repeat split; try done. by constructor.
Qed.

End Safety.
Section SafeRun.
Variables (S L : string → Prop) (d : dict).
Hypothesis Hd : bounds S L d.


Ltac safe_prim :=
  first
    [ apply safe_getattr | apply safe_lift | apply safe_path_exists | apply safe_the_env
    | apply safe_the_policy | apply safe_the_buffer | apply safe_print
    | apply safe_put_env | apply safe_perf_counter | apply safe_gym_make
    | apply safe_np_random_normal | apply safe_construct | apply safe_buffer_new
    | apply safe_buffer_add | apply safe_set_seeds | apply safe_policy_train
    | apply safe_makedirs | apply safe_open_x | apply safe_write_lines
    | apply safe_append_lines
    | (apply safe_emit; [exact I|done]) | apply safe_raise ].

Ltac safe_with tac :=
  repeat first
    [ safe_prim
    | tac
    | match goal with
      | |- safe _ _ _ (ret _) => apply safe_ret; first [exact I|done]
      | |- safe _ _ _ (bind _ _) =>
          eapply safe_bind; [first [safe_prim|tac]|intros ? ?; cbv beta in *]
      | |- safe _ _ _ (if ?b then _ else _) => destruct b eqn:?
      | |- safe _ _ _ (let '(_, _) := ?x in _) => destruct x as [? ?]
      | |- safe _ _ _ (match ?x with _ => _ end) => destruct x eqn:?
      end ].

Ltac safe_go := safe_with fail.

Ltac safe_then Q :=
  eapply safe_bind with (Q1 := Q); [|intros ? ?; cbv beta in *].

Lemma safe_hyperpars : safe S L (λ _, True) (hyperpars d).
Proof. unfold hyperpars. safe_go. Qed.

Lemma safe_ensure_dir (name : string) : safe S L (λ _, True) (ensure_dir d name).
Proof. unfold ensure_dir. safe_go. Qed.

Lemma safe_prepare_results : safe S L (λ _, True) (prepare_results d).
Proof.
  unfold prepare_results.
  safe_with ltac:(apply safe_ensure_dir).
  safe_then (λ _ : unit, True).
  { safe_go. apply safe_ensure_dir. }
  safe_go.
  safe_then (λ _ : unit, True); [|by apply safe_ret].
  safe_with ltac:(apply safe_hyperpars).
Qed.

Lemma safe_env_seed (id : nat) (s : value) : safe S L (λ _, True) (env_seed_m id s).
Proof. unfold env_seed_m. safe_go. Qed.

Lemma safe_env_reset (id : nat) : safe S L (λ _, True) (env_reset_m id).
Proof. unfold env_reset_m. safe_go. Qed.

Lemma safe_env_step (id : nat) (a : list F) : safe S L (λ _, True) (env_step_m id a).
Proof. unfold env_step_m. safe_go. Qed.

Lemma safe_action_sample (id : nat) : safe S L (λ _, True) (action_sample_m id).
Proof. unfold action_sample_m. safe_go. Qed.

Lemma safe_select_action (o : Obs) : safe S L (λ _, True) (select_action_m o).
Proof. unfold select_action_m. safe_go. Qed.

Ltac safe_env :=
  first [ apply safe_env_seed | apply safe_env_reset | apply safe_env_step
        | apply safe_action_sample | apply safe_select_action ].

Lemma safe_eval_episode (id : nat) :
  ∀ (fuel : nat) (o : Obs) (avg : F),
    safe S L (λ _, True) (eval_episode fuel id o avg).
Proof.
  induction fuel as [|fuel IH]; intros o avg; cbn [eval_episode]; [apply safe_raise|].
  safe_with ltac:(first [safe_env|apply IH]).
Qed.

Lemma safe_eval_episodes_loop (fuel : nat) (id : nat) :
  ∀ (n : nat) (avg : F), safe S L (λ _, True) (eval_episodes_loop fuel id n avg).
Proof.
  induction n as [|n IH]; intros avg; cbn [eval_episodes_loop]; [by apply safe_ret|].
  safe_with ltac:(first [safe_env|apply safe_eval_episode|apply IH]).
Qed.

Lemma safe_eval_policy (fuel : nat) (name seed : value) (n : Z) :
  safe S L (λ _, True) (eval_policy fuel name seed n).
Proof.
  unfold eval_policy. safe_with ltac:(first [safe_env|apply safe_eval_episodes_loop]).
Qed.

Lemma safe_run_eval (fuel : nat) : safe S L (λ _, True) (run_eval fuel d).
Proof. unfold run_eval. safe_with ltac:(apply safe_eval_policy). Qed.

Lemma safe_write_eval_to_csv (rf : string) (a b c e f : value) :
  safe S L (λ _, True) (write_eval_to_csv rf a b c e f).
Proof. apply safe_append_lines. Qed.

Lemma safe_save_checkpoint (sm : value) :
  d !! "save_model" = Some sm → truthy sm = true →
  safe S L (λ _, True) (save_checkpoint d).
Proof.
  intros Hsm Ht. unfold save_checkpoint. safe_go.
  apply safe_policy_save. by eapply bd_save.
Qed.

Lemma safe_final_checkpoint : safe S L (λ _, True) (final_checkpoint d).
Proof.
  unfold final_checkpoint. safe_go. by eapply safe_save_checkpoint.
Qed.

Lemma safe_make_env : safe S L (λ _, True) (make_env d).
Proof. unfold make_env. safe_go. Qed.

Lemma safe_init_policy (kwargs : dict) (ma : F) :
  safe S L (λ _, True) (init_policy d kwargs ma).
Proof. unfold init_policy. safe_go. Qed.

Lemma safe_build_policy (id : nat) : safe S L (λ _, True) (build_policy d id).
Proof. unfold build_policy. safe_with ltac:(apply safe_init_policy). Qed.

Lemma safe_maybe_load : safe S L (λ _, True) (maybe_load d).
Proof.
  unfold maybe_load. safe_go.
  match goal with
  | H1 : d !! "load_model" = Some ?x, H2 : d !! "load_model" = Some ?y,
    Hb : negb (py_eq_str ?x "") = true |- _ =>
      assert (y = x) by congruence; subst y; apply negb_true_iff in Hb;
      safe_then (λ v : value,
        d !! (if py_eq_str x "default" then "file_name" else "load_model") = Some v);
      [destruct (py_eq_str x "default"); apply safe_getattr|];
      apply safe_policy_load; by eapply bd_load
  end.
Qed.

Lemma safe_setup (fuel : nat) (rf : string) : safe S L (λ _, True) (setup fuel d rf).
Proof.
  unfold setup.
  safe_with ltac:(first [apply safe_make_env|apply safe_build_policy|apply safe_maybe_load
                        |apply safe_run_eval|apply safe_write_eval_to_csv|safe_env]).
Qed.

Lemma safe_choose_action (ls : locals) (t : Z) :
  safe S L (λ _, True) (choose_action d ls t).
Proof. unfold choose_action. safe_with safe_env. Qed.

Lemma safe_step_and_store (ls : locals) (a : list F) :
  safe S L (λ _, True) (step_and_store ls a).
Proof. unfold step_and_store. safe_with safe_env. Qed.

Lemma safe_interact (t : Z) (ls : locals) : safe S L (λ _, True) (interact d t ls).
Proof.
  unfold interact.
  safe_with ltac:(first [apply safe_choose_action|apply safe_step_and_store]).
Qed.

Lemma safe_train_phase (t : Z) (ls : locals) : safe S L (λ _, True) (train_phase d t ls).
Proof. unfold train_phase. safe_go. Qed.

Lemma safe_episode_end (t : Z) (ls : locals) : safe S L (λ _, True) (episode_end t ls).
Proof. unfold episode_end. safe_with safe_env. Qed.

Lemma safe_eval_phase (fuel : nat) (t : Z) (ls : locals) :
  safe S L (λ _, True) (eval_phase fuel d t ls).
Proof.
  unfold eval_phase.
  safe_with ltac:(first [apply safe_run_eval|apply safe_write_eval_to_csv]).
  safe_then (λ _ : unit, True); [|safe_go].
  safe_go. by eapply safe_save_checkpoint.
Qed.

Lemma safe_loop_body (fuel : nat) (t : Z) (ls : locals) :
  safe S L (λ _, True) (loop_body fuel d t ls).
Proof.
  unfold loop_body.
  eapply safe_bind; [apply safe_interact|intros [ls1 done] _].
  eapply safe_bind; [apply safe_train_phase|intros ls2 _].
  eapply safe_bind with (Q1 := λ _, True); [|intros ls3 _; apply safe_eval_phase].
  destruct done; [apply safe_episode_end|by apply safe_ret].
Qed.

Lemma safe_for_loop (fuel : nat) (ts : list Z) :
  ∀ ls : locals, safe S L (λ _, True) (for_loop (loop_body fuel d) ts ls).
Proof.
  induction ts as [|t ts IH]; intros ls; cbn [for_loop]; [by apply safe_ret|].
  eapply safe_bind; [apply safe_loop_body|]. intros ls' _. apply IH.
Qed.

Lemma safe_training_loop (fuel : nat) (ls : locals) :
  safe S L (λ _, True) (training_loop fuel d ls).
Proof. unfold training_loop. safe_go. apply safe_for_loop. Qed.

(** [main] after its first step, which unbinds the local variables. *)
Lemma safe_main_body (fuel : nat) :
  safe S L (λ _, True)
    (bind (prepare_results d) (λ res_file,
       bind (setup fuel d res_file) (λ ls,
         bind (training_loop fuel d ls) (λ _, final_checkpoint d)))).
Proof.
  eapply safe_bind; [apply safe_prepare_results|intros rf _].
  eapply safe_bind; [apply safe_setup|intros ls _].
  eapply safe_bind; [apply safe_training_loop|intros _ _].
  apply safe_final_checkpoint.
Qed.

End SafeRun.

(** *** Counting calls *)

Lemma calls_app (f : event F Obs → bool) (a b : list (event F Obs)) :
  calls f (a ++ b) = (calls f a + calls f b)%nat.
Proof. unfold calls. by rewrite List.filter_app, length_app. Qed.

Lemma tally_eq (na nm ns na' nm' ns' : nat) {A} (Q : A → Prop) (m : M' A) :
  tally na nm ns Q m → na = na' → nm = nm' → ns = ns' → tally na' nm' ns' Q m.
Proof. by intros H <- <- <-. Qed.

Lemma tally_bind (na1 nm1 ns1 na2 nm2 ns2 : nat) {A B} (Q1 : A → Prop) (Q2 : B → Prop)
    (m : M' A) (k : A → M' B) :
  tally na1 nm1 ns1 Q1 m → (∀ a, Q1 a → tally na2 nm2 ns2 Q2 (k a)) →
  tally (na1 + na2) (nm1 + nm2) (ns1 + ns2) Q2 (bind m k).
Proof.
  intros Hm Hk w w'' x. unfold bind.
  destruct (m w) as [w' [e|a]] eqn:E; [done|]. intros Hka.
  destruct (Hm _ _ _ E) as [HQ (evs1 & Ht1 & Ha1 & Hm1 & Hs1)].
  destruct (Hk a HQ _ _ _ Hka) as [HQ' (evs2 & Ht2 & Ha2 & Hm2 & Hs2)].
  split; [done|]. exists (evs1 ++ evs2).
  rewrite !calls_app, Ht2, Ht1, app_assoc. by subst.
Qed.

Lemma tally_weaken (na nm ns : nat) {A} (Q Q' : A → Prop) (m : M' A) :
  tally na nm ns Q m → (∀ a, Q a → Q' a) → tally na nm ns Q' m.
Proof. intros Hm HQ w w' x E. destruct (Hm _ _ _ E). split; [|done]. eauto. Qed.

(** A call that logs [evs w] when it returns. *)
Lemma tally_call (na nm ns : nat) {A} (Q : A → Prop) (m : M' A)
    (evs : world → list (event F Obs)) :
  (∀ w w' x, m w = (w', inr x) → Q x ∧ trace w' = trace w ++ evs w) →
  (∀ w, calls is_add (evs w) = na ∧ calls is_make (evs w) = nm ∧
        calls is_save (evs w) = ns) →
  tally na nm ns Q m.
Proof.
  intros Hm Hc w w' x E. destruct (Hm _ _ _ E) as [HQ Ht]. split; [done|].
  exists (evs w). split; [done|]. apply Hc.
Qed.

Lemma tally_silent {A} (Q : A → Prop) (m : M' A) :
  (∀ w w' x, m w = (w', inr x) → Q x ∧ trace w' = trace w) →
  tally 0 0 0 Q m.
Proof.
  intros Hm. apply (tally_call _ _ _ _ _ (λ _, [])); [|done].
  intros w w' x E. rewrite app_nil_r. by apply Hm.
Qed.

Lemma tally_ret {A} (Q : A → Prop) (a : A) : Q a → tally 0 0 0 Q (ret a).
Proof. intros Ha. apply tally_silent. by intros w w' x [= <- <-]. Qed.

Lemma tally_raise {A} (Q : A → Prop) (e : exn) : tally 0 0 0 Q (raise e).
Proof. by apply tally_silent. Qed.

Lemma tally_lift {A} (r : exn + A) : tally 0 0 0 (λ a, r = inr a) (lift r).
Proof. apply tally_silent. by intros w w' x [= <- <-]. Qed.

Lemma tally_getattr (args : dict) (name : string) :
  tally 0 0 0 (λ v, args !! name = Some v) (getattr args name).
Proof.
  apply tally_silent. intros w w' x. unfold getattr, lift.
  destruct (args !! name); by intros [= <- <-].
Qed.

Lemma tally_path_exists (p : string) : tally 0 0 0 (λ _, True) (path_exists p).
Proof. apply tally_silent. by intros w w' x [= <- <-]. Qed.

Lemma tally_fs_call (f : FsSt → FsSt * option exn) : tally 0 0 0 (λ _, True) (fs_call f).
Proof. apply tally_silent. by intros w w' x [= <- _]. Qed.

Lemma tally_makedirs (p : string) : tally 0 0 0 (λ _, True) (makedirs p).
Proof. apply tally_fs_call. Qed.

Lemma tally_open_x (p : string) : tally 0 0 0 (λ _, True) (open_x p).
Proof. apply tally_fs_call. Qed.

Lemma tally_write_lines (p : string) (ls : list (fline F)) :
  tally 0 0 0 (λ _, True) (write_lines p ls).
Proof. apply tally_fs_call. Qed.

Lemma tally_append_lines (p : string) (ls : list (fline F)) :
  tally 0 0 0 (λ _, True) (append_lines p ls).
Proof. apply tally_fs_call. Qed.

Lemma tally_the_env (id : nat) : tally 0 0 0 (λ _, True) (the_env id).
Proof.
  apply tally_silent. intros w w' x. unfold the_env.
  destruct (envs w !! id); by intros [= <- <-].
Qed.

Lemma tally_the_policy : tally 0 0 0 (λ _, True) the_policy.
Proof.
  apply tally_silent. intros w w' x. unfold the_policy.
  destruct (policy w); by intros [= <- <-].
Qed.

Lemma tally_the_buffer : tally 0 0 0 (λ _, True) the_buffer.
Proof.
  apply tally_silent. intros w w' x. unfold the_buffer.
  destruct (replay_buffer w); by intros [= <- <-].
Qed.

Lemma tally_put_env (id : nat) (e : EnvSt) : tally 0 0 0 (λ _, True) (put_env id e).
Proof. apply tally_silent. by intros w w' x [= <- <-]. Qed.

Lemma tally_emit (e : event F Obs) :
  tally (calls is_add [e]) (calls is_make [e]) (calls is_save [e]) (λ _, True) (emit e).
Proof.
  apply (tally_call _ _ _ _ _ (λ _, [e])); [|done]. by intros w w' x [= <- <-].
Qed.

Lemma tally_print (s : string) : tally 0 0 0 (λ _, True) (print s).
Proof. apply (tally_emit (EPrint s)). Qed.

Lemma tally_perf_counter : tally 0 0 0 (λ _, True) perf_counter.
Proof.
  apply (tally_call _ _ _ _ _ (λ w, [EPerfCounter (perf_clock (clk w))])); [|done].
  by intros w w' x [= <- <-].
Qed.

Lemma tally_gym_make (name : value) : tally 0 1 0 (λ _, True) (gym_make_m name).
Proof.
  apply (tally_call _ _ _ _ _ (λ w, [EGymMake name (length (envs w))])); [|done].
  intros w w' x. unfold gym_make_m. destruct (gym_make name); by intros [= <- <-].
Qed.

Lemma tally_np_random_normal (scale : F) (size : Z) :
  tally 0 0 0 (λ _, True) (np_random_normal_m scale size).
Proof.
  apply (tally_call _ _ _ _ _
           (λ w, [ENormal scale size (np_random_normal (rng w) scale size).1])); [|done].
  intros w w' x. unfold np_random_normal_m.
  destruct (np_random_normal (rng w) scale size). by intros [= <- <-].
Qed.

Lemma tally_construct (k : policy_kind) (kwargs : dict) :
  tally 0 0 0 (λ _, True) (construct k kwargs).
Proof.
  apply (tally_call _ _ _ _ _ (λ _, [EPolicyNew k kwargs])); [|done].
  by intros w w' x [= <- <-].
Qed.

Lemma tally_buffer_new (sd ad : Z) : tally 0 0 0 (λ _, True) (buffer_new_m sd ad).
Proof.
  apply (tally_call _ _ _ _ _ (λ _, [EBufferNew sd ad])); [|done].
  by intros w w' x [= <- <-].
Qed.

Lemma tally_buffer_add (tr : transition F Obs) : tally 1 0 0 (λ _, True) (buffer_add_m tr).
Proof.
  apply (tally_call _ _ _ _ _ (λ _, [EBufferAdd tr])); [|done].
  intros w w' x. unfold buffer_add_m, the_buffer, bind.
  destruct (replay_buffer w); by intros [= <- <-].
Qed.

Lemma tally_set_seeds (seed : value) (id : nat) :
  tally 0 0 0 (λ _, True) (set_seeds_m seed id).
Proof.
  apply (tally_call _ _ _ _ _ (λ _, [ESetSeeds seed id])); [|done].
  intros w w' x. unfold set_seeds_m, the_env, bind.
  destruct (envs w !! id) as [e|]; [|done].
  destruct (set_seeds seed e (rng w)). by intros [= <- <-].
Qed.

Lemma tally_policy_train (args : dict) : tally 0 0 0 (λ _, True) (policy_train_m args).
Proof.
  intros w w' x. unfold policy_train_m, the_policy, the_buffer, getattr, lift, bind.
  destruct (policy w) as [p|]; [|done].
  destruct (replay_buffer w) as [b|]; [|done].
  destruct (args !! "batch_size") as [bs|]; [|done].
  destruct (policy_train p b bs (rng w)) as [p' g]. intros [= <- <-].
  split; [done|]. by exists [ETrain bs].
Qed.

Lemma tally_policy_load (path : string) : tally 0 0 0 (λ _, True) (policy_load_m path).
Proof.
  apply (tally_call _ _ _ _ _ (λ _, [EPolicyLoad path])); [|done].
  intros w w' x. unfold policy_load_m, the_policy, bind.
  destruct (policy w) as [p|]; [|done].
  destruct (policy_load (fs w) p path); by intros [= <- <-].
Qed.

Lemma tally_policy_save (path : string) : tally 0 0 1 (λ _, True) (policy_save_m path).
Proof.
  apply (tally_call _ _ _ _ _ (λ _, [EPolicySave path])); [|done].
  intros w w' x. unfold policy_save_m, the_policy, bind.
  destruct (policy w) as [p|]; [|done].
  destruct (policy_save (fs w) p path) as [st [e|]]; by intros [= <- <-].
Qed.

Ltac tally_fin := unfold calls; cbn; first [reflexivity | lia].

Ltac tally_prim :=
  first
    [ apply tally_getattr | apply tally_lift | apply tally_path_exists
    | apply tally_makedirs | apply tally_open_x | apply tally_write_lines
    | apply tally_append_lines
    | apply tally_the_env | apply tally_the_policy | apply tally_the_buffer
    | apply tally_print | apply tally_put_env | apply tally_perf_counter
    | apply tally_gym_make | apply tally_np_random_normal | apply tally_construct
    | apply tally_buffer_new | apply tally_buffer_add | apply tally_set_seeds
    | apply tally_policy_train | apply tally_policy_load | apply tally_policy_save
    | apply tally_emit | apply tally_raise ].

Ltac tally_with tac :=
  lazymatch goal with
  | |- tally _ _ _ _ (ret _) =>
      eapply tally_eq; [apply tally_ret; first [exact I|done]|tally_fin..]
  | |- tally _ _ _ _ (bind (if _ then _ else _) _) =>
      eapply tally_eq;
        [eapply tally_bind with (Q1 := λ _, True);
           [tally_with tac|intros ? ?; cbv beta in *; tally_with tac]
        |tally_fin..]
  | |- tally _ _ _ _ (bind _ _) =>
      eapply tally_eq;
        [eapply tally_bind; [tally_with tac|intros ? ?; cbv beta in *; tally_with tac]
        |tally_fin..]
  | |- tally _ _ _ _ (if ?b then _ else _) =>
      destruct b eqn:?; cbv beta iota; tally_with tac
  | |- tally _ _ _ _ (match ?x with _ => _ end) =>
      destruct x eqn:?; cbv beta iota; tally_with tac
  | |- _ => eapply tally_eq; [first [tally_prim|tac]|tally_fin..]
  end.

Ltac tally_go := tally_with fail.

Lemma tally_env_seed (id : nat) (s : value) : tally 0 0 0 (λ _, True) (env_seed_m id s).
Proof. unfold env_seed_m. tally_go. Qed.

Lemma tally_env_reset (id : nat) : tally 0 0 0 (λ _, True) (env_reset_m id).
Proof. unfold env_reset_m. tally_go. Qed.

Lemma tally_env_step (id : nat) (a : list F) : tally 0 0 0 (λ _, True) (env_step_m id a).
Proof. unfold env_step_m. tally_go. Qed.

Lemma tally_action_sample (id : nat) : tally 0 0 0 (λ _, True) (action_sample_m id).
Proof. unfold action_sample_m. tally_go. Qed.

Lemma tally_select_action (o : Obs) : tally 0 0 0 (λ _, True) (select_action_m o).
Proof. unfold select_action_m. tally_go. Qed.

Ltac tally_env :=
  first [ apply tally_env_seed | apply tally_env_reset | apply tally_env_step
        | apply tally_action_sample | apply tally_select_action ].

Lemma tally_eval_episode (id : nat) :
  ∀ (fuel : nat) (o : Obs) (avg : F),
    tally 0 0 0 (λ _, True) (eval_episode fuel id o avg).
Proof.
  induction fuel as [|fuel IH]; intros o avg; cbn [eval_episode]; [apply tally_raise|].
  tally_with ltac:(first [tally_env|apply IH]).
Qed.

Lemma tally_eval_episodes_loop (fuel : nat) (id : nat) :
  ∀ (n : nat) (avg : F), tally 0 0 0 (λ _, True) (eval_episodes_loop fuel id n avg).
Proof.
  induction n as [|n IH]; intros avg; cbn [eval_episodes_loop]; [by apply tally_ret|].
  tally_with ltac:(first [tally_env|apply tally_eval_episode|apply IH]).
Qed.

Lemma tally_eval_policy (fuel : nat) (name seed : value) (n : Z) :
  tally 0 1 0 (λ _, True) (eval_policy fuel name seed n).
Proof.
  unfold eval_policy. tally_with ltac:(first [tally_env|apply tally_eval_episodes_loop]).
Qed.

Section Tally.
Variables (d : dict) (c : config).
Hypothesis Hreads : reads d c.

Lemma tally_hyperpars : tally 0 0 0 (λ _, True) (hyperpars d).
Proof. unfold hyperpars. tally_go. Qed.

Lemma tally_ensure_dir (name : string) : tally 0 0 0 (λ _, True) (ensure_dir d name).
Proof. unfold ensure_dir. tally_go. Qed.

Lemma tally_prepare_results : tally 0 0 0 (λ _, True) (prepare_results d).
Proof.
  unfold prepare_results.
  tally_with ltac:(first [apply tally_ensure_dir|apply tally_hyperpars]).
Qed.

Lemma tally_run_eval (fuel : nat) : tally 0 1 0 (λ _, True) (run_eval fuel d).
Proof. unfold run_eval. tally_with ltac:(apply tally_eval_policy). Qed.

Lemma tally_write_eval_to_csv (rf : string) (a b e f g : value) :
  tally 0 0 0 (λ _, True) (write_eval_to_csv rf a b e f g).
Proof. apply tally_append_lines. Qed.

Lemma tally_save_checkpoint : tally 0 0 1 (λ _, True) (save_checkpoint d).
Proof. unfold save_checkpoint. tally_go. Qed.

Lemma tally_checkpoint (sm : value) :
  d !! "save_model" = Some sm →
  tally 0 0 (saves_each c) (λ _, True)
    (if truthy sm then save_checkpoint d else ret tt).
Proof.
  intros Hsm. rewrite (rd_save_model _ _ Hreads) in Hsm. injection Hsm as <-.
  unfold saves_each. destruct (truthy (cfg_save_model c)).
  - apply tally_save_checkpoint.
  - by apply tally_ret.
Qed.

Lemma tally_final_checkpoint : tally 0 0 (saves_each c) (λ _, True) (final_checkpoint d).
Proof.
  unfold final_checkpoint.
  eapply tally_eq; [eapply tally_bind; [apply tally_getattr|intros sm Hsm]|..].
  - by apply tally_checkpoint.
  - done.
  - done.
  - done.
Qed.

Lemma tally_make_env : tally 0 1 0 (λ _, True) (make_env d).
Proof. unfold make_env. tally_go. Qed.

Lemma tally_init_policy (kwargs : dict) (ma : F) :
  tally 0 0 0 (λ _, True) (init_policy d kwargs ma).
Proof. unfold init_policy. tally_go. Qed.

Lemma tally_build_policy (id : nat) : tally 0 0 0 (λ _, True) (build_policy d id).
Proof. unfold build_policy. tally_with ltac:(apply tally_init_policy). Qed.

Lemma tally_maybe_load : tally 0 0 0 (λ _, True) (maybe_load d).
Proof.
  unfold maybe_load.
  eapply tally_eq; [eapply tally_bind; [apply tally_getattr|intros lm Hlm]|done..].
  destruct (negb (py_eq_str lm "")); [|by apply tally_ret].
  eapply tally_eq; [eapply tally_bind; [apply tally_getattr|intros lm' Hlm']|done..].
  eapply (tally_eq 0 0 0); [|done..].
  eapply (tally_bind 0 0 0 0 0 0 (λ _, True)).
  - destruct (py_eq_str lm' "default");
      (eapply tally_weaken; [apply tally_getattr|done]).
  - intros pf _. apply tally_policy_load.
Qed.

Lemma tally_setup (fuel : nat) (rf : string) : tally 0 2 0 (λ _, True) (setup fuel d rf).
Proof.
  unfold setup.
  tally_with ltac:(first [apply tally_make_env|apply tally_build_policy
                         |apply tally_maybe_load|apply tally_run_eval
                         |apply tally_write_eval_to_csv|tally_env]).
Qed.

Lemma tally_choose_action (ls : locals) (t : Z) :
  tally 0 0 0 (λ _, True) (choose_action d ls t).
Proof. unfold choose_action. tally_with tally_env. Qed.

Lemma tally_step_and_store (ls : locals) (a : list F) :
  tally 1 0 0 (λ _, True) (step_and_store ls a).
Proof. unfold step_and_store. tally_with tally_env. Qed.

Lemma tally_interact (t : Z) (ls : locals) : tally 1 0 0 (λ _, True) (interact d t ls).
Proof.
  unfold interact.
  tally_with ltac:(first [apply tally_choose_action|apply tally_step_and_store]).
Qed.

Lemma tally_train_phase (t : Z) (ls : locals) :
  tally 0 0 0 (λ _, True) (train_phase d t ls).
Proof. unfold train_phase. tally_go. Qed.

Lemma tally_episode_end (t : Z) (ls : locals) :
  tally 0 0 0 (λ _, True) (episode_end t ls).
Proof. unfold episode_end. tally_with tally_env. Qed.

Local Abbreviation nticks := (nticks (cfg_eval_freq c)).

Lemma tally_eval_phase (fuel : nat) (t : Z) (ls : locals) :
  tally 0 (nticks [t]) (nticks [t] * saves_each c) (λ _, True) (eval_phase fuel d t ls).
Proof.
  unfold eval_phase, nticks. cbn [List.filter].
  eapply (tally_eq 0); [eapply (tally_bind 0 0 0); [apply tally_getattr|intros v Hv]|..].
  2-4: cbn; reflexivity.
  rewrite (rd_eval_freq _ _ Hreads) in Hv. injection Hv as <-.
  eapply (tally_eq 0); [eapply (tally_bind 0 0 0); [apply tally_lift|intros b Hb]|..].
  2-4: cbn; reflexivity.
  cbn in Hb. destruct (cfg_eval_freq c =? 0); [done|]. injection Hb as <-.
  fold (is_tick (cfg_eval_freq c) t).
  destruct (is_tick (cfg_eval_freq c) t); [|by apply tally_ret].
  cbn [length Nat.mul Nat.add].
  eapply (tally_eq 0 1 (saves_each c)); [|done|done|lia].
  eapply (tally_eq _ _ _); [eapply tally_bind; [apply tally_perf_counter|intros ? _]|..].
  eapply (tally_eq _ _ _); [eapply tally_bind; [apply tally_perf_counter|intros ? _]|..].
  eapply (tally_eq _ _ _); [eapply tally_bind; [apply tally_run_eval|intros ? _]|..].
  eapply (tally_eq _ _ _); [eapply tally_bind; [apply tally_getattr|intros ? _]|..].
  eapply (tally_eq _ _ _);
    [eapply tally_bind; [apply tally_write_eval_to_csv|intros ? _]|..].
  eapply (tally_eq _ _ _); [eapply tally_bind; [apply tally_getattr|intros sm Hsm]|..].
  eapply (tally_eq _ _ _);
    [eapply tally_bind; [by apply tally_checkpoint|intros ? _]|..].
  eapply (tally_eq _ _ _); [eapply tally_bind; [apply tally_perf_counter|intros ? _]|..].
  by apply tally_ret.
  all: try (cbn; reflexivity).
  all: cbn; lia.
Qed.

Lemma nticks_cons (t : Z) (ts : list Z) : nticks (t :: ts) = (nticks [t] + nticks ts)%nat.
Proof. unfold nticks. cbn. by destruct (is_tick (cfg_eval_freq c) t). Qed.

Lemma tally_loop_body (fuel : nat) (t : Z) (ls : locals) :
  tally 1 (nticks [t]) (nticks [t] * saves_each c) (λ _, True) (loop_body fuel d t ls).
Proof.
  unfold loop_body.
  eapply (tally_eq (1 + (0 + (0 + 0))) (0 + (0 + (0 + nticks [t])))
            (0 + (0 + (0 + nticks [t] * saves_each c)))); [|lia..].
  eapply tally_bind; [apply tally_interact|intros [ls1 done] _].
  eapply tally_bind; [apply tally_train_phase|intros ls2 _].
  eapply (tally_bind _ _ _ _ _ _ (λ _, True)).
  - destruct done; [apply tally_episode_end|by apply tally_ret].
  - intros ls3 _. apply tally_eval_phase.
Qed.

Lemma tally_for_loop (fuel : nat) (ts : list Z) :
  ∀ ls : locals,
    tally (length ts) (nticks ts) (nticks ts * saves_each c) (λ _, True)
      (for_loop (loop_body fuel d) ts ls).
Proof.
  induction ts as [|t ts IH]; intros ls; cbn [for_loop]; [by apply tally_ret|].
  eapply tally_eq; [eapply tally_bind; [apply tally_loop_body|intros ls' _; apply IH]|..].
  - done.
  - by rewrite (nticks_cons t ts).
  - rewrite (nticks_cons t ts). lia.
Qed.

Lemma py_range_to_nat (n : Z) : py_range (Z.of_nat (Z.to_nat n)) = py_range n.
Proof. unfold py_range. by rewrite Nat2Z.id. Qed.

Lemma tally_main (fuel : nat) :
  let n := Z.to_nat (cfg_max_timesteps c) in
  let evals := length (ticks (cfg_eval_freq c) n) in
  tally n (2 + evals) ((evals + 1) * saves_each c) (λ _, True) (main fuel d).
Proof.
  cbn zeta. unfold main, training_loop.
  eapply tally_eq.
  - eapply (tally_bind 0 0 0 _ _ _ (λ _, True)).
    { apply tally_silent. by intros w w' x [= <- <-]. }
    intros _ _.
    eapply tally_bind; [apply tally_prepare_results|intros rf _].
    eapply tally_bind; [apply tally_setup|intros ls _].
    eapply tally_bind; [|intros _ _; apply tally_final_checkpoint].
    eapply tally_bind; [apply tally_getattr|intros mt Hmt].
    rewrite (rd_max_timesteps _ _ Hreads) in Hmt. injection Hmt as <-.
    eapply tally_bind; [apply tally_lift|intros mx Hmx]. cbn in Hmx. injection Hmx as <-.
    eapply tally_weaken; [apply tally_for_loop|done].
  - cbn. unfold py_range. by rewrite length_map, length_seq.
  - cbn. unfold nticks, ticks. by rewrite py_range_to_nat.
  - cbn. unfold nticks, ticks. rewrite py_range_to_nat. lia.
Qed.

End Tally.

(** *** What a run never does *)

Lemma main_extends (S L : string → Prop) (fuel : nat) (d : dict) (w w' : world)
    (r : exn + unit) :
  bounds S L d →
  main fuel d w = (w', r) →
  ∃ evs, trace w' = trace w ++ evs ∧ Forall (allowed S L) evs ∧
         replay_buffer w' = replay evs None.
Proof.
  intros Hd. unfold main, enter_main. unfold bind at 1. intros E.
  destruct (safe_main_body S L d Hd fuel _ _ _ E) as [Htrace _].
  done.
Qed.

Lemma bounds_any (d : dict) : bounds (λ _, True) (λ _, True) d.
Proof. by constructor. Qed.

Lemma bounds_reads (d : dict) (c : config) :
  reads d c →
  bounds
    (λ p, truthy (cfg_save_model c) = true ∧ p = save_path c)
    (λ p, py_eq_str (cfg_load_model c) "" = false ∧ p = load_path c) d.
Proof.
  intros R. constructor.
  - intros sm mp fn Hsm Ht Hmp Hfn. rewrite (rd_save_model _ _ R) in Hsm.
    injection Hsm as <-. rewrite (rd_dest_model_path _ _ R) in Hmp. injection Hmp as <-.
    rewrite (rd_file_name _ _ R) in Hfn. by injection Hfn as <-.
  - intros lm pf Hlm Hne Hpf. rewrite (rd_load_model _ _ R) in Hlm. injection Hlm as <-.
    split; [done|]. unfold load_path. destruct (py_eq_str (cfg_load_model c) "default").
    + rewrite (rd_file_name _ _ R) in Hpf. by injection Hpf as <-.
    + rewrite (rd_load_model _ _ R) in Hpf. by injection Hpf as <-.
Qed.

(** X9. However [main] ends, the replay buffer is what the logged calls
    [ReplayBuffer(...)] and [add] built, in order, from an unbound
    variable: training, evaluation and checkpoints never change it (lines
    156, 187). *)
Theorem replay_buffer_follows_log (fuel : nat) (d : dict) (w : world) :
  let w' := (main fuel d w).1 in
  ∃ evs, trace w' = trace w ++ evs ∧ replay_buffer w' = replay evs None.
Proof.
  cbn zeta. destruct (main fuel d w) as [w' r] eqn:E.
  destruct (main_extends _ _ fuel d w w' r (bounds_any d) E)
    as (evs & Ht & _ & Hb).
  by exists evs.
Qed.

(** X11. However [main] ends, every checkpoint it saves goes to
    [dest_model_path/file_name] and is saved only if [save_model] is set
    (lines 224-225, 243-244); a checkpoint is loaded only if [load_model]
    is not empty, and always from under [./models/], not from
    [dest_model_path] (lines 152-154). *)
Theorem checkpoint_paths (fuel : nat) (d : dict) (c : config) (w : world) :
  reads d c →
  ∃ evs, trace (main fuel d w).1 = trace w ++ evs ∧
    (∀ p, EPolicySave p ∈ evs →
          truthy (cfg_save_model c) = true ∧ p = save_path c) ∧
    (∀ p, EPolicyLoad p ∈ evs →
          py_eq_str (cfg_load_model c) "" = false ∧ p = load_path c).
Proof.
  intros R. destruct (main fuel d w) as [w' r] eqn:E.
  destruct (main_extends _ _ fuel d w w' r (bounds_reads d c R) E)
    as (evs & Ht & Hall & _).
  exists evs. split; [done|]. rewrite Forall_forall in Hall.
  split; intros p Hp; apply (Hall _ Hp).
Qed.

(** *** Counts in a run that returns *)

Lemma main_census (fuel : nat) (d : dict) (c : config) (w : world) :
  reads d c → ready fuel c w →
  let n := Z.to_nat (cfg_max_timesteps c) in
  let evals := length (ticks (cfg_eval_freq c) n) in
  ∃ w' evs,
    main fuel d w = (w', inr tt) ∧
    trace w' = trace w ++ evs ∧
    calls is_add evs = n ∧
    calls is_make evs = (2 + evals)%nat ∧
    calls is_save evs = ((evals + 1) * saves_each c)%nat.
Proof.
  intros R Y. cbn zeta.
  destruct (main_run fuel d c w R Y)
    as (Sound & G & e & avg0 & w' & _ & _ & _ & _ & Hmain & _).
  destruct (tally_main d c R fuel w w' tt Hmain) as (_ & evs & Ht & Ha & Hm & Hs).
  by exists w', evs.
Qed.

(** X12. A run that meets [ready] returns after storing exactly
    [max(0, max_timesteps)] transitions, one for every step of the loop
    and none during setup or evaluation; the final replay buffer holds
    these transitions and nothing else (lines 169-187). *)
Theorem one_transition_per_step (fuel : nat) (d : dict) (c : config) (w : world) :
  reads d c → ready fuel c w →
  ∃ w' evs,
    main fuel d w = (w', inr tt) ∧
    trace w' = trace w ++ evs ∧
    calls is_add evs = Z.to_nat (cfg_max_timesteps c) ∧
    replay_buffer w' = replay evs None.
Proof.
  intros R Y. destruct (main_census fuel d c w R Y) as (w' & evs & Hmain & Ht & Ha & _).
  exists w', evs. repeat split; [done..|].
  destruct (main_extends _ _ fuel d w w' _ (bounds_any d) Hmain)
    as (evs' & Ht' & _ & Hb).
  rewrite Ht in Ht'. apply app_inv_head in Ht'. by subst evs'.
Qed.

(** X13. A run that meets [ready] makes two environments before the loop
    (line 119 and the first evaluation, line 159) and one more for every
    evaluation of the loop (line 212 through line 28). *)
Theorem environments_made (fuel : nat) (d : dict) (c : config) (w : world) :
  reads d c → ready fuel c w →
  ∃ w' evs,
    main fuel d w = (w', inr tt) ∧
    trace w' = trace w ++ evs ∧
    calls is_make evs =
      (2 + length (ticks (cfg_eval_freq c) (Z.to_nat (cfg_max_timesteps c))))%nat.
Proof.
  intros R Y.
  destruct (main_census fuel d c w R Y) as (w' & evs & Hmain & Ht & _ & Hm & _).
  by exists w', evs.
Qed.

(** X14. A run that meets [ready] saves a checkpoint after every
    evaluation of the loop and once more at the end when [save_model] is
    set, and never otherwise (lines 224-225, 243-244). *)
Theorem checkpoints_saved (fuel : nat) (d : dict) (c : config) (w : world) :
  reads d c → ready fuel c w →
  ∃ w' evs,
    main fuel d w = (w', inr tt) ∧
    trace w' = trace w ++ evs ∧
    calls is_save evs =
      if truthy (cfg_save_model c)
      then (length (ticks (cfg_eval_freq c) (Z.to_nat (cfg_max_timesteps c))) + 1)%nat
      else 0%nat.
Proof.
  intros R Y.
  destruct (main_census fuel d c w R Y) as (w' & evs & Hmain & Ht & _ & _ & Hs).
  exists w', evs. repeat split; [done..|]. rewrite Hs. unfold saves_each.
  destruct (truthy (cfg_save_model c)); lia.
Qed.

(** *** How many evaluations, how much training *)

Lemma div_succ (a k : Z) :
  0 < a → 0 ≤ k →
  (k + 1) / a = k / a + (if (k + 1) mod a =? 0 then 1 else 0).
Proof.
  intros Ha Hk.
  pose proof (Z.div_mod (k + 1) a ltac:(lia)) as H1.
  pose proof (Z.div_mod k a ltac:(lia)) as H2.
  pose proof (Z.mod_pos_bound k a Ha) as H3.
  pose proof (Z.mod_pos_bound (k + 1) a Ha) as H4.
  destruct (Z.eqb_spec ((k + 1) mod a) 0) as [E|E]; nia.
Qed.

Lemma is_tick_abs (ef t : Z) : ef ≠ 0 → is_tick ef t = ((t + 1) mod Z.abs ef =? 0).
Proof.
  intros Hef. unfold is_tick.
  destruct (Z.eqb_spec ((t + 1) mod ef) 0) as [E|E];
    destruct (Z.eqb_spec ((t + 1) mod Z.abs ef) 0) as [E'|E']; try done; exfalso.
  - apply E'. apply Z.mod_divide; [lia|]. apply Z.divide_abs_l.
    by apply Z.mod_divide.
  - apply E. apply Z.mod_divide; [done|]. apply Z.divide_abs_l.
    apply Z.mod_divide; [lia|done].
Qed.

Lemma ticks_count (ef : Z) (k : nat) :
  ef ≠ 0 → Z.of_nat (length (ticks ef k)) = Z.of_nat k / Z.abs ef.
Proof.
  intros Hef. induction k as [|k IH]; [done|].
  rewrite ticks_S, length_app, Nat2Z.inj_add, IH, Nat2Z.inj_succ, <- Z.add_1_r.
  rewrite (div_succ (Z.abs ef) (Z.of_nat k)) by lia.
  rewrite (is_tick_abs ef (Z.of_nat k) Hef).
  by destruct (_ =? 0).
Qed.

(** X15. A run that meets [ready] appends [1 + max(0, max_timesteps) //
    |eval_freq|] rows to the result file: the row of the untrained policy
    and one for every multiple of the evaluation period, a negative period
    counting like its absolute value (lines 160, 209-220). *)
Theorem evaluation_rows_count (fuel : nat) (d : dict) (c : config) (w : world) :
  reads d c → ready fuel c w →
  ∃ w' rows,
    main fuel d w = (w', inr tt) ∧
    fs_read (fs w') (res_path c) = Some (base_content c w ++ rows) ∧
    Z.of_nat (length rows) =
      1 + Z.max 0 (cfg_max_timesteps c) / Z.abs (cfg_eval_freq c).
Proof.
  intros R Y.
  destruct (main_run fuel d c w R Y)
    as (Sound & G & e & avg0 & w' & w_end & ls_end & _ & Hpg & Hmain & Hread & _).
  destruct Hpg as [_ _ _ _ _ _ (avgs & Hlen & Hfile & _) _].
  exists w'. eexists. split; [done|]. rewrite Hread. split; [exact Hfile|].
  cbn [length]. rewrite tick_rows_length by done.
  rewrite Nat2Z.inj_succ, ticks_count by apply (rdy_eval_freq _ _ _ Y).
  replace (Z.of_nat (Z.to_nat (cfg_max_timesteps c)))
    with (Z.max 0 (cfg_max_timesteps c)) by lia.
  lia.
Qed.

(** X16. The training schedule at its edges (lines 193-195): a run whose
    warm-up covers all its steps never calls [policy.train]; a run with
    no warm-up calls it at every step. *)
Theorem training_outside_schedule (fuel : nat) (d : dict) (c : config) (w : world) :
  reads d c → ready fuel c w →
  ∃ w' evs,
    main fuel d w = (w', inr tt) ∧
    trace w' = trace w ++ evs ∧
    (cfg_max_timesteps c ≤ cfg_start_timesteps c → train_calls evs = 0) ∧
    (cfg_start_timesteps c ≤ 0 ≤ cfg_max_timesteps c →
     train_calls evs = cfg_max_timesteps c).
Proof.
  intros R Y.
  destruct (main_run fuel d c w R Y)
    as (Sound & G & e & avg0 & w' & w_end & ls_end & _ & Hpg & Hmain & _ & _ & _
        & Htrace).
  destruct Hpg as [_ _ _ _ _ _ _ (evs & Hevs & Hcalls)].
  exists w', (evs ++ checkpoint_events c).
  split; [done|]. split; [by rewrite Htrace, Hevs, app_assoc|].
  rewrite train_calls_app, train_calls_checkpoint, Hcalls.
  unfold trained. split; lia.
Qed.

(** *** An evaluation period of zero *)

Lemma eval_phase_zero (fuel : nat) (d : dict) (t : Z) (ls : locals) (w : world) :
  d !! "eval_freq" = Some (VInt 0) →
  eval_phase fuel d t ls w = (w, inl ZeroDivisionError).
Proof. intros H. unfold eval_phase. by rewrite (bind_getattr _ _ _ _ _ H). Qed.

(** X18. With [eval_freq = 0] and at least one step to make, a run that
    is otherwise equipped ends in the first iteration: the test at line 209
    raises [ZeroDivisionError] when exactly one transition has been
    stored, and the result file holds the row of the untrained policy after
    what it held when that row was appended, and no other. *)
Theorem zero_eval_freq_stops_first_step (fuel : nat) (d : dict) (c : config) (w : world) :
  reads d c →
  cfg_eval_freq c = 0 →
  0 < cfg_max_timesteps c →
  equipped fuel c w →
  ∃ w' avg0 evs,
    main fuel d w = (w', inl ZeroDivisionError) ∧
    fs_read (fs w') (res_path c) = Some (base_content c w ++ [initial_row c avg0]) ∧
    trace w' = trace w ++ evs ∧
    calls is_add evs = 1%nat.
Proof.
  intros R Hz Hmx Y. destruct (eqp_env _ _ _ Y) as [e0 He0].
  destruct (setup_run fuel d c w
              (mkWorld (prepare_fs c (fs w)).1 (envs w) None None (rng w) (clk w)
                 (trace w ++ banner c)) e0 R Y He0 eq_refl eq_refl)
    as (Sound & G & w2 & ls & evs2 & avg & p & Hrun & Hsup & HG & Hres & Henv & Hdim & Hg
        & Hst & Hclk & Hfile & He & Hp & Hsound & Hscore & Hb & Htr & Hn).
  cbn zeta in Hsup, Hdim. cbn [trace] in Htr.
  assert (Inv c Sound G (set_seeds (cfg_seed c) e0 (rng w)).1 ls w2) as HInv.
  { constructor; eauto. }
  destruct (interact_run fuel d c w w2 Sound G _ 0 ls R Y HInv)
    as (w3 & ls3 & done & b & tr & pre & Hint & HInv3 & _ & _ & _ & Hfs3 & _).
  destruct (train_phase_run d c w3 Sound G _ 0 ls3 R HInv3)
    as (w4 & ls4 & evs4 & Htrain & HInv4 & _ & _ & Hfs4 & _).
  assert (∃ w5 ls5, (if done then episode_end 0 ls4 else ret ls4) w4 = (w5, inr ls5) ∧
                    fs w5 = fs w4) as (w5 & ls5 & Hend & Hfs5).
  { destruct done.
    - destruct (episode_end_run c w4 Sound G _ 0 ls4 HInv4)
        as (w5 & ls5 & Hend & _ & Hun5 & _).
      exists w5, ls5. split; [done|]. apply Hun5.
    - by exists w4, ls4. }
  destruct (tally_setup d fuel _ _ _ _ Hrun) as (_ & evs2' & Ht2 & Ha2 & _).
  destruct (tally_interact d 0 ls _ _ _ Hint) as (_ & evs3 & Ht3 & Ha3 & _).
  destruct (tally_train_phase d 0 ls3 _ _ _ Htrain) as (_ & evs4' & Ht4 & Ha4 & _).
  assert (∃ evs5, trace w5 = trace w4 ++ evs5 ∧ calls is_add evs5 = 0%nat)
    as (evs5 & Ht5 & Ha5).
  { destruct done.
    - destruct (tally_episode_end 0 ls4 _ _ _ Hend) as (_ & evs5 & Ht5 & Ha5 & _).
      by exists evs5.
    - injection Hend as <- _. exists []. by rewrite app_nil_r. }
  cbn [trace] in Ht2.
  exists w5, avg, (banner c ++ evs2' ++ evs3 ++ evs4' ++ evs5).
  split; [|split; [|split]].
  - unfold main, enter_main. unfold bind at 1.
    rewrite (bind_run _ _ _ _ _
               (prepare_results_ok d c (set_replay_buffer None (set_policy None w)) R
                  (eqp_output _ _ _ Y))).
    wsimpl. rewrite (bind_run _ _ _ _ _ Hrun).
    unfold training_loop. rewrite ?bind_assoc.
    rewrite (bind_getattr _ _ _ _ _ (rd_max_timesteps _ _ R)). rewrite ?bind_assoc.
    rewrite (bind_lift _ (cfg_max_timesteps c)) by done.
    unfold py_range. destruct (Z.to_nat (cfg_max_timesteps c)) as [|n] eqn:En; [lia|].
    cbn [seq map for_loop Z.of_nat]. unfold loop_body.
    rewrite ?bind_assoc. rewrite (bind_run _ _ _ _ _ Hint). cbv beta iota.
    rewrite ?bind_assoc. rewrite (bind_run _ _ _ _ _ Htrain).
    rewrite ?bind_assoc. rewrite (bind_run _ _ _ _ _ Hend).
    rewrite ?bind_assoc. erewrite bind_fail; [reflexivity|].
    apply eval_phase_zero. rewrite (rd_eval_freq _ _ R). by rewrite Hz.
  - by rewrite Hfs5, Hfs4, Hfs3.
  - rewrite Ht5, Ht4, Ht3, Ht2. by rewrite <- !app_assoc.
  - rewrite !calls_app, Ha2, Ha3, Ha4, Ha5. reflexivity.
Qed.

(** *** An environment that cannot be made *)

(** X19. If [gym.make] rejects the environment name (line 119) after
    lines 91-116 went through on the disk, [main] ends with that error
    after the banner was printed: the disk is as lines 91-116 left it,
    directories and result file included, and no environment, policy or
    replay buffer exists. *)
Theorem unknown_env_stops_after_header (fuel : nat) (d : dict) (c : config) (w : world) :
  reads d c →
  gym_make (cfg_env c) = None →
  (prepare_fs c (fs w)).2 = None →
  main fuel d w =
    (mkWorld (prepare_fs c (fs w)).1 (envs w) None None (rng w) (clk w)
       (trace w ++ banner c),
     inl GymError).
Proof.
  intros R Hmake Hout. unfold main, enter_main. unfold bind at 1.
  rewrite (bind_run _ _ _ _ _
             (prepare_results_ok d c (set_replay_buffer None (set_policy None w)) R Hout)).
  wsimpl.
  unfold setup, make_env. rewrite ?bind_assoc.
  rewrite (bind_getattr _ _ _ _ _ (rd_env _ _ R)). rewrite ?bind_assoc.
  unfold bind at 1, gym_make_m. by rewrite Hmake.
Qed.


End Facts.

(** ** The claims on the concrete world *)
Module ToyFacts.
Import Toy.

Lemma args_reads : reads args cfg.
Proof. constructor; reflexivity. Qed.

Lemma episodes_end_3 : episodes_end (gym:=gym) (learner:=learner) 10.
Proof.
  intros p [n s]. exists [(1, 1000, false); (2, 1000, false); (3, 1000, true)], (mkEnv 3 s).
  split; [|cbn; lia]. cbn. by repeat split.
Qed.

(** *** The disk of the concrete world *)

Lemma absent_not_read (st : tree) (p : string) :
  present st p = false → fs_read st p = None.
Proof.
  unfold present. intros H. apply orb_false_iff in H as [_ H].
  apply bool_decide_eq_false in H. cbn. destruct (st !! p) as [[|c]|] eqn:E; try done.
  destruct H. by eexists.
Qed.

Lemma read_insert_dir (st st' : tree) (p q : string) :
  fs_read st p = None → fs_read st' q = fs_read st q →
  fs_read (<[p:=Dir]> st') q = fs_read st q.
Proof.
  intros Hp Hq. cbn in *. destruct (decide (p = q)) as [->|Hne].
  - by rewrite lookup_insert_eq, Hp.
  - by rewrite lookup_insert_ne.
Qed.

Lemma makedirs_upto_keeps (q : string) :
  ∀ (n : nat) (st : tree) (p : string),
    fs_read (makedirs_upto n st p).1 q = fs_read st q.
Proof.
  induction n as [|n IH]; intros st p; cbn [makedirs_upto].
  - destruct (String.eqb p ""); [done|].
    destruct (present st p) eqn:Hp; [done|].
    destruct (no_room st p) as [[]|]; try done.
    apply read_insert_dir; [by apply absent_not_read|done].
  - destruct (String.eqb p ""); [done|].
    destruct (present st p) eqn:Hp; [done|].
    destruct (no_room st p) as [[]|]; try done.
    + destruct (dirname p) as [dir|]; [|done].
      specialize (IH st dir). destruct (makedirs_upto n st dir) as [st' [e|]]; [done|].
      apply read_insert_dir; [by apply absent_not_read|done].
    + apply read_insert_dir; [by apply absent_not_read|done].
Qed.

Lemma toy_keeps_files : keeps_files (disk:=disk).
Proof.
  constructor.
  - intros st p old. cbn. unfold present.
    destruct (st !! p) as [[|c]|] eqn:E; try done. intros _.
    apply orb_true_iff. right. apply bool_decide_eq_true. by eexists.
  - intros st p q. apply makedirs_upto_keeps.
Qed.

Lemma is_dir_insert_ne (st : tree) (p q : string) (n : node) :
  p ≠ q → is_dir (<[p:=n]> st) q = is_dir st q.
Proof. intros H. unfold is_dir. by rewrite lookup_insert_ne. Qed.

Lemma good_inv (save : bool) (st : tree) :
  good save st = true →
  (∃ rows, st !! "./results/run.csv" = Some (File rows)) ∧
  (save = true → is_dir st "./models" = true ∧ is_dir st "./models/run" = false).
Proof.
  unfold good. intros H. apply andb_true_iff in H as [H1 H2]. split.
  - destruct (st !! "./results/run.csv") as [[|rows]|]; try done. by eexists.
  - intros ->. apply andb_true_iff in H2 as [H2 H3]. split; [done|].
    by apply negb_true_iff.
Qed.

(** The invariants of a run on the concrete world: every policy is
    sound, the disk is [good]. *)
Lemma toy_supports (c : config) (e : env_state) :
  res_path c = "./results/run.csv" →
  save_path c = "./models/run" →
  supports c e (λ _, True) (λ st, good (truthy (cfg_save_model c)) st = true).
Proof.
  intros Hres Hsave. constructor.
  - done.
  - intros p o g scale _. by eexists.
  - intros st HG. rewrite Hres. destruct (good_inv _ _ HG) as [[rows Hrows] _].
    cbn. rewrite Hrows. by eexists.
  - intros st ls HG. rewrite Hres.
    destruct (good_inv _ _ HG) as [[rows Hrows] Hm].
    apply andb_true_iff in HG as [_ HG2].
    cbn. rewrite Hrows. cbn. split; [done|]. split.
    + unfold good. rewrite lookup_insert_eq. cbn [andb].
      destruct (truthy (cfg_save_model c)); [|done].
      by rewrite !is_dir_insert_ne.
    + intros old [= <-]. by rewrite lookup_insert_eq.
  - intros Hs st p HG _. rewrite Hres, Hsave.
    rewrite Hs in HG. destruct (good_inv _ _ HG) as [[rows Hrows] Hm].
    destruct (Hm eq_refl) as [Hd Hf].
    assert (policy_save st p "./models/run" =
            (<["./models/run":=File [Row [VInt p]]]> st, None)) as ->.
    { pose proof Hd as Hd'. pose proof Hf as Hf'. cbn in Hd', Hf'.
      cbn. unfold put_file, no_room. cbn. by rewrite Hd', Hf'. }
    cbn [fst snd]. split; [done|]. rewrite Hs. split.
    + unfold good. rewrite lookup_insert_ne by done. rewrite Hrows. cbn [andb].
      rewrite is_dir_insert_ne by done. rewrite Hd. cbn [andb].
      unfold is_dir. cbn. by rewrite lookup_insert_eq.
    + cbn. by rewrite lookup_insert_ne.
Qed.

(** A configuration with the default paths on a disk where lines 91-116
    go through is equipped. *)
Lemma toy_equipped (c : config) (w : world) (k : policy_kind)
    (kwargs : gmap string (pyval Z)) :
  gym_make (cfg_env c) = Some (mkEnv 0 0) →
  (∃ s, py_add_int (cfg_seed c) 100 = inr s) →
  numeric (cfg_expl_noise c) →
  res_path c = "./results/run.csv" →
  save_path c = "./models/run" →
  cfg_load_model c = VStr "" →
  policy_spec c (mkEnv 0 0) = Some (k, kwargs) →
  (prepare_fs c (fs w)).2 = None →
  good (truthy (cfg_save_model c)) (prepare_fs c (fs w)).1 = true →
  equipped 10 c w.
Proof.
  intros Hmake Hseed Hnoise Hres Hsave Hload Hspec Hout Hgood. constructor; try done.
  - apply episodes_end_3.
  - intros e0 He0. rewrite Hmake in He0. injection He0 as <-. cbn zeta.
    exists (λ _, True), (λ st, good (truthy (cfg_save_model c)) st = true), k, kwargs, 0.
    split; [by apply toy_supports|]. split; [done|]. split; [done|].
    split; [|done]. unfold start_policy. by rewrite Hload.
Qed.

Lemma config_with_equipped (mx st ef : Z) (w : world) :
  (prepare_fs (config_with "TD3" mx st ef) (fs w)).2 = None →
  good false (prepare_fs (config_with "TD3" mx st ef) (fs w)).1 = true →
  equipped 10 (config_with "TD3" mx st ef) w.
Proof.
  intros Hout Hgood. eapply toy_equipped; try done; by eexists.
Qed.

Lemma config_with_ready (mx st ef : Z) (w : world) :
  ef ≠ 0 →
  (prepare_fs (config_with "TD3" mx st ef) (fs w)).2 = None →
  good false (prepare_fs (config_with "TD3" mx st ef) (fs w)).1 = true →
  ready 10 (config_with "TD3" mx st ef) w.
Proof. intros Hef Hout Hgood. split; [by apply config_with_equipped|done]. Qed.

Lemma cfg_ready_fresh : ready 10 cfg world0.
Proof. apply config_with_ready; [done|vm_compute; reflexivity..]. Qed.

Lemma cfg_ready_again : ready 10 cfg world_again.
Proof. apply config_with_ready; [done|vm_compute; reflexivity..]. Qed.

Lemma args_saving_reads : reads args_saving cfg_saving.
Proof. constructor; reflexivity. Qed.

Lemma cfg_saving_ready : ready 10 cfg_saving world0.
Proof.
  split; [|done].
  eapply toy_equipped; try done; first [by eexists|vm_compute; reflexivity].
Qed.

Lemma args_with_reads (p : string) (mx st ef : Z) :
  reads (args_with p mx st ef) (config_with p mx st ef).
Proof. constructor; reflexivity. Qed.

Lemma ticks_1000 :
  ticks (cfg_eval_freq cfg) (Z.to_nat (cfg_max_timesteps cfg)) = [499; 999].
Proof. vm_compute. reflexivity. Qed.

Lemma ticks_saving :
  ticks (cfg_eval_freq cfg_saving) (Z.to_nat (cfg_max_timesteps cfg_saving)) = [499; 999].
Proof. vm_compute. reflexivity. Qed.

Lemma base_content_fresh : base_content cfg world0 = header_block cfg.
Proof. vm_compute. reflexivity. Qed.

Lemma argv_parses : parse_args argv = inr argv_parsed.
Proof. reflexivity. Qed.

Lemma argv_noise_parses : parse_args argv_noise = inr argv_noise_parsed.
Proof. reflexivity. Qed.

(** *** The claims *)

Lemma existing_file_no_error :
  (main 10 args_short world_again).2 = inr tt ∧
  fs_read (fs (main 10 args_short world_again).1) "./results/run.csv" =
    Some [Text "earlier results";
          Row [VFloat 3000; VInt 0; VInt 0; VInt 0; VInt 0];
          Row [VFloat 3000; VFloat 10000; VInt 3; VInt 1; VInt 0];
          Row [VFloat 3000; VFloat 30000; VInt 6; VInt 4; VInt 0]].
Proof. split; vm_compute; reflexivity. Qed.

Lemma existing_result_file_is_extended_witness :
  ∃ w' avg0 avgs,
    main 10 args world_again = (w', inr tt) ∧
    fs_read (fs w') "./results/run.csv" =
      Some (Text "earlier results" :: initial_row cfg avg0
              :: tick_rows cfg 0 0 [499; 999] avgs).
Proof.
  destruct (existing_result_file_is_extended 10 args cfg world_again
              [Text "earlier results"] args_reads cfg_ready_again toy_keeps_files
              ltac:(vm_compute; reflexivity))
    as (w' & avg0 & avgs & Hmain & _ & _ & Hfile & _).
  rewrite ticks_1000 in Hfile.
  exists w', avg0, avgs. split; [exact Hmain|exact Hfile].
Defined.

Lemma stored_done_flag_witness :
  ∃ w' ls' tr,
    step_and_store locals_running [0; 0] world_running = (w', inr (ls', true)) ∧
    replay_buffer w' = Some [tr] ∧
    episode_timesteps ls' = 3 ∧
    tr_done tr = 0.
Proof.
  destruct (stored_done_flag locals_running [0; 0] world_running (mkEnv 2 0) []
              ltac:(reflexivity) ltac:(reflexivity))
    as (o & r & d & e' & tr & w' & ls' & Hstep & Hrun & _ & Hbuf & _ & Hts & _ & Hcap).
  injection Hstep as <- <- <- <-.
  exists w', ls', tr. split; [done|]. split; [done|]. split; [done|].
  apply Hcap. cbn. rewrite Hts. cbn. lia.
Defined.

Lemma train_schedule_witness :
  ∃ w' evs,
    main 10 args world0 = (w', inr tt) ∧
    trace w' = trace world0 ++ evs ∧
    train_calls evs = 900.
Proof.
  destruct (train_schedule 10 args cfg world0 args_reads cfg_ready_fresh
              ltac:(vm_compute; split; discriminate))
    as (_ & w_end & ls_end & w' & evs & _ & _ & Hmain & Htrace & Hcalls & _).
  exists w', evs. split; [exact Hmain|]. split; [exact Htrace|exact Hcalls].
Defined.

Lemma result_rows_witness :
  ∃ w' avg0 avgs,
    main 10 args world0 = (w', inr tt) ∧
    fs_read (fs w') "./results/run.csv" =
      Some (header_block cfg ++ initial_row cfg avg0
              :: tick_rows cfg 0 0 [499; 999] avgs) ∧
    length (initial_row cfg avg0 :: tick_rows cfg 0 0 [499; 999] avgs) = 3%nat.
Proof.
  destruct (result_rows 10 args cfg world0 args_reads cfg_ready_fresh)
    as (w' & avg0 & avgs & Hmain & _ & _ & _ & Hfile & _ & _ & _ & _ & Hthree).
  specialize (Hthree eq_refl eq_refl).
  rewrite ticks_1000 in Hfile, Hthree. rewrite base_content_fresh in Hfile.
  exists w', avg0, avgs. split; [exact Hmain|]. split; [exact Hfile|exact Hthree].
Defined.

Lemma bad_selector_aborts_witness :
  ∃ w' evs,
    main 10 (args_with "SAC" 1000 100 500) world0 =
      (w', inl (UnboundLocalError "policy")) ∧
    policy w' = None ∧
    trace w' = trace world0 ++ evs ∧
    Forall startup_event evs.
Proof.
  destruct (bad_selector_aborts 10 (args_with "SAC" 1000 100 500) world0 "SAC"
              ltac:(reflexivity) ltac:(discriminate) ltac:(discriminate)
              ltac:(discriminate))
    as (w' & e & evs & Hmain & Hpol & Htrace & Hevs & He & _).
  rewrite (He (config_with "SAC" 1000 100 500)
              ltac:(constructor; reflexivity) ltac:(by eexists)
              ltac:(vm_compute; reflexivity)) in Hmain.
  exists w', evs. split; [exact Hmain|]. split; [exact Hpol|].
  split; [exact Htrace|exact Hevs].
Defined.

Lemma action_selection_witness :
  (∃ w' res o r d tr,
     interact args 0 locals_running world_running = (w', inr res) ∧
     trace w' = [ESample 0%nat [0; 0]; EStep 0%nat [0; 0] o r d; EBufferAdd tr]) ∧
  (∃ w' res o r d tr,
     interact args 100 locals_running world_running = (w', inr res) ∧
     trace w' = [ESelectAction 2 [5; 5]; ENormal 100 2 [0; 0];
                 EStep 0%nat [5; 5] o r d; EBufferAdd tr]).
Proof.
  destruct (action_selection args locals_running 0 100 world_running (mkEnv 2 0) []
              ltac:(reflexivity) ltac:(reflexivity) ltac:(reflexivity))
    as [Hwarm _].
  destruct (action_selection args locals_running 100 100 world_running (mkEnv 2 0) []
              ltac:(reflexivity) ltac:(reflexivity) ltac:(reflexivity))
    as [_ Hpol].
  split.
  - apply Hwarm. lia.
  - destruct (Hpol ltac:(lia) 5 (VFloat 100) 100 [5; 5] ltac:(reflexivity)
                ltac:(reflexivity) ltac:(reflexivity) ltac:(reflexivity))
      as [Hrun _].
    exact Hrun.
Defined.

Lemma evaluation_is_mean_return_witness :
  ∃ (eps : list (Z * list (Z * Z * bool))) w' avg,
    eval_policy 10 (VStr "HalfCheetah-v2") (VInt 0) 10 world_running = (w', inr avg) ∧
    Z.of_nat (length eps) = 10 ∧
    policy w' = policy world_running ∧
    replay_buffer w' = replay_buffer world_running ∧
    envs w' !! 0%nat = envs world_running !! 0%nat ∧
    avg = mean_return eps 10.
Proof.
  destruct (evaluation_is_mean_return 10 (VStr "HalfCheetah-v2") (VInt 0) (VInt 100) 10
              5 (mkEnv 0 0) world_running episodes_end_3 ltac:(reflexivity)
              ltac:(reflexivity) ltac:(reflexivity) ltac:(lia))
    as (eps & e_end & w' & avg & Hrun & Henvs & _ & Hlen & _ & Hpol & Hbuf & _ & _ & _
        & _ & _ & Hmean).
  exists eps, w', avg. split; [done|]. split; [done|]. split; [done|]. split; [done|].
  split; [by rewrite Henvs|].
  apply Hmean; intros; cbn; lia.
Defined.

Lemma evaluation_time_excluded_witness :
  ∃ w' avg0 avgs,
    main 10 args world0 = (w', inr tt) ∧
    fs_read (fs w') "./results/run.csv" =
      Some (header_block cfg ++ initial_row cfg avg0
              :: tick_rows cfg 0 0 [499; 999] avgs) ∧
    (∃ avg, tick_rows cfg 0 0 [499; 999] avgs !! 1%nat =
              Some (Row [VFloat avg; VFloat 30000; VInt 1000; VInt 900; VInt 0])).
Proof.
  destruct (evaluation_time_excluded 10 args cfg world0 args_reads cfg_ready_fresh)
    as (_ & w' & avg0 & avgs & Hmain & Hfile & Hrows & _).
  rewrite ticks_1000 in Hfile, Hrows. rewrite base_content_fresh in Hfile.
  exists w', avg0, avgs. split; [exact Hmain|]. split; [exact Hfile|].
  exact (Hrows 1%nat 999 eq_refl).
Defined.

Lemma no_result_dir_other_error :
  parse_args argv_no_dir = inr argv_no_dir_parsed ∧
  (main 10 argv_no_dir_parsed world0).2 = inl (FileNotFoundError "") ∧
  trace (main 10 argv_no_dir_parsed world0).1 =
    [EPrint rule; EPrint "Policy: TD3, Env: HalfCheetah-v2, Seed: 0"; EPrint rule].
Proof. split; [reflexivity|]. split; vm_compute; reflexivity. Qed.

Lemma parsed_run_stops_at_startup_witness :
  ∃ w' banner,
    main 10 defaults world0 = (w', inl (AttributeError "file_name")) ∧
    trace w' = trace world0 ++ [EPrint rule; EPrint banner; EPrint rule] ∧
    envs w' = envs world0 ∧ policy w' = None ∧ replay_buffer w' = None.
Proof.
  destruct (parsed_run_stops_at_startup 10 [] defaults world0 eq_refl)
    as (s & b & m & w' & e & banner & Hs & Hb & Hm & Hmain & Hattr & _ & _ & Htr & Hrest).
  injection Hs as <-. injection Hb as <-. injection Hm as <-.
  rewrite (Hattr ltac:(vm_compute; reflexivity)) in Hmain.
  exists w', banner. split; [exact Hmain|]. split; [exact Htr|exact Hrest].
Defined.

Lemma td3_noise_scaled_witness :
  ∃ w' kwargs,
    build_policy args 0%nat world_running = (w', inr (1, 2, 1000)) ∧
    trace w' = trace world_running ++ [EPolicyNew TD3 kwargs] ∧
    kwargs !! "policy_noise" = Some (VFloat 200) ∧
    kwargs !! "noise_clip" = Some (VFloat 500) ∧
    kwargs !! "policy_freq" = Some (VInt 2).
Proof.
  destruct (td3_noise_scaled args 0%nat world_running (mkEnv 2 0) (VFloat 990) (VFloat 5)
              ltac:(reflexivity) ltac:(reflexivity) ltac:(reflexivity))
    as [Htd3 _].
  destruct (Htd3 (VFloat 200) (VFloat 500) (VInt 2) 200 500 ltac:(reflexivity)
              ltac:(reflexivity) ltac:(reflexivity) ltac:(reflexivity)
              ltac:(reflexivity) ltac:(reflexivity))
    as (w' & kwargs & Hrun & Htrace & _ & Hpn & Hnc & Hpf & _).
  exists w', kwargs. split; [exact Hrun|]. split; [exact Htrace|].
  split; [exact Hpn|]. split; [exact Hnc|exact Hpf].
Defined.

(** *** The further properties on the concrete world *)

Lemma parse_args_keys_witness :
  is_Some (argv_parsed !! "seed") ∧ ¬ is_Some (argv_parsed !! "file_name").
Proof.
  split.
  - apply (parse_args_keys argv argv_parsed argv_parses "seed").
    vm_compute. apply list_elem_of_In. cbn. tauto.
  - intros H. apply (parse_args_keys argv argv_parsed argv_parses "file_name") in H.
    apply list_elem_of_In in H. cbn in H. by repeat destruct H as [?|H].
Defined.

Lemma parse_args_values_witness :
  argv_parsed !! "env" = Some (VStr "HalfCheetah-v2") ∧
  argv_parsed !! "seed" = Some (VInt 7) ∧
  argv_parsed !! "policy_noise" = Some (VStr "0.3") ∧
  argv_parsed !! "save_model" = Some (VBool true).
Proof.
  split; [|split; [|split]].
  - destruct (parse_args_values argv argv_parsed "env" argv_parses) as (Hdef & _ & _).
    rewrite Hdef; [reflexivity|]. repeat constructor; discriminate.
  - destruct (parse_args_values argv argv_parsed "seed" argv_parses) as (_ & Hopt & _).
    destruct (Hopt [] "7" [CliFlag "save_model"; CliOpt "policy_noise" "0.3"] eq_refl
                ltac:(repeat constructor; discriminate))
      as [(_ & z & Hz & Hd)|[Hmem _]].
    + injection Hz as <-. exact Hd.
    + apply list_elem_of_In in Hmem. cbn in Hmem. by repeat destruct Hmem as [?|Hmem].
  - destruct (parse_args_values argv argv_parsed "policy_noise" argv_parses)
      as (_ & Hopt & _).
    destruct (Hopt [CliOpt "seed" "7"; CliFlag "save_model"] "0.3" [] eq_refl
                ltac:(constructor))
      as [(Hmem & _)|[_ Hd]].
    + apply list_elem_of_In in Hmem. cbn in Hmem. by repeat destruct Hmem as [?|Hmem].
    + exact Hd.
  - destruct (parse_args_values argv argv_parsed "save_model" argv_parses)
      as (_ & _ & Hflag).
    destruct (Hflag [CliOpt "seed" "7"] [CliOpt "policy_noise" "0.3"] eq_refl
                ltac:(repeat constructor; discriminate)) as [_ Hd].
    exact Hd.
Defined.

Lemma cli_noise_breaks_td3_witness :
  init_policy argv_parsed ∅ 1000 world0 = (world0, inl (TypeError "*")).
Proof.
  apply (cli_noise_breaks_td3 [CliOpt "seed" "7"; CliFlag "save_model"] []
           "policy_noise" "0.3" argv_parsed ∅ 1000 world0).
  - by left.
  - exact argv_parses.
  - constructor.
  - reflexivity.
Defined.

Lemma cli_expl_noise_breaks_policy_phase_witness :
  choose_action argv_noise_parsed locals_running 25000 world_running =
    (log (ESelectAction 2 [5; 5]) world_running, inl (TypeError "*")).
Proof.
  exact (cli_expl_noise_breaks_policy_phase [] [] "0.3" argv_noise_parsed locals_running
           25000 (VFloat 25000000) 5 world_running argv_noise_parses
           (List.Forall_nil _) eq_refl eq_refl eq_refl).
Defined.

Lemma eval_policy_no_episodes_witness :
  eval_policy 10 (VStr "HalfCheetah-v2") (VInt 0) 0 world0 =
    (mkWorld ∅ [mkEnv 0 100] None None 0 0%nat
       [EGymMake (VStr "HalfCheetah-v2") 0%nat; EEnvSeed 0%nat (VInt 100)],
     inl ZeroDivisionError).
Proof.
  exact (eval_policy_no_episodes 10 (VStr "HalfCheetah-v2") (VInt 0) (VInt 100) 0
           (mkEnv 0 0) world0 eq_refl eq_refl ltac:(lia)).
Defined.

Lemma eval_policy_policy_only_witness :
  (eval_policy 10 (VStr "HalfCheetah-v2") (VInt 0) 10 world_running).2 =
  (eval_policy 10 (VStr "HalfCheetah-v2") (VInt 0) 10 world_busy).2.
Proof.
  apply (eval_policy_policy_only 10 (VStr "HalfCheetah-v2") (VInt 0) 10 world_running
           world_busy).
  reflexivity.
Defined.

Lemma checkpoint_paths_witness :
  ∃ evs, trace (main 10 args world0).1 = trace world0 ++ evs ∧
         ∀ p, EPolicySave p ∈ evs → False.
Proof.
  destruct (checkpoint_paths 10 args cfg world0 args_reads) as (evs & Ht & Hsave & _).
  exists evs. split; [exact Ht|]. intros p Hp. destruct (Hsave p Hp) as [Hno _].
  discriminate Hno.
Defined.

Lemma one_transition_per_step_witness :
  ∃ w' evs,
    main 10 args world0 = (w', inr tt) ∧
    trace w' = trace world0 ++ evs ∧
    calls is_add evs = 1000%nat.
Proof.
  destruct (one_transition_per_step 10 args cfg world0 args_reads cfg_ready_fresh)
    as (w' & evs & Hmain & Ht & Ha & _).
  exists w', evs. split; [exact Hmain|]. split; [exact Ht|exact Ha].
Defined.

Lemma environments_made_witness :
  ∃ w' evs,
    main 10 args world0 = (w', inr tt) ∧
    trace w' = trace world0 ++ evs ∧
    calls is_make evs = 4%nat.
Proof.
  destruct (environments_made 10 args cfg world0 args_reads cfg_ready_fresh)
    as (w' & evs & Hmain & Ht & Hm).
  rewrite ticks_1000 in Hm.
  exists w', evs. split; [exact Hmain|]. split; [exact Ht|exact Hm].
Defined.

Lemma checkpoints_saved_witness :
  ∃ w' evs,
    main 10 args_saving world0 = (w', inr tt) ∧
    trace w' = trace world0 ++ evs ∧
    calls is_save evs = 3%nat.
Proof.
  destruct (checkpoints_saved 10 args_saving cfg_saving world0 args_saving_reads
              cfg_saving_ready)
    as (w' & evs & Hmain & Ht & Hs).
  rewrite ticks_saving in Hs.
  exists w', evs. split; [exact Hmain|]. split; [exact Ht|exact Hs].
Defined.

Lemma evaluation_rows_count_witness :
  ∃ w' rows,
    main 10 args world0 = (w', inr tt) ∧
    fs_read (fs w') "./results/run.csv" = Some (header_block cfg ++ rows) ∧
    Z.of_nat (length rows) = 3.
Proof.
  destruct (evaluation_rows_count 10 args cfg world0 args_reads cfg_ready_fresh)
    as (w' & rows & Hmain & Hfile & Hlen).
  rewrite base_content_fresh in Hfile.
  exists w', rows. split; [exact Hmain|]. split; [exact Hfile|exact Hlen].
Defined.

Lemma training_outside_schedule_witness :
  ∃ w' evs,
    main 10 (args_with "TD3" 6 10 3) world0 = (w', inr tt) ∧
    trace w' = trace world0 ++ evs ∧
    train_calls evs = 0.
Proof.
  destruct (training_outside_schedule 10 (args_with "TD3" 6 10 3)
              (config_with "TD3" 6 10 3) world0 (args_with_reads "TD3" 6 10 3)
              (config_with_ready 6 10 3 world0 ltac:(discriminate)
                 ltac:(vm_compute; reflexivity) ltac:(vm_compute; reflexivity)))
    as (w' & evs & Hmain & Ht & Hnone & _).
  exists w', evs. split; [exact Hmain|]. split; [exact Ht|].
  apply Hnone. cbn. lia.
Defined.

Lemma zero_eval_freq_stops_first_step_witness :
  ∃ w' avg0 evs,
    main 10 (args_with "TD3" 6 2 0) world0 = (w', inl ZeroDivisionError) ∧
    fs_read (fs w') "./results/run.csv" =
      Some (header_block (config_with "TD3" 6 2 0) ++
            [Row [VFloat avg0; VInt 0; VInt 0; VInt 0; VInt 0]]) ∧
    trace w' = evs ∧
    calls is_add evs = 1%nat.
Proof.
  destruct (zero_eval_freq_stops_first_step 10 (args_with "TD3" 6 2 0)
              (config_with "TD3" 6 2 0) world0 (args_with_reads "TD3" 6 2 0)
              eq_refl ltac:(cbn; lia)
              (config_with_equipped 6 2 0 world0 ltac:(vm_compute; reflexivity)
                 ltac:(vm_compute; reflexivity)))
    as (w' & avg0 & evs & Hmain & Hfile & Ht & Ha).
  exists w', avg0, evs. split; [exact Hmain|]. split; [exact Hfile|].
  split; [exact Ht|exact Ha].
Defined.

Lemma unknown_env_stops_after_header_witness :
  main 10 args_no_env world0 =
    (mkWorld {[ "./results" := Dir;
                "./results/run.csv" := File (header_block cfg_no_env) ]}
       [] None None 0 0%nat (banner cfg_no_env),
     inl GymError).
Proof.
  rewrite (unknown_env_stops_after_header 10 args_no_env cfg_no_env world0).
  - reflexivity.
  - constructor; reflexivity.
  - reflexivity.
  - vm_compute. reflexivity.
Defined.

End ToyFacts.
